(** * Multi-Video-Compressor: the batch driver of [main.py]

    A shallow embedding of the non-GUI logic of [VideoCompressorApp]:
    input validation, file discovery, the ffmpeg command builder, the
    per-file progress loop and the batch loop with its time estimate and
    cooperative cancellation.

    Conventions of the embedding.
    - Python [str] is [string]; only ASCII is interpreted (case folding,
      digits, white space), other bytes are carried through unchanged.
    - Python [float] is read as an exact rational ([Q]): rounding, overflow,
      [inf] and [nan] are outside the model.
    - [os.path] is [posixpath].
    - The outside world (file system, the two external tools, the clock and
      the cancel button) is an explicit oracle argument; everything the
      worker does to the outside is recorded in a trace of events. *)

From Stdlib Require Import Bool Arith ZArith QArith Qround Qminmax Qfield Lia List.
From Stdlib Require Import Ascii String DecimalString Decimal DecimalZ DecimalNat.
From Stdlib Require Import Sorting Permutation Orders.
Import ListNotations.

Close Scope Q_scope.
Local Open Scope string_scope.
Local Open Scope list_scope.
Local Open Scope nat_scope.

(** ** Python string primitives *)

Module PyStr.

(** [s.startswith(p)] *)
Definition startswith (s p : string) : bool := String.prefix p s.

(** [s.endswith(p)] for a one-character [p] *)
Fixpoint ends_with_char (s : string) (c : ascii) : bool :=
  match s with
  | EmptyString => false
  | String a EmptyString => Ascii.eqb a c
  | String _ r => ends_with_char r c
  end.

(** ASCII white space as [str.strip], [int] and [float] see it. *)
Definition is_space (c : ascii) : bool :=
  let n := nat_of_ascii c in
  ((9 <=? n) && (n <=? 13)) || ((28 <=? n) && (n <=? 32)).

Fixpoint lstrip (s : string) : string :=
  match s with
  | String c r => if is_space c then lstrip r else s
  | EmptyString => EmptyString
  end.

Fixpoint rstrip (s : string) : string :=
  match s with
  | EmptyString => EmptyString
  | String c r =>
      match rstrip r with
      | EmptyString => if is_space c then EmptyString else String c EmptyString
      | r' => String c r'
      end
  end.

(** [s.strip()] *)
Definition strip (s : string) : string := rstrip (lstrip s).

(** [s.split(sep)] for a one-character separator: never empty. *)
Fixpoint split (sep : ascii) (s : string) : list string :=
  match s with
  | EmptyString => [EmptyString]
  | String c r =>
      if Ascii.eqb c sep then EmptyString :: split sep r
      else match split sep r with
           | h :: t => String c h :: t
           | [] => [String c EmptyString]
           end
  end.

(** [sep.join(parts)] for a one-character separator *)
Fixpoint join_with (sep : ascii) (parts : list string) : string :=
  match parts with
  | [] => EmptyString
  | [p] => p
  | p :: rest => p ++ String sep (join_with sep rest)
  end.

Definition lower_char (c : ascii) : ascii :=
  let n := nat_of_ascii c in
  if (65 <=? n) && (n <=? 90) then ascii_of_nat (n + 32) else c.

(** [s.lower()] on ASCII letters *)
Fixpoint lower (s : string) : string :=
  match s with
  | EmptyString => EmptyString
  | String c r => String (lower_char c) (lower r)
  end.

(** [s.rfind(c)]: index of the last occurrence, [None] for Python's -1. *)
Fixpoint rfind (c : ascii) (s : string) : option nat :=
  match s with
  | EmptyString => None
  | String a r =>
      match rfind c r with
      | Some i => Some (S i)
      | None => if Ascii.eqb a c then Some 0 else None
      end
  end.

(** [s[:n]] and [s[n:]] *)
Fixpoint take (n : nat) (s : string) : string :=
  match n, s with
  | S k, String c r => String c (take k r)
  | _, _ => EmptyString
  end.

Fixpoint drop (n : nat) (s : string) : string :=
  match n, s with
  | S k, String _ r => drop k r
  | _, _ => s
  end.

Definition is_digit (c : ascii) : bool :=
  let n := nat_of_ascii c in (48 <=? n) && (n <=? 57).

Definition digit_of_ascii (c : ascii) : option (uint -> uint) :=
  match nat_of_ascii c - 48, is_digit c with
  | 0, true => Some D0 | 1, true => Some D1 | 2, true => Some D2
  | 3, true => Some D3 | 4, true => Some D4 | 5, true => Some D5
  | 6, true => Some D6 | 7, true => Some D7 | 8, true => Some D8
  | 9, true => Some D9
  | _, _ => None
  end.

(** A run of decimal digits, single underscores allowed between two
    digits (the grouping Python's numeric constructors accept).  The empty
    string gives [Nil]. *)
Fixpoint digits (s : string) : option uint :=
  match s with
  | EmptyString => Some Nil
  | String c r =>
      match digit_of_ascii c with
      | None => None
      | Some d =>
          match r with
          | String u (String c' _ as r') =>
              if Ascii.eqb u "_" then
                if is_digit c' then option_map d (digits r') else None
              else option_map d (digits r)
          | _ => option_map d (digits r)
          end
      end
  end.

(** A non-empty digit run. *)
Definition digits1 (s : string) : option uint :=
  match s with
  | EmptyString => None
  | _ => digits s
  end.

(** Optional sign in front of a literal. *)
Definition signed (s : string) : bool * string :=
  match s with
  | String c r =>
      if Ascii.eqb c "-" then (true, r)
      else if Ascii.eqb c "+" then (false, r)
      else (false, s)
  | EmptyString => (false, s)
  end.

(** [int(s)]: [None] stands for [ValueError]. *)
Definition py_int (s : string) : option Z :=
  let '(neg, body) := signed (strip s) in
  match digits1 body with
  | Some d => Some (if neg then (- Z.of_uint d)%Z else Z.of_uint d)
  | None => None
  end.

(** Cut [s] at the first character satisfying [p]: the part before it and,
    when there is one, the part after it. *)
Fixpoint cut (p : ascii -> bool) (s : string) : string * option string :=
  match s with
  | EmptyString => (EmptyString, None)
  | String c r =>
      if p c then (EmptyString, Some r)
      else let '(a, b) := cut p r in (String c a, b)
  end.

Definition is_exp_mark (c : ascii) : bool :=
  Ascii.eqb c "e" || Ascii.eqb c "E".

Definition is_point (c : ascii) : bool := Ascii.eqb c ".".

Definition uint_length (d : uint) : nat := Decimal.nb_digits d.

(** Mantissa [ip.fp]: at least one of the two digit runs is non-empty. *)
Definition mantissa (s : string) : option Q :=
  let '(ip, fp) := cut is_point s in
  match digits ip, fp with
  | Some di, None =>
      match ip with
      | EmptyString => None
      | _ => Some (inject_Z (Z.of_uint di))
      end
  | Some di, Some f =>
      match digits f with
      | Some df =>
          match ip, f with
          | EmptyString, EmptyString => None
          | _, _ =>
              let k := Z.of_nat (uint_length df) in
              Some (inject_Z (Z.of_uint di * 10 ^ k + Z.of_uint df)
                    / inject_Z (10 ^ k))%Q
          end
      | None => None
      end
  | None, _ => None
  end.

(** Exponent part after [e]/[E]: signed non-empty digit run. *)
Definition exponent (s : string) : option Z :=
  let '(neg, body) := signed s in
  match digits1 body with
  | Some d => Some (if neg then (- Z.of_uint d)%Z else Z.of_uint d)
  | None => None
  end.

(** [float(s)] on finite decimal literals, as an exact rational; [None]
    stands for [ValueError].  The literals [inf], [infinity] and [nan],
    which Python also reads, have no rational value and are not covered. *)
Definition py_float (s : string) : option Q :=
  let '(neg, body) := signed (strip s) in
  let '(m, e) := cut is_exp_mark body in
  match mantissa m with
  | None => None
  | Some q =>
      let q := if neg then (- q)%Q else q in
      match e with
      | None => Some q
      | Some es =>
          match exponent es with
          | Some k => Some (q * (10 # 1) ^ k)%Q
          | None => None
          end
      end
  end.

(** Every character of [s] satisfies [p]. *)
Fixpoint all_chars (p : ascii -> bool) (s : string) : bool :=
  match s with
  | EmptyString => true
  | String c r => p c && all_chars p r
  end.

(** [str(n)] for an [int] *)
Definition str_of_Z (z : Z) : string := NilZero.string_of_int (Z.to_int z).

Definition str_of_nat (n : nat) : string := str_of_Z (Z.of_nat n).

End PyStr.

(** ** [posixpath] *)

Module PosixPath.
Import PyStr.

Definition sep : ascii := "/"%char.

(** [s.rfind(c)] with Python's -1 for "not found". *)
Definition rfindZ (c : ascii) (s : string) : Z :=
  match rfind c s with
  | Some i => Z.of_nat i
  | None => (-1)%Z
  end.

Definition isabs (p : string) : bool := startswith p "/".

(** [os.path.join(a, b)] *)
Definition join (a b : string) : string :=
  if startswith b "/" then b
  else if String.eqb a "" || ends_with_char a sep then a ++ b
  else a ++ String sep b.

(** [os.path.join(a, *ps)] *)
Definition join_all (a : string) (ps : list string) : string :=
  fold_left join ps a.

Fixpoint all_dots (s : string) : bool :=
  match s with
  | EmptyString => true
  | String c r => Ascii.eqb c "." && all_dots r
  end.

(** [os.path.splitext(p)]: a leading run of dots of the last component is
    not an extension separator. *)
Definition splitext (p : string) : string * string :=
  let sepIndex := rfindZ sep p in
  let dotIndex := rfindZ "." p in
  if (sepIndex <? dotIndex)%Z then
    let filenameIndex := Z.to_nat (sepIndex + 1) in
    let d := Z.to_nat dotIndex in
    if all_dots (take (d - filenameIndex) (drop filenameIndex p))
    then (p, EmptyString)
    else (take d p, drop d p)
  else (p, EmptyString).

(** [os.path.basename(p)] *)
Definition basename (p : string) : string :=
  drop (Z.to_nat (rfindZ sep p + 1)) p.

Fixpoint all_sep (s : string) : bool :=
  match s with
  | EmptyString => true
  | String c r => Ascii.eqb c sep && all_sep r
  end.

(** [s.rstrip('/')] *)
Fixpoint rstrip_sep (s : string) : string :=
  match s with
  | EmptyString => EmptyString
  | String c r =>
      match rstrip_sep r with
      | EmptyString => if Ascii.eqb c sep then EmptyString else String c EmptyString
      | r' => String c r'
      end
  end.

(** [os.path.dirname(p)] *)
Definition dirname (p : string) : string :=
  let head := take (Z.to_nat (rfindZ sep p + 1)) p in
  if negb (String.eqb head "") && negb (all_sep head) then rstrip_sep head else head.

(** One round of the component loop of [normpath]; [acc] is [new_comps]
    with its last element first. *)
Definition norm_step (initial_slashes : nat) (acc : list string) (comp : string)
  : list string :=
  if String.eqb comp "" || String.eqb comp "." then acc
  else if negb (String.eqb comp "..")
          || ((initial_slashes =? 0) && match acc with [] => true | _ => false end)
          || match acc with h :: _ => String.eqb h ".." | [] => false end
       then comp :: acc
       else match acc with _ :: t => t | [] => [] end.

Definition norm_comps (initial_slashes : nat) (path : string) : list string :=
  List.rev (fold_left (norm_step initial_slashes) (split sep path) []).

(** [os.path.normpath(path)] *)
Definition normpath (path : string) : string :=
  match path with
  | EmptyString => "."
  | _ =>
      let initial_slashes :=
        if startswith path "/" then
          if startswith path "//" && negb (startswith path "///") then 2 else 1
        else 0 in
      let body := join_with sep (norm_comps initial_slashes path) in
      let path' :=
        match initial_slashes with
        | 0 => body
        | 1 => ("/" ++ body)%string
        | _ => ("//" ++ body)%string
        end in
      match path' with
      | EmptyString => "."
      | _ => path'
      end
  end.

(** [os.path.abspath(path)], [cwd] being [os.getcwd()] *)
Definition abspath (cwd path : string) : string :=
  normpath (if isabs path then path else join cwd path).

Definition nonempty (s : string) : bool := negb (String.eqb s "").

(** length of the common prefix of two component lists *)
Fixpoint common_len (a b : list string) : nat :=
  match a, b with
  | x :: a', y :: b' => if String.eqb x y then S (common_len a' b') else 0
  | _, _ => 0
  end.

(** [os.path.relpath(path, start)]; [None] is the [ValueError] raised on an
    empty [path]. *)
Definition relpath (cwd path start : string) : option string :=
  match path with
  | EmptyString => None
  | _ =>
      let start_list := filter nonempty (split sep (abspath cwd start)) in
      let path_list := filter nonempty (split sep (abspath cwd path)) in
      let i := common_len start_list path_list in
      let rel_list := repeat ".." (List.length start_list - i) ++ skipn i path_list in
      match rel_list with
      | [] => Some "."
      | r :: rest => Some (join_all r rest)
      end
  end.

(** A relative path: not empty and without a slash in front. *)
Definition relative (s : string) : Prop :=
  s <> EmptyString /\ startswith s "/" = false.

End PosixPath.

(** ** The input tree and [os.walk] *)

(** A directory entry: a plain file, or a directory with its entries in the
    order [os.scandir] lists them. *)
#[local] Unset Elimination Schemes.
Inductive node : Type :=
| File (name : string)
| Dir (name : string) (children : list node).
#[local] Set Elimination Schemes.

(** Number of entries of a tree, the measure [os.walk] goes down on. *)
Fixpoint node_size (n : node) : nat :=
  match n with
  | File _ => 1
  | Dir _ children => S (list_sum (map node_size children))
  end.

(** What a path names on disk. *)
Inductive fs_entry : Type :=
| Missing
| IsFile
| IsDir (children : list node).

Definition file_names (children : list node) : list string :=
  flat_map (fun n => match n with File name => [name] | Dir _ _ => [] end) children.

(** The triples [(root, _, files)] that [os.walk] yields below [parent] for
    one entry, top-down and in listing order. *)
Fixpoint walk_node (parent : string) (n : node) : list (string * list string) :=
  match n with
  | File _ => []
  | Dir name children =>
      let top := PosixPath.join parent name in
      (top, file_names children) :: flat_map (walk_node top) children
  end.

(** [os.walk(top)] for an existing directory [top]. *)
Definition walk (top : string) (children : list node) : list (string * list string) :=
  (top, file_names children) :: flat_map (walk_node top) children.

(** [sorted(l)] for a list of [str] *)
Fixpoint insert_sorted (x : string) (l : list string) : list string :=
  match l with
  | [] => [x]
  | y :: l' => if String.leb x y then x :: l else y :: insert_sorted x l'
  end.

Fixpoint sorted (l : list string) : list string :=
  match l with
  | [] => []
  | x :: l' => insert_sorted x (sorted l')
  end.

(** The order of [str]: by code point, which on UTF-8 bytes is the order
    by byte. *)
Definition str_le (a b : string) : Prop := String.leb a b = true.

(** [file_under top children root name]: in the tree of the directory [top]
    with entries [children], the directory reached as [root] holds the plain
    file [name]. *)
Inductive file_under : string -> list node -> string -> string -> Prop :=
| file_here (top : string) (children : list node) (name : string) :
    In (File name) children -> file_under top children top name
| file_below (top : string) (children : list node) (d : string) (sub : list node)
    (root name : string) :
    In (Dir d sub) children ->
    file_under (PosixPath.join top d) sub root name ->
    file_under top children root name.

(** ** Class constants *)

Definition VIDEO_EXTENSIONS : list string :=
  [".mp4"; ".mov"; ".avi"; ".mkv"; ".wmv"; ".flv"; ".webm"; ".m4v"; ".3gp"].

Definition OUTPUT_FORMATS : list string := ["mp4"; "mkv"; "webm"].

Definition QUALITY_LEVELS : list (string * string) :=
  [("High (larger file)", "18"); ("Medium", "23");
   ("Low (smaller file)", "28"); ("Custom", "custom")].

Definition RESOLUTIONS : list string :=
  ["Original"; "4K (3840x2160)"; "1080p (1920x1080)"; "720p (1280x720)";
   "480p (854x480)"].

Definition str_in (s : string) (l : list string) : bool :=
  existsb (String.eqb s) l.

(** ** [find_video_files] *)

Definition is_video_name (file : string) : bool :=
  str_in (PyStr.lower (snd (PosixPath.splitext file))) VIDEO_EXTENSIONS.

(** The list built by the two nested loops, before sorting. *)
Definition collect_video_files (triples : list (string * list string)) : list string :=
  flat_map (fun '(root, files) =>
              map (PosixPath.join root) (filter is_video_name files)) triples.

Definition find_video_files (directory : string) (children : list node) : list string :=
  sorted (collect_video_files (walk directory children)).

(** ** Exceptions, settings and the outside world *)

Inductive exn_kind : Type :=
| ValueError | KeyError | IndexError | ZeroDivisionError | OSError | SubprocessError.

(** A raised exception with [str(e)]. *)
Inductive exn : Type := Raise (kind : exn_kind) (message : string).

Definition str_exn (e : exn) : string := let 'Raise _ m := e in m.

(** The Tk variables holding the user's choices. *)
Record settings : Type := {
  input_dir : string;
  output_dir : string;
  output_format : string;
  quality_preset : string;
  custom_crf : string;
  resolution : string
}.

(** What the file system answers during [validate_inputs]. *)
Record validation_world : Type := {
  vw_input : fs_entry;             (* what [input_dir] names *)
  vw_output_exists : bool;         (* [os.path.exists(output_dir)] *)
  vw_makedirs : option string      (* [os.makedirs(output_dir)]: [Some msg] is an [OSError] *)
}.

Inductive probe_result : Type :=
| ProbeRaises (e : exn)            (* [check_output] raised: non-zero exit, tool missing *)
| ProbeOutput (out : string).      (* exit code 0 with this output *)

Inductive encoder_result : Type :=
| PopenRaises (e : exn)
| Exited (lines : list string) (returncode : Z) (stderr : string).
    (* [lines]: what [readline] returned while [poll()] was [None] *)

(** What the outside does during one round of the batch loop. *)
Record task_world : Type := {
  tw_makedirs : option string;     (* [Some msg]: [os.makedirs] raised [OSError] *)
  tw_probe : probe_result;
  tw_encoder : encoder_result;
  tw_clock : Q;                    (* [time.time()] read after the task *)
  tw_cancel : bool                 (* Cancel is pressed while this round is in flight *)
}.

Record batch_world : Type := {
  bw_cwd : string;                 (* [os.getcwd()] *)
  bw_start : Q;                    (* [time.time()] at the start of the batch *)
  bw_cancel0 : bool;               (* Cancel pressed before the first round *)
  bw_task : nat -> task_world
}.

(** ** Events *)

Inductive tkvar : Type := current_file_var | progress_text | time_remaining | status_var.
Inductive bar : Type := file_progress | overall_progress.

(** Items put on [update_queue]. *)
Inductive update : Type :=
| ULabel (v : tkvar) (text : string)
| UProgress (b : bar) (value : Q)
| UMessage (title message : string)
| UUiState (processing : bool).

Inductive event : Type :=
| VarSet (v : tkvar) (text : string)       (* [v.set(text)] *)
| BarSet (b : bar) (value : Q)             (* [b['value'] = value] *)
| Queued (u : update)                      (* [update_queue.put(u)] *)
| Makedirs (path : string) (ok : bool)     (* [os.makedirs(path, exist_ok=True)] *)
| CheckOutput (cmd : list string)          (* [subprocess.check_output(cmd, ...)] *)
| Popen (cmd : list string)                (* [subprocess.Popen(cmd, ...)] *)
| Print (text : string).

(** ** [validate_inputs] *)

Inductive validation_error : Type :=
| BadInputDir
| NoOutputDir
| OutputDirFailed (msg : string)
| NoVideoFiles
| CrfOutOfRange
| CrfNotNumber.

(** The text of the error dialog. *)
Definition dialog_text (e : validation_error) : string :=
  match e with
  | BadInputDir => "Please select a valid input directory."
  | NoOutputDir => "Please select an output directory."
  | OutputDirFailed msg => ("Failed to create output directory: " ++ msg)%string
  | NoVideoFiles => "No video files found in the input directory."
  | CrfOutOfRange => "CRF value must be between 0 and 51."
  | CrfNotNumber => "CRF value must be a number between 0 and 51."
  end.

(** The names the specification gives to the rejections. *)
Inductive rejection : Type := InvalidDirectory | NoVideoFilesFound | InvalidQuality.

Definition classify (e : validation_error) : rejection :=
  match e with
  | BadInputDir | NoOutputDir | OutputDirFailed _ => InvalidDirectory
  | NoVideoFiles => NoVideoFilesFound
  | CrfOutOfRange | CrfNotNumber => InvalidQuality
  end.

Definition isdir (e : fs_entry) : bool :=
  match e with IsDir _ => true | _ => false end.

Definition listing (e : fs_entry) : list node :=
  match e with IsDir ch => ch | _ => [] end.

(** The quality block at the end of [validate_inputs]. *)
Definition validate_quality (st : settings) : option validation_error :=
  if String.eqb (quality_preset st) "Custom" then
    match PyStr.py_int (custom_crf st) with
    | Some crf_value =>
        if negb ((0 <=? crf_value)%Z && (crf_value <=? 51)%Z)
        then Some CrfOutOfRange else None
    | None => Some CrfNotNumber
    end
  else None.

(** [validate_inputs]: the verdict ([None] is [True]) paired with the value
    of [self.video_files] afterwards, [old] being its value before. *)
Definition validate_inputs (st : settings) (vw : validation_world) (old : list string)
  : option validation_error * list string :=
  if String.eqb (input_dir st) "" || negb (isdir (vw_input vw)) then
    (Some BadInputDir, old)
  else if String.eqb (output_dir st) "" then
    (Some NoOutputDir, old)
  else
    match (if vw_output_exists vw then None else vw_makedirs vw) with
    | Some msg => (Some (OutputDirFailed msg), old)
    | None =>
        let video_files := find_video_files (input_dir st) (listing (vw_input vw)) in
        match video_files with
        | [] => (Some NoVideoFiles, video_files)
        | _ => (validate_quality st, video_files)
        end
    end.

(** ** [get_ffmpeg_command] *)

Fixpoint lookup (k : string) (d : list (string * string)) : option string :=
  match d with
  | [] => None
  | (k', v) :: d' => if String.eqb k k' then Some v else lookup k d'
  end.

(** The longest run of digits in front of [s], and what follows. *)
Fixpoint span_digits (s : string) : string * string :=
  match s with
  | String c r =>
      if PyStr.is_digit c then let '(a, b) := span_digits r in (String c a, b)
      else (EmptyString, s)
  | EmptyString => (EmptyString, EmptyString)
  end.

(** A match of [\d+x\d+] starting at the first character of [s]. *)
Definition match_dims_here (s : string) : option string :=
  let '(w, rest) := span_digits s in
  match w, rest with
  | String _ _, String c r =>
      if Ascii.eqb c "x" then
        let '(h, _) := span_digits r in
        match h with
        | String _ _ => Some (w ++ String "x" h)%string
        | EmptyString => None
        end
      else None
  | _, _ => None
  end.

(** [re.search(r'(\d+x\d+)', s)] then [match.group(1)]: the leftmost match. *)
Fixpoint re_search_dims (s : string) : option string :=
  match match_dims_here s with
  | Some m => Some m
  | None =>
      match s with
      | String _ r => re_search_dims r
      | EmptyString => None
      end
  end.

Definition codec_args (fmt crf : string) : list string :=
  if String.eqb fmt "mp4" then ["-c:v"; "libx264"; "-crf"; crf; "-preset"; "medium"]
  else if String.eqb fmt "webm" then ["-c:v"; "libvpx-vp9"; "-crf"; crf; "-b:v"; "0"]
  else if String.eqb fmt "mkv" then ["-c:v"; "libx264"; "-crf"; crf; "-preset"; "medium"]
  else [].

Definition scale_args (res : string) : list string :=
  if negb (String.eqb res "Original") then
    match re_search_dims res with
    | Some m => ["-vf"; ("scale=" ++ m)%string]
    | None => []
    end
  else [].

(** The quality block of [get_ffmpeg_command]: [None] is the [KeyError] of
    [QUALITY_LEVELS[...]]. *)
Definition crf_setting (st : settings) : option string :=
  if String.eqb (quality_preset st) "Custom" then Some (custom_crf st)
  else lookup (quality_preset st) QUALITY_LEVELS.

(** [get_ffmpeg_command]; the only exception is the [KeyError] of the
    preset table. *)
Definition get_ffmpeg_command (st : settings) (input_file output_file : string)
  : exn + list string :=
  match crf_setting st with
  | None => inl (Raise KeyError ("'" ++ quality_preset st ++ "'")%string)
  | Some crf =>
      inr (["ffmpeg"; "-i"; input_file; "-y"]
             ++ scale_args (resolution st)
             ++ codec_args (output_format st) crf
             ++ ["-c:a"; "aac"; "-b:a"; "128k"]
             ++ [output_file])
  end.

(** ** The progress loop of [compress_video] *)

(** Python's [/] on floats. *)
Definition py_div (a b : Q) : exn + Q :=
  if Qeq_bool b 0 then inl (Raise ZeroDivisionError "float division by zero")
  else inr (a / b)%Q.

(** [a < b] *)
Definition Qltb (a b : Q) : bool := negb (Qle_bool b a).

(** [min(a, b)]: the first argument unless the second is smaller. *)
Definition py_min (a b : Q) : Q := if Qltb b a then b else a.

(** What one stripped line of the encoder's standard output leads to. *)
Inductive line_outcome : Type :=
| NotProgressLine                          (* no [out_time_ms=] prefix *)
| Swallowed (e : exn)                      (* raised inside [try], then [pass] *)
| NoEstimate (current_time : Q)            (* [duration > 0] is false *)
| Estimate (current_time progress : Q).    (* [safe_update_progress] is called *)

Definition process_line (duration : Q) (output_line : string) : line_outcome :=
  if PyStr.startswith output_line "out_time_ms=" then
    match nth_error (PyStr.split "=" output_line) 1 with
    | None => Swallowed (Raise IndexError "list index out of range")
    | Some field =>
        match PyStr.py_float field with
        | None => Swallowed (Raise ValueError "could not convert string to float")
        | Some micro =>
            let current_time := (micro / inject_Z 1000000)%Q in
            if Qltb 0 duration then
              match py_div current_time duration with
              | inl e => Swallowed e
              | inr ratio => Estimate current_time (py_min (inject_Z 100) (ratio * inject_Z 100)%Q)
              end
            else NoEstimate current_time
        end
    end
  else NotProgressLine.

Definition line_events (duration : Q) (raw_line : string) : list event :=
  match process_line duration (PyStr.strip raw_line) with
  | Estimate _ progress => [Queued (UProgress file_progress progress)]
  | _ => []
  end.

(** A line as [readline] returns it: the text and its line feed. *)
Definition with_newline (line : string) : string :=
  (line ++ String "010"%char EmptyString)%string.

(** The whole [while process.poll() is None] loop. *)
Definition drain (duration : Q) (lines : list string) : list event :=
  flat_map (line_events duration) lines.

(** ** [compress_video] *)

(** [l.insert(i, x)] *)
Definition list_insert {A} (i : nat) (x : A) (l : list A) : list A :=
  firstn i l ++ x :: skipn i l.

Definition duration_cmd (input_file : string) : list string :=
  ["ffprobe"; "-v"; "error"; "-show_entries"; "format=duration";
   "-of"; "default=noprint_wrappers=1:nokey=1"; input_file].

(** [float(duration_output.strip())] with its [except ValueError] *)
Definition parse_duration (duration_output : string) : Q :=
  match PyStr.py_float (PyStr.strip duration_output) with
  | Some d => d
  | None => 0%Q
  end.

(** The outer [except Exception] of [compress_video]. *)
Definition compress_failed (input_file : string) (e : exn) : list event :=
  [Queued (ULabel status_var ("Error: " ++ str_exn e)%string);
   Print ("Error compressing " ++ input_file ++ ": " ++ str_exn e)%string].

(** [compress_video]: the events it causes and its result. *)
Definition compress_video (st : settings) (tw : task_world)
    (input_file output_file : string) : list event * bool :=
  match tw_probe tw with
  | ProbeRaises e =>
      (CheckOutput (duration_cmd input_file) :: compress_failed input_file e, false)
  | ProbeOutput duration_output =>
      let duration := parse_duration duration_output in
      match get_ffmpeg_command st input_file output_file with
      | inl e =>
          (CheckOutput (duration_cmd input_file) :: compress_failed input_file e, false)
      | inr cmd =>
          let cmd := list_insert 2 "pipe:1" (list_insert 1 "-progress" cmd) in
          match tw_encoder tw with
          | PopenRaises e =>
              (CheckOutput (duration_cmd input_file) :: Popen cmd
                 :: compress_failed input_file e, false)
          | Exited lines returncode error_output =>
              let progress := drain duration lines in
              if negb (returncode =? 0)%Z then
                (CheckOutput (duration_cmd input_file) :: Popen cmd :: progress
                   ++ [Queued (ULabel status_var
                                 ("Error compressing " ++ PosixPath.basename input_file)%string);
                       Print ("ffmpeg error: " ++ error_output)%string],
                 false)
              else
                (CheckOutput (duration_cmd input_file) :: Popen cmd :: progress
                   ++ [Queued (UProgress file_progress (inject_Z 100))],
                 true)
          end
      end
  end.

(** ** [process_video_files] *)

(** [int(x)] for a float: truncation towards zero. *)
Definition py_trunc (x : Q) : Z :=
  if Qle_bool 0 x then Qfloor x else Qceiling x.

Definition two_digits (z : Z) : string :=
  if (z <? 10)%Z then ("0" ++ PyStr.str_of_Z z)%string else PyStr.str_of_Z z.

(** [str(timedelta(seconds=n))] for an integer [n]; the range check of
    [timedelta] (more than 999999999 days) is not modelled. *)
Definition str_timedelta (n : Z) : string :=
  let days := (n / 86400)%Z in
  let seconds := (n mod 86400)%Z in
  let mm := (seconds / 60)%Z in
  let ss := (seconds mod 60)%Z in
  let hh := (mm / 60)%Z in
  let mm := (mm mod 60)%Z in
  let s := (PyStr.str_of_Z hh ++ ":" ++ two_digits mm ++ ":" ++ two_digits ss)%string in
  if (days =? 0)%Z then s
  else (PyStr.str_of_Z days ++ " day" ++ (if (Z.abs days =? 1)%Z then "" else "s")
          ++ ", " ++ s)%string.

Definition files_processed_text (processed_files total_files : nat) : string :=
  (PyStr.str_of_nat processed_files ++ "/" ++ PyStr.str_of_nat total_files
     ++ " files processed")%string.

(** [est_time_remaining] as the loop computes it. *)
Definition est_time_remaining (elapsed_time : Q) (processed_files total_files : nat) : Q :=
  let avg_time_per_file := (elapsed_time / inject_Z (Z.of_nat processed_files))%Q in
  let remaining_files := (Z.of_nat total_files - Z.of_nat processed_files)%Z in
  (avg_time_per_file * inject_Z remaining_files)%Q.

(** The local variables of the loop that survive a round, the shared
    cancellation flag, and the events so far. *)
Record loop_state : Type := {
  processed_files : nat;
  failed_files : nat;
  cancel_requested : bool;
  trace : list event
}.

(** [os.path.join(output_dir, splitext(rel_path)[0] + '.' + output_format)] *)
Definition output_path (st : settings) (rel_path : string) : string :=
  PosixPath.join (output_dir st)
    (fst (PosixPath.splitext rel_path) ++ "." ++ output_format st)%string.

(** Destination of a source file; the exception is [relpath]'s. *)
Definition destination (st : settings) (cwd input_file : string) : exn + string :=
  match PosixPath.relpath cwd input_file (input_dir st) with
  | None => inl (Raise ValueError "no path specified")
  | Some rel_path => inr (output_path st rel_path)
  end.

(** The time-estimate block at the end of a round. *)
Definition estimate_events (start_time now : Q) (processed total : nat) : list event :=
  if 0 <? processed then
    [VarSet time_remaining
       (str_timedelta (py_trunc (est_time_remaining (now - start_time)%Q processed total)))]
  else [].

(** One round of the [for] loop after the cancellation test: the state after
    it, or the exception that leaves the loop with the state it leaves. *)
Definition round (st : settings) (w : batch_world) (total_files i : nat)
    (input_file : string) (s : loop_state) : exn * loop_state + loop_state :=
  let tw := bw_task w i in
  match destination st (bw_cwd w) input_file with
  | inl e => inl (e, s)
  | inr output_file =>
      let dir := PosixPath.dirname output_file in
      match tw_makedirs tw with
      | Some msg =>
          inl (Raise OSError msg,
               {| processed_files := processed_files s;
                  failed_files := failed_files s;
                  cancel_requested := cancel_requested s;
                  trace := trace s ++ [Makedirs dir false] |})
      | None =>
          let filename := PosixPath.basename input_file in
          let '(evs, result) := compress_video st tw input_file output_file in
          let processed := if result then S (processed_files s) else processed_files s in
          let failed := if result then failed_files s else S (failed_files s) in
          inr {| processed_files := processed;
                 failed_files := failed;
                 cancel_requested := cancel_requested s || tw_cancel tw;
                 trace :=
                   trace s
                   ++ [Makedirs dir true;
                       VarSet current_file_var filename;
                       VarSet progress_text
                         (files_processed_text (processed_files s) total_files);
                       VarSet status_var ("Compressing: " ++ filename)%string;
                       BarSet file_progress 0%Q]
                   ++ evs
                   ++ [BarSet overall_progress
                         ((inject_Z (Z.of_nat processed) / inject_Z (Z.of_nat total_files))
                          * inject_Z 100)%Q]
                   ++ estimate_events (bw_start w) (tw_clock tw) processed total_files |}
      end
  end.

(** The [for] loop from round [i] on, over the files not yet visited. *)
Fixpoint rounds (st : settings) (w : batch_world) (total_files i : nat)
    (files : list string) (s : loop_state) : exn * loop_state + loop_state :=
  match files with
  | [] => inr s
  | input_file :: rest =>
      if cancel_requested s then inr s
      else
        match round st w total_files i input_file s with
        | inl err => inl err
        | inr s' => rounds st w total_files (S i) rest s'
        end
  end.

(** How the batch ends. *)
Inductive batch_state : Type := Completed | Cancelled | Failed.

Record batch_result : Type := {
  final_state : batch_state;
  processed : nat;
  failed : nat;
  events : list event
}.

Definition initial_state (w : batch_world) : loop_state :=
  {| processed_files := 0; failed_files := 0;
     cancel_requested := bw_cancel0 w; trace := [] |}.

(** [process_video_files] run to its end on the worker thread. *)
Definition process_video_files (st : settings) (w : batch_world)
    (video_files : list string) : batch_result :=
  let total_files := List.length video_files in
  match rounds st w total_files 0 video_files (initial_state w) with
  | inr s =>
      if cancel_requested s then
        {| final_state := Cancelled;
           processed := processed_files s; failed := failed_files s;
           events := trace s
                     ++ [VarSet status_var "Compression cancelled."; Queued (UUiState false)] |}
      else
        {| final_state := Completed;
           processed := processed_files s; failed := failed_files s;
           events := trace s
                     ++ [VarSet progress_text
                           (files_processed_text (processed_files s) total_files);
                         VarSet status_var
                           (if 0 <? failed_files s
                            then ("Compression completed with "
                                    ++ PyStr.str_of_nat (failed_files s) ++ " failures.")%string
                            else "Compression completed successfully!");
                         VarSet time_remaining "00:00:00";
                         Queued (UUiState false)] |}
  | inl (e, s) =>
      {| final_state := Failed;
         processed := processed_files s; failed := failed_files s;
         events := trace s
                   ++ [Queued (ULabel status_var ("Error: " ++ str_exn e)%string);
                       Queued (UMessage "Error"
                                 ("An error occurred during compression: " ++ str_exn e)%string);
                       Queued (UUiState false)] |}
  end.

(** ** [start_compression] *)

Record application : Type := {
  is_processing : bool;
  video_files : list string
}.

(** [start_compression]: the application afterwards, the error dialog shown
    if any, and the batch run by the worker thread if one was started. *)
Definition start_compression (a : application) (st : settings) (vw : validation_world)
    (w : batch_world) : application * option validation_error * option batch_result :=
  if is_processing a then (a, None, None)
  else
    match validate_inputs st vw (video_files a) with
    | (Some err, files) =>
        ({| is_processing := false; video_files := files |}, Some err, None)
    | (None, files) =>
        ({| is_processing := false; video_files := files |}, None,
         Some (process_video_files st w files))
    end.

(** ** Reading a trace *)

(** Whether [compress_video] returns [True] in a world [tw]. *)
Definition task_succeeds (st : settings) (tw : task_world) : bool :=
  match tw_probe tw, crf_setting st, tw_encoder tw with
  | ProbeOutput _, Some _, Exited _ returncode _ => (returncode =? 0)%Z
  | _, _, _ => false
  end.

(** How many of the rounds [i], ..., [i + n - 1] have a task with result [b]. *)
Definition count_results (st : settings) (w : batch_world) (b : bool) (i n : nat) : nat :=
  List.length (filter (fun j => Bool.eqb (task_succeeds st (bw_task w j)) b) (seq i n)).

Definition tkvar_eqb (a b : tkvar) : bool :=
  match a, b with
  | current_file_var, current_file_var | progress_text, progress_text
  | time_remaining, time_remaining | status_var, status_var => true
  | _, _ => false
  end.

(** The text last written to a variable by [v.set], if any. *)
Fixpoint last_set (v : tkvar) (tr : list event) : option string :=
  match tr with
  | [] => None
  | e :: rest =>
      match last_set v rest with
      | Some t => Some t
      | None =>
          match e with
          | VarSet v' t => if tkvar_eqb v v' then Some t else None
          | _ => None
          end
      end
  end.

(** The rounds a trace shows as run to their end: each one closes with the
    update of the overall progress bar. *)
Definition completed_rounds (tr : list event) : nat :=
  List.length (flat_map (fun e => match e with
                                  | BarSet overall_progress value => [value]
                                  | _ => []
                                  end) tr).

(** The encoder commands a trace shows as launched. *)
Definition launched (tr : list event) : list (list string) :=
  flat_map (fun e => match e with Popen cmd => [cmd] | _ => [] end) tr.

(** The text a round [i] ending with [p] processed files writes to
    [time_remaining]. *)
Definition shown_estimate (w : batch_world) (total i p : nat) : string :=
  str_timedelta
    (py_trunc (est_time_remaining (tw_clock (bw_task w i) - bw_start w)%Q p total)).

(** The estimate as the specification words it:
    (elapsed / tasks completed so far) * tasks not yet attempted. *)
Definition spec_estimate (elapsed : Q) (completed not_yet_attempted : nat) : Q :=
  (elapsed / inject_Z (Z.of_nat completed) * inject_Z (Z.of_nat not_yet_attempted))%Q.

(** Every probe call and every encoder launch of a trace comes after the
    successful [os.makedirs] of the directory of its destination; [made]
    lists the directories made before the trace begins. *)
Fixpoint dirs_before_tasks (st : settings) (cwd : string) (made : list string)
    (tr : list event) : Prop :=
  match tr with
  | [] => True
  | Makedirs path true :: rest => dirs_before_tasks st cwd (path :: made) rest
  | CheckOutput cmd :: rest =>
      (exists out, destination st cwd (last cmd EmptyString) = inr out
                   /\ In (PosixPath.dirname out) made)
      /\ dirs_before_tasks st cwd made rest
  | Popen cmd :: rest =>
      In (PosixPath.dirname (last cmd EmptyString)) made
      /\ dirs_before_tasks st cwd made rest
  | _ :: rest => dirs_before_tasks st cwd made rest
  end.

(** The tasks a trace shows as started: the input of every probe call. *)
Definition started_tasks (tr : list event) : list string :=
  flat_map (fun e => match e with
                     | CheckOutput cmd => [last cmd EmptyString]
                     | _ => []
                     end) tr.

(** ** The form *)

(** The [state] option of a Tk widget. *)
Inductive widget_state : Type := NORMAL | DISABLED.

Definition set_custom_crf (v : string) (st : settings) : settings :=
  {| input_dir := input_dir st; output_dir := output_dir st;
     output_format := output_format st; quality_preset := quality_preset st;
     custom_crf := v; resolution := resolution st |}.

Definition set_quality_preset (v : string) (st : settings) : settings :=
  {| input_dir := input_dir st; output_dir := output_dir st;
     output_format := output_format st; quality_preset := v;
     custom_crf := custom_crf st; resolution := resolution st |}.

(** [update_quality_controls]: the state given to the CRF entry and the
    settings afterwards. *)
Definition update_quality_controls (st : settings) : widget_state * settings :=
  if String.eqb (quality_preset st) "Custom" then (NORMAL, st)
  else (DISABLED,
        match lookup (quality_preset st) QUALITY_LEVELS with
        | Some v => set_custom_crf v st
        | None => st
        end).

(** The user picks [preset] in the quality box: the variable is set and the
    [<<ComboboxSelected>>] binding runs [update_quality_controls]. *)
Definition select_quality (preset : string) (st : settings) : widget_state * settings :=
  update_quality_controls (set_quality_preset preset st).

(** No slash in [s]: a single path component. *)
Definition no_sep (s : string) : bool :=
  PyStr.all_chars (fun c => negb (Ascii.eqb c PosixPath.sep)) s.

Definition set_input_dir (v : string) (st : settings) : settings :=
  {| input_dir := v; output_dir := output_dir st;
     output_format := output_format st; quality_preset := quality_preset st;
     custom_crf := custom_crf st; resolution := resolution st |}.

Definition set_output_dir (v : string) (st : settings) : settings :=
  {| input_dir := input_dir st; output_dir := v;
     output_format := output_format st; quality_preset := quality_preset st;
     custom_crf := custom_crf st; resolution := resolution st |}.

(** [browse_input_dir], [directory] being what the dialog returned (the
    empty string when it was dismissed). *)
Definition browse_input_dir (directory : string) (st : settings) : settings :=
  if String.eqb directory "" then st
  else
    let st1 := set_input_dir directory st in
    if String.eqb (output_dir st1) "" then
      set_output_dir
        (PosixPath.join (PosixPath.dirname directory)
           (PosixPath.basename directory ++ "_compressed")%string) st1
    else st1.

(** [browse_output_dir] *)
Definition browse_output_dir (directory : string) (st : settings) : settings :=
  if String.eqb directory "" then st else set_output_dir directory st.

(** ** [center_window] *)

(** [(screen // 2) - (size // 2)] *)
Definition center_offset (screen size : Z) : Z := (screen / 2 - size / 2)%Z.

(** The geometry string [center_window] builds from the window's size and
    the screen's size. *)
Definition center_window (width height screenwidth screenheight : Z) : string :=
  let x := center_offset screenwidth width in
  let y := center_offset screenheight height in
  (PyStr.str_of_Z width ++ "x" ++ PyStr.str_of_Z height
     ++ "+" ++ PyStr.str_of_Z x ++ "+" ++ PyStr.str_of_Z y)%string.

(** ** The window and its update queue *)

(** What the window shows: the four labels, the two bars, the two buttons,
    and the error dialogs shown so far (oldest first). *)
Record window : Type := {
  win_current_file : string;
  win_progress_text : string;
  win_time_remaining : string;
  win_status : string;
  win_file_progress : Q;
  win_overall_progress : Q;
  win_start_button : widget_state;
  win_cancel_button : widget_state;
  win_dialogs : list (string * string)
}.

(** [var.set(text)] *)
Definition set_var (v : tkvar) (text : string) (u : window) : window :=
  {| win_current_file := match v with current_file_var => text | _ => win_current_file u end;
     win_progress_text := match v with progress_text => text | _ => win_progress_text u end;
     win_time_remaining := match v with time_remaining => text | _ => win_time_remaining u end;
     win_status := match v with status_var => text | _ => win_status u end;
     win_file_progress := win_file_progress u;
     win_overall_progress := win_overall_progress u;
     win_start_button := win_start_button u;
     win_cancel_button := win_cancel_button u;
     win_dialogs := win_dialogs u |}.

(** [progress_bar['value'] = value] *)
Definition set_bar (b : bar) (value : Q) (u : window) : window :=
  {| win_current_file := win_current_file u;
     win_progress_text := win_progress_text u;
     win_time_remaining := win_time_remaining u;
     win_status := win_status u;
     win_file_progress := match b with file_progress => value | _ => win_file_progress u end;
     win_overall_progress :=
       match b with overall_progress => value | _ => win_overall_progress u end;
     win_start_button := win_start_button u;
     win_cancel_button := win_cancel_button u;
     win_dialogs := win_dialogs u |}.

(** [messagebox.showerror(title, message)] *)
Definition showerror (title message : string) (u : window) : window :=
  {| win_current_file := win_current_file u;
     win_progress_text := win_progress_text u;
     win_time_remaining := win_time_remaining u;
     win_status := win_status u;
     win_file_progress := win_file_progress u;
     win_overall_progress := win_overall_progress u;
     win_start_button := win_start_button u;
     win_cancel_button := win_cancel_button u;
     win_dialogs := win_dialogs u ++ [(title, message)] |}.

(** [update_ui_state(processing)] *)
Definition update_ui_state (processing : bool) (u : window) : window :=
  let start := if processing then DISABLED else NORMAL in
  let cancel := if processing then NORMAL else DISABLED in
  if negb processing then
    {| win_current_file := "No file processing";
       win_progress_text := "0/0 files processed";
       win_time_remaining := "--:--:--";
       win_status := "Ready";
       win_file_progress := 0%Q;
       win_overall_progress := 0%Q;
       win_start_button := start;
       win_cancel_button := cancel;
       win_dialogs := win_dialogs u |}
  else
    {| win_current_file := win_current_file u;
       win_progress_text := win_progress_text u;
       win_time_remaining := win_time_remaining u;
       win_status := win_status u;
       win_file_progress := win_file_progress u;
       win_overall_progress := win_overall_progress u;
       win_start_button := start;
       win_cancel_button := cancel;
       win_dialogs := win_dialogs u |}.

(** One item taken from the queue by [check_update_queue]. *)
Definition apply_update (x : update) (u : window) : window :=
  match x with
  | UUiState processing => update_ui_state processing u
  | ULabel var text => set_var var text u
  | UProgress progress_bar value => set_bar progress_bar value u
  | UMessage title message => showerror title message u
  end.

(** [check_update_queue]: every pending item, oldest first, until the queue
    is empty. *)
Definition check_update_queue (queue : list update) (u : window) : window :=
  fold_left (fun u x => apply_update x u) queue u.

(** The window while the worker runs.  The worker's direct writes take
    effect at once, its queued items when the timer of [check_update_queue]
    fires; [polls] says before which events of the trace it fires. *)
Fixpoint play (tr : list event) (polls : list bool) (u : window) (queue : list update)
  : window * list update :=
  match tr with
  | [] => (u, queue)
  | e :: rest =>
      let u1 := if hd false polls then check_update_queue queue u else u in
      let queue1 := if hd false polls then [] else queue in
      match e with
      | VarSet v text => play rest (tl polls) (set_var v text u1) queue1
      | BarSet b value => play rest (tl polls) (set_bar b value u1) queue1
      | Queued x => play rest (tl polls) u1 (queue1 ++ [x])
      | _ => play rest (tl polls) u1 queue1
      end
  end.

(** The window once the worker has ended and the timer has fired again. *)
Definition window_after (tr : list event) (polls : list bool) (u : window) : window :=
  let '(u', queue) := play tr polls u [] in check_update_queue queue u'.

(** The dialogs among queued items. *)
Definition messages_of (queue : list update) : list (string * string) :=
  flat_map (fun x => match x with
                     | UMessage title message => [(title, message)]
                     | _ => []
                     end) queue.

(** ** Start-up *)

(** Whether [check_output] runs [ffmpeg -version] and [ffprobe -version]
    without raising; a call that raises is taken to raise one of the two
    classes the handler of [check_ffmpeg] catches ([SubprocessError],
    [FileNotFoundError]). *)
Record tools : Type := { ffmpeg_found : bool; ffprobe_found : bool }.

(** How [check_ffmpeg] ends: it returns, or the attribute [start_button] it
    asks for does not exist yet. *)
Inductive check_result : Type :=
| CheckReturns (value : bool) (start_button : option widget_state)
| CheckAttributeError.

(** The commands the [try] block of [check_ffmpeg] runs: the second only if
    the first did not raise. *)
Definition version_checks (t : tools) : list (list string) :=
  ["ffmpeg"; "-version"]
    :: (if ffmpeg_found t then [["ffprobe"; "-version"]] else []).

Definition ffmpeg_not_found_dialog : string * string :=
  ("FFmpeg Not Found",
   "FFmpeg and/or ffprobe could not be found. Please install FFmpeg and ensure it's in your system PATH.").

(** [check_ffmpeg]: the dialogs shown and the way it ends, [start_button]
    being the attribute [self.start_button] ([None] while unassigned). *)
Definition check_ffmpeg (t : tools) (start_button : option widget_state)
  : list (string * string) * check_result :=
  if ffmpeg_found t && ffprobe_found t then ([], CheckReturns true start_button)
  else ([ffmpeg_not_found_dialog],
        match start_button with
        | Some _ => CheckReturns false (Some DISABLED)
        | None => CheckAttributeError
        end).

(** The variables as [__init__] creates them. *)
Definition initial_settings : settings :=
  {| input_dir := ""; output_dir := "";
     output_format := hd EmptyString OUTPUT_FORMATS;
     quality_preset := nth 1 (map fst QUALITY_LEVELS) EmptyString;
     custom_crf := "23";
     resolution := hd EmptyString RESOLUTIONS |}.

(** The window as [__init__] and [create_widgets] make it. *)
Definition initial_window (dialogs : list (string * string)) : window :=
  {| win_current_file := "No file processing";
     win_progress_text := "0/0 files processed";
     win_time_remaining := "--:--:--";
     win_status := "Ready";
     win_file_progress := 0%Q;
     win_overall_progress := 0%Q;
     win_start_button := NORMAL;
     win_cancel_button := DISABLED;
     win_dialogs := dialogs |}.

Inductive startup : Type :=
| StartupFails (dialogs : list (string * string))
| StartupDone (st : settings) (u : window) (crf_entry : widget_state).

(** [__init__]: the variables, then [check_ffmpeg] (no widget exists yet),
    then [create_widgets] and [update_quality_controls]. *)
Definition init (t : tools) : startup :=
  match check_ffmpeg t None with
  | (dialogs, CheckAttributeError) => StartupFails dialogs
  | (dialogs, CheckReturns _ _) =>
      let '(crf_entry, st) := update_quality_controls initial_settings in
      StartupDone st (initial_window dialogs) crf_entry
  end.

(** ** More ways to read a trace *)

(** The texts queued for the status line. *)
Definition error_labels (tr : list event) : list string :=
  flat_map (fun e => match e with
                     | Queued (ULabel status_var text) => [text]
                     | _ => []
                     end) tr.

(** The values written to the overall progress bar. *)
Definition overall_values (tr : list event) : list Q :=
  flat_map (fun e => match e with
                     | BarSet overall_progress value => [value]
                     | _ => []
                     end) tr.

(** The [ui_state] items put on the queue. *)
Definition ui_state_updates (tr : list event) : list bool :=
  flat_map (fun e => match e with
                     | Queued (UUiState processing) => [processing]
                     | _ => []
                     end) tr.

(** The error dialogs put on the queue. *)
Definition queued_messages (tr : list event) : list (string * string) :=
  flat_map (fun e => match e with
                     | Queued (UMessage title message) => [(title, message)]
                     | _ => []
                     end) tr.

(** The events a round of the loop can cause: everything but the two items
    queued when the batch ends. *)
Definition round_event (e : event) : bool :=
  match e with
  | Queued (UUiState _) | Queued (UMessage _ _) => false
  | _ => true
  end.

(** The texts written to the time-remaining label. *)
Definition time_texts (tr : list event) : list string :=
  flat_map (fun e => match e with
                     | VarSet time_remaining text => [text]
                     | _ => []
                     end) tr.

(** A value a progress bar of length 100 can show. *)
Definition bar_in_range (v : Q) : Prop := (0 <= v /\ v <= inject_Z 100)%Q.

(** A text [str(timedelta(seconds=n))] with [n] not negative. *)
Definition estimate_text (t : string) : Prop :=
  exists n : Z, (0 <= n)%Z /\ t = str_timedelta n.

(** ** Example worlds *)

Definition example_settings : settings :=
  {| input_dir := "/in"; output_dir := "/out"; output_format := "mp4";
     quality_preset := "Medium"; custom_crf := "23";
     resolution := "720p (1280x720)" |}.

(** An encoder run of a ten-second file that exits with [returncode]. *)
Definition example_task (returncode : Z) (clock : Q) (cancel : bool) : task_world :=
  {| tw_makedirs := None;
     tw_probe := ProbeOutput (with_newline "10.000000");
     tw_encoder := Exited [with_newline "out_time_ms=5000000";
                           with_newline "progress=end"] returncode "";
     tw_clock := clock;
     tw_cancel := cancel |}.

(** Three tasks, the second of which exits with code 1. *)
Definition example_world_failure : batch_world :=
  {| bw_cwd := "/home/user"; bw_start := 100%Q; bw_cancel0 := false;
     bw_task := fun i => match i with
                         | 0 => example_task 0 110%Q false
                         | 1 => example_task 1 120%Q false
                         | _ => example_task 0 130%Q false
                         end |}.

Definition example_files : list string := ["/in/a.mov"; "/in/b.mov"; "/in/s/c.mkv"].

(** Three tasks, Cancel being pressed while the second one is encoded. *)
Definition example_world_cancel : batch_world :=
  {| bw_cwd := "/home/user"; bw_start := 100%Q; bw_cancel0 := false;
     bw_task := fun i => match i with
                         | 1 => example_task 0 120%Q true
                         | _ => example_task 0 110%Q false
                         end |}.

(** A task whose probe call raises (ffprobe exits with status 1) while the
    encoder would run and exit with 0. *)
Definition example_task_probe_raises : task_world :=
  {| tw_makedirs := None;
     tw_probe := ProbeRaises (Raise SubprocessError
                                "Command ffprobe returned non-zero exit status 1.");
     tw_encoder := Exited [with_newline "out_time_ms=5000000"] 0 "";
     tw_clock := 110%Q;
     tw_cancel := false |}.

(** A batch whose output directory cannot be made for the third file. *)
Definition example_world_makedirs : batch_world :=
  {| bw_cwd := "/home/user"; bw_start := 100%Q; bw_cancel0 := false;
     bw_task := fun i => match i with
                         | 2 => {| tw_makedirs := Some "Permission denied";
                                   tw_probe := ProbeOutput (with_newline "10.000000");
                                   tw_encoder := Exited [] 0 "";
                                   tw_clock := 130%Q; tw_cancel := false |}
                         | _ => example_task 0 110%Q false
                         end |}.

(** An input directory with one video in it, the output directory existing. *)
Definition example_validation_world : validation_world :=
  {| vw_input := IsDir [File "a.mov"; File "notes.txt"];
     vw_output_exists := true;
     vw_makedirs := None |}.

(** Settings whose quality preset is not in the table. *)
Definition example_settings_unknown_preset : settings :=
  {| input_dir := "/in"; output_dir := "/out"; output_format := "mp4";
     quality_preset := "Ultra"; custom_crf := "23";
     resolution := "Original" |}.

(** * Properties *)

(** ** Strings and numeric literals *)

Section StringFacts.
Import PyStr.

Lemma is_digit_excludes (c : ascii) :
  is_digit c = true ->
  is_space c = false /\ is_point c = false /\ is_exp_mark c = false
  /\ Ascii.eqb c "=" = false /\ Ascii.eqb c "-" = false
  /\ Ascii.eqb c "+" = false /\ Ascii.eqb c "_" = false.
Proof.
  destruct c as [[|] [|] [|] [|] [|] [|] [|] [|]]; vm_compute;
    intros H; try discriminate H; repeat split.
Qed.

Lemma all_chars_impl (p q : ascii -> bool) (s : string) :
  (forall c, p c = true -> q c = true) ->
  all_chars p s = true -> all_chars q s = true.
Proof.
  intros Hpq. induction s as [|c r IH]; simpl; auto.
  intros H. apply andb_true_iff in H as [Hc Hr].
  rewrite (Hpq _ Hc), (IH Hr). reflexivity.
Qed.

Lemma lstrip_id (c : ascii) (r : string) :
  is_space c = false -> lstrip (String c r) = String c r.
Proof. intros H. simpl. now rewrite H. Qed.

Lemma rstrip_id (s : string) :
  all_chars (fun c => negb (is_space c)) s = true -> rstrip s = s.
Proof.
  induction s as [|c r IH]; simpl; auto.
  intros H. apply andb_true_iff in H as [Hc Hr].
  rewrite (IH Hr). apply negb_true_iff in Hc. rewrite Hc.
  now destruct r.
Qed.

Lemma strip_id (s : string) :
  all_chars (fun c => negb (is_space c)) s = true -> strip s = s.
Proof.
  intros H. unfold strip.
  destruct s as [|c r]; [reflexivity|].
  rewrite lstrip_id.
  - now apply rstrip_id.
  - simpl in H. apply andb_true_iff in H as [Hc _]. now apply negb_true_iff.
Qed.

Lemma cut_none (p : ascii -> bool) (s : string) :
  all_chars (fun c => negb (p c)) s = true -> cut p s = (s, None).
Proof.
  induction s as [|c r IH]; simpl; auto.
  intros H. apply andb_true_iff in H as [Hc Hr].
  apply negb_true_iff in Hc. now rewrite Hc, (IH Hr).
Qed.

Lemma split_none (sep : ascii) (s : string) :
  all_chars (fun c => negb (Ascii.eqb c sep)) s = true -> split sep s = [s].
Proof.
  induction s as [|c r IH]; simpl; auto.
  intros H. apply andb_true_iff in H as [Hc Hr].
  apply negb_true_iff in Hc. now rewrite Hc, (IH Hr).
Qed.

Lemma digits_cons (c : ascii) (r : string) (f : uint -> uint) :
  digit_of_ascii c = Some f ->
  match r with String u _ => Ascii.eqb u "_" = false | EmptyString => True end ->
  digits (String c r) = option_map f (digits r).
Proof.
  intros Hc Hr. simpl. rewrite Hc.
  destruct r as [|u [|c' r']]; auto. now rewrite Hr.
Qed.

Lemma uint_string_digits (d : uint) :
  all_chars is_digit (NilEmpty.string_of_uint d) = true.
Proof. induction d; simpl; auto. Qed.

Lemma uint_string_head (d : uint) :
  match NilEmpty.string_of_uint d with
  | String u _ => Ascii.eqb u "_" = false
  | EmptyString => True
  end.
Proof. destruct d; simpl; auto. Qed.

(** Reading back the digits a number was printed with. *)
Lemma digits_of_uint (d : uint) :
  digits (NilEmpty.string_of_uint d) = Some d.
Proof.
  induction d; [reflexivity| ..]; simpl NilEmpty.string_of_uint;
    (erewrite digits_cons; [ | reflexivity | apply uint_string_head ];
     rewrite IHd; reflexivity).
Qed.

Lemma uint_string_nonempty (d : uint) :
  d <> Nil -> NilEmpty.string_of_uint d <> EmptyString.
Proof. destruct d; simpl; congruence. Qed.

(** [str(z)] is an optional minus sign and the digits of [|z|]. *)
Lemma str_of_Z_shape (z : Z) :
  exists d, d <> Nil /\ Z.of_uint d = Z.abs z
            /\ str_of_Z z = if (z <? 0)%Z
                            then String "-" (NilEmpty.string_of_uint d)
                            else NilEmpty.string_of_uint d.
Proof.
  destruct z as [|p|p].
  - exists (D0 Nil). repeat split; congruence.
  - exists (Pos.to_uint p). split; [apply DecimalPos.Unsigned.to_uint_nonnil|].
    split.
    + unfold Z.of_uint. now rewrite DecimalPos.Unsigned.of_to.
    + unfold str_of_Z. simpl. unfold NilZero.string_of_uint.
      destruct (Pos.to_uint p) eqn:E; auto.
      now apply DecimalPos.Unsigned.to_uint_nonnil in E.
  - exists (Pos.to_uint p). split; [apply DecimalPos.Unsigned.to_uint_nonnil|].
    split.
    + unfold Z.of_uint. now rewrite DecimalPos.Unsigned.of_to.
    + unfold str_of_Z. simpl. unfold NilZero.string_of_uint.
      destruct (Pos.to_uint p) eqn:E; auto.
      now apply DecimalPos.Unsigned.to_uint_nonnil in E.
Qed.

Lemma digit_string_facts (d : uint) :
  d <> Nil ->
  let ds := NilEmpty.string_of_uint d in
  strip ds = ds /\ strip (String "-" ds) = String "-" ds
  /\ signed ds = (false, ds)
  /\ cut is_exp_mark ds = (ds, None)
  /\ mantissa ds = Some (inject_Z (Z.of_uint d))
  /\ digits1 ds = Some d
  /\ split "=" ds = [ds] /\ split "=" (String "-" ds) = [String "-" ds].
Proof.
  intros Hd ds.
  pose proof (uint_string_digits d) as Hall. fold ds in Hall.
  pose proof (digits_of_uint d) as Hdg. fold ds in Hdg.
  pose proof (uint_string_nonempty d Hd) as Hne. fold ds in Hne.
  assert (Hsp : all_chars (fun c => negb (is_space c)) ds = true).
  { eapply all_chars_impl; [|exact Hall]. intros c Hc.
    destruct (is_digit_excludes c Hc) as (-> & _). reflexivity. }
  assert (Heq : all_chars (fun c => negb (Ascii.eqb c "=")) ds = true).
  { eapply all_chars_impl; [|exact Hall]. intros c Hc.
    destruct (is_digit_excludes c Hc) as (_ & _ & _ & -> & _). reflexivity. }
  split; [now apply strip_id|].
  split; [apply strip_id; simpl; now rewrite Hsp|].
  split.
  { destruct ds as [|c r]; [congruence|]. simpl in Hall.
    apply andb_true_iff in Hall as [Hc _].
    destruct (is_digit_excludes c Hc) as (_ & _ & _ & _ & Hm & Hp & _).
    simpl. now rewrite Hm, Hp. }
  split.
  { apply cut_none. eapply all_chars_impl; [|exact Hall]. intros c Hc.
    destruct (is_digit_excludes c Hc) as (_ & _ & -> & _). reflexivity. }
  split.
  { unfold mantissa. rewrite cut_none.
    - rewrite Hdg. destruct ds; [congruence|reflexivity].
    - eapply all_chars_impl; [|exact Hall]. intros c Hc.
      destruct (is_digit_excludes c Hc) as (_ & -> & _). reflexivity. }
  split.
  { unfold digits1. destruct ds; [congruence|exact Hdg]. }
  split; [now apply split_none|].
  apply split_none. simpl. exact Heq.
Qed.

(** [float] reads an integer literal as that integer. *)
Lemma py_float_str_of_Z (z : Z) : py_float (str_of_Z z) = Some (inject_Z z).
Proof.
  destruct (str_of_Z_shape z) as (d & Hd & Hv & Hs).
  destruct (digit_string_facts d Hd) as (H1 & H2 & H3 & H4 & H5 & _).
  unfold py_float. rewrite Hs.
  destruct (z <? 0)%Z eqn:Hz.
  - rewrite H2. cbn [signed]. rewrite Ascii.eqb_refl.
    rewrite H4, H5, Hv.
    apply Z.ltb_lt in Hz. rewrite Z.abs_neq by lia.
    unfold Qopp, inject_Z. cbn [Qnum Qden]. now rewrite Z.opp_involutive.
  - rewrite H1, H3, H4, H5, Hv.
    apply Z.ltb_ge in Hz. now rewrite Z.abs_eq by lia.
Qed.

(** [int] reads an integer literal as that integer. *)
Lemma py_int_str_of_Z (z : Z) : py_int (str_of_Z z) = Some z.
Proof.
  destruct (str_of_Z_shape z) as (d & Hd & Hv & Hs).
  destruct (digit_string_facts d Hd) as (H1 & H2 & H3 & _ & _ & H6 & _).
  unfold py_int. rewrite Hs.
  destruct (z <? 0)%Z eqn:Hz.
  - rewrite H2. cbn [signed]. rewrite Ascii.eqb_refl.
    rewrite H6, Hv. apply Z.ltb_lt in Hz. f_equal. lia.
  - rewrite H1, H3, H6, Hv. apply Z.ltb_ge in Hz. f_equal. lia.
Qed.

(** An integer literal contains no [=]. *)
Lemma split_eq_str_of_Z (z : Z) : split "=" (str_of_Z z) = [str_of_Z z].
Proof.
  destruct (str_of_Z_shape z) as (d & Hd & _ & Hs).
  destruct (digit_string_facts d Hd) as (_ & _ & _ & _ & _ & _ & H7 & H8).
  rewrite Hs. now destruct (z <? 0)%Z.
Qed.

End StringFacts.

(** ** The progress parser *)

Section Progress.
Import PyStr.

Lemma Qltb_true (a b : Q) : Qltb a b = true <-> (a < b)%Q.
Proof.
  unfold Qltb. rewrite negb_true_iff, <- not_true_iff_false, Qle_bool_iff.
  split; [apply Qnot_le_lt | apply Qlt_not_le].
Qed.

Lemma Qltb_false (a b : Q) : Qltb a b = false <-> (b <= a)%Q.
Proof.
  unfold Qltb. rewrite negb_false_iff, Qle_bool_iff. reflexivity.
Qed.

Lemma py_min_Qmin (a b : Q) : (py_min a b == Qmin a b)%Q.
Proof.
  unfold py_min. destruct (Qltb b a) eqn:E.
  - apply Qltb_true in E. symmetry. apply Q.min_r. now apply Qlt_le_weak.
  - apply Qltb_false in E. symmetry. now apply Q.min_l.
Qed.

Lemma py_min_le_l (a b : Q) : (py_min a b <= a)%Q.
Proof. rewrite py_min_Qmin. apply Q.le_min_l. Qed.

Lemma py_div_nonzero (a b : Q) : ~ (b == 0)%Q -> py_div a b = inr (a / b)%Q.
Proof.
  intros H. unfold py_div. destruct (Qeq_bool b 0) eqn:E; auto.
  apply Qeq_bool_iff in E. contradiction.
Qed.

Lemma startswith_app (p x : string) : startswith (p ++ x) p = true.
Proof.
  unfold startswith. induction p as [|c p IH]; simpl.
  - now destruct x.
  - destruct (ascii_dec c c); [exact IH|congruence].
Qed.

Lemma rstrip_snoc_space (s : string) (c : ascii) :
  is_space c = true -> rstrip (s ++ String c EmptyString) = rstrip s.
Proof.
  intros Hc. induction s as [|a r IH]; simpl.
  - now rewrite Hc.
  - now rewrite IH.
Qed.

(** A guarded round of the loop body: the shape of the result when the
    field after [=] reads as the number [micro]. *)
Lemma process_line_estimate (duration micro : Q) (field : string) :
  (0 < duration)%Q ->
  py_float field = Some micro ->
  split "=" field = [field] ->
  process_line duration ("out_time_ms=" ++ field)
  = Estimate (micro / inject_Z 1000000)%Q
      (py_min (inject_Z 100) (micro / inject_Z 1000000 / duration * inject_Z 100))%Q.
Proof.
  intros Hd Hf Hs. unfold process_line.
  rewrite startswith_app.
  replace (split "=" ("out_time_ms=" ++ field))
    with ("out_time_ms" :: split "=" field) by reflexivity.
  rewrite Hs. cbn [nth_error]. rewrite Hf.
  assert (Hlt : Qltb 0 duration = true) by now apply Qltb_true.
  rewrite Hlt, py_div_nonzero; [reflexivity|].
  intros E. rewrite E in Hd. now apply Qlt_irrefl in Hd.
Qed.

(** The division by [duration] is never a division by zero. *)
Lemma process_line_no_zero_division (duration : Q) (line msg : string) :
  process_line duration line <> Swallowed (Raise ZeroDivisionError msg).
Proof.
  unfold process_line.
  destruct (startswith line "out_time_ms="); [|discriminate].
  destruct (nth_error _ 1); [|discriminate].
  destruct (py_float _); [|discriminate].
  destruct (Qltb 0 duration) eqn:E; [|discriminate].
  apply Qltb_true in E. rewrite py_div_nonzero; [discriminate|].
  intros E0. rewrite E0 in E. now apply Qlt_irrefl in E.
Qed.

(** Without a positive duration a line never leads to an estimate. *)
Lemma process_line_unknown_duration (duration : Q) (line : string) :
  (duration <= 0)%Q ->
  match process_line duration line with
  | Estimate _ _ => False
  | Swallowed (Raise ZeroDivisionError _) => False
  | _ => True
  end.
Proof.
  intros Hd. unfold process_line.
  destruct (startswith line "out_time_ms="); [|exact I].
  destruct (nth_error _ 1); [|exact I].
  destruct (py_float _); [|exact I].
  apply Qltb_false in Hd. now rewrite Hd.
Qed.

Lemma drain_unknown_duration (duration : Q) (lines : list string) :
  (duration <= 0)%Q -> drain duration lines = [].
Proof.
  intros Hd. unfold drain. induction lines as [|l ls IH]; simpl; auto.
  rewrite IH. unfold line_events.
  pose proof (process_line_unknown_duration duration (strip l) Hd) as H.
  destruct (process_line duration (strip l)); auto. contradiction.
Qed.

End Progress.

(** C1. A telemetry line [out_time_ms=<n>] read while the probed duration
    is positive makes the loop emit exactly one per-file progress update,
    whose value is min(100, 100 * (n / 1000000) / duration); the value never
    exceeds 100.  (Floats are exact rationals here.) *)
Theorem progress_percentage (n : Z) (duration : Q) (Hpos : (0 < duration)%Q) :
  exists current_time progress : Q,
    process_line duration ("out_time_ms=" ++ PyStr.str_of_Z n)
    = Estimate current_time progress
    /\ line_events duration (with_newline ("out_time_ms=" ++ PyStr.str_of_Z n))
       = [Queued (UProgress file_progress progress)]
    /\ (current_time == inject_Z n / inject_Z 1000000)%Q
    /\ (progress
        == Qmin (inject_Z 100)
             (inject_Z 100 * (inject_Z n / inject_Z 1000000) / duration))%Q
    /\ (progress <= inject_Z 100)%Q.
Proof.
  pose proof (process_line_estimate duration (inject_Z n) (PyStr.str_of_Z n) Hpos
                (py_float_str_of_Z n) (split_eq_str_of_Z n)) as Hline.
  eexists _, _. split; [exact Hline|].
  split.
  { unfold line_events, with_newline.
    assert (Hstrip : PyStr.strip (("out_time_ms=" ++ PyStr.str_of_Z n)
                                    ++ String "010"%char EmptyString)
                     = ("out_time_ms=" ++ PyStr.str_of_Z n)%string).
    { unfold PyStr.strip.
      replace (PyStr.lstrip (("out_time_ms=" ++ PyStr.str_of_Z n)
                               ++ String "010"%char EmptyString))
        with (("out_time_ms=" ++ PyStr.str_of_Z n)
                ++ String "010"%char EmptyString)%string by reflexivity.
      rewrite rstrip_snoc_space by reflexivity.
      destruct (str_of_Z_shape n) as (d & Hd & _ & Hs).
      apply rstrip_id. rewrite Hs.
      assert (Hds : PyStr.all_chars (fun c => negb (PyStr.is_space c))
                      (NilEmpty.string_of_uint d) = true).
      { eapply all_chars_impl; [|apply uint_string_digits]. intros c Hc.
        destruct (is_digit_excludes c Hc) as (-> & _). reflexivity. }
      destruct (n <? 0)%Z; cbn; exact Hds. }
    rewrite Hstrip, Hline. reflexivity. }
  split; [reflexivity|].
  assert (Hne : ~ (duration == 0)%Q).
  { intros E. rewrite E in Hpos. now apply Qlt_irrefl in Hpos. }
  split.
  - rewrite py_min_Qmin. apply Q.min_compat; [reflexivity|]. now field.
  - apply py_min_le_l.
Qed.

(** The line [out_time_ms=5000000] with a duration of 10 seconds gives 50. *)
Lemma progress_percentage_witness :
  (0 < 10)%Q
  /\ exists current_time progress : Q,
       process_line 10 "out_time_ms=5000000" = Estimate current_time progress
       /\ (progress == 50)%Q.
Proof.
  split; [reflexivity|].
  destruct (progress_percentage 5000000 10 eq_refl)
    as (t & p & Hline & _ & _ & Hp & _).
  exists t, p. split; [exact Hline|].
  rewrite Hp. reflexivity.
Defined.

(** C10. With an unknown (zero) duration no line of telemetry leads to the
    division by the duration or to a per-file progress update, whatever
    the lines are; and for no duration at all does the loop divide by zero. *)
Theorem unknown_duration_guard (duration : Q) (Hzero : (duration == 0)%Q) :
  (forall line,
      match process_line duration line with
      | NotProgressLine | NoEstimate _ => True
      | Swallowed (Raise kind _) => kind = ValueError \/ kind = IndexError
      | Estimate _ _ => False
      end)
  /\ (forall lines, drain duration lines = [])
  /\ (forall (d : Q) line msg,
         process_line d line <> Swallowed (Raise ZeroDivisionError msg)).
Proof.
  assert (Hle : (duration <= 0)%Q) by (rewrite Hzero; apply Qle_refl).
  split; [|split].
  - intros line. unfold process_line.
    destruct (PyStr.startswith line "out_time_ms="); [|exact I].
    destruct (nth_error _ 1); [|now right].
    destruct (PyStr.py_float _); [|now left].
    apply Qltb_false in Hle. now rewrite Hle.
  - intros lines. now apply drain_unknown_duration.
  - intros d line msg. apply process_line_no_zero_division.
Qed.

Lemma unknown_duration_guard_witness :
  (parse_duration "N/A" == 0)%Q
  /\ drain (parse_duration "N/A")
       [with_newline "out_time_ms=5000000"; with_newline "progress=end"] = [].
Proof.
  split; [reflexivity|].
  apply (unknown_duration_guard (parse_duration "N/A")). reflexivity.
Defined.

(** ** Validation of the custom quality *)

Lemma validate_quality_custom (st : settings) :
  quality_preset st = "Custom" ->
  validate_quality st
  = match PyStr.py_int (custom_crf st) with
    | Some n => if ((0 <=? n)%Z && (n <=? 51)%Z)%bool then None else Some CrfOutOfRange
    | None => Some CrfNotNumber
    end.
Proof.
  intros H. unfold validate_quality. rewrite H. cbn [String.eqb].
  replace (String.eqb "Custom" "Custom") with true by reflexivity.
  destruct (PyStr.py_int (custom_crf st)) as [n|]; auto.
  now destruct ((0 <=? n)%Z && (n <=? 51)%Z)%bool.
Qed.

(** A verdict [True] of [validate_inputs] went through the quality block. *)
Lemma validate_inputs_accepts (st : settings) (vw : validation_world) (old : list string) :
  fst (validate_inputs st vw old) = None -> validate_quality st = None.
Proof.
  unfold validate_inputs.
  destruct (String.eqb (input_dir st) "" || negb (isdir (vw_input vw)))%bool;
    [discriminate|].
  destruct (String.eqb (output_dir st) ""); [discriminate|].
  destruct (if vw_output_exists vw then None else vw_makedirs vw); [discriminate|].
  destruct (find_video_files _ _); [discriminate|]. auto.
Qed.

(** [start_compression] starts the worker only after [validate_inputs]
    returned [True]. *)
Lemma start_compression_started (a : application) (st : settings) (vw : validation_world)
    (w : batch_world) :
  snd (start_compression a st vw w) <> None ->
  fst (validate_inputs st vw (video_files a)) = None.
Proof.
  unfold start_compression. destruct (is_processing a); [now cbn|].
  destruct (validate_inputs st vw (video_files a)) as [[e|] files]; cbn; congruence.
Qed.

(** C2. With the preset 'Custom', the quality block accepts exactly the
    strings that [int] reads as some n with 0 <= n <= 51: "0" and "51"
    pass, "-1", "52" and "abc" are rejected as an invalid quality; a
    rejected value makes [validate_inputs] return [False], and then
    [start_compression] starts no batch. *)
Theorem custom_quality_validation (st : settings)
    (Hcustom : quality_preset st = "Custom") :
  (validate_quality st = None
   <-> exists n, PyStr.py_int (custom_crf st) = Some n /\ (0 <= n <= 51)%Z)
  /\ (forall e, validate_quality st = Some e -> classify e = InvalidQuality)
  /\ (In (custom_crf st) ["0"; "51"] -> validate_quality st = None)
  /\ (In (custom_crf st) ["-1"; "52"; "abc"] -> validate_quality st <> None)
  /\ (forall vw old,
         input_dir st <> "" -> isdir (vw_input vw) = true ->
         output_dir st <> "" ->
         vw_output_exists vw = true \/ vw_makedirs vw = None ->
         find_video_files (input_dir st) (listing (vw_input vw)) <> [] ->
         fst (validate_inputs st vw old) = validate_quality st)
  /\ (forall vw old,
         validate_quality st <> None -> fst (validate_inputs st vw old) <> None)
  /\ (forall a vw w,
         validate_quality st <> None -> snd (start_compression a st vw w) = None).
Proof.
  pose proof (validate_quality_custom st Hcustom) as Hq.
  split; [|split; [|split; [|split; [|split; [|split]]]]].
  - rewrite Hq. destruct (PyStr.py_int (custom_crf st)) as [n|].
    + destruct ((0 <=? n)%Z && (n <=? 51)%Z)%bool eqn:E.
      * split; auto. intros _. exists n. split; auto.
        apply andb_true_iff in E as [E1 E2].
        apply Z.leb_le in E1. apply Z.leb_le in E2. lia.
      * split; [discriminate|]. intros (m & Hm & Hr). injection Hm as <-.
        apply andb_false_iff in E as [E|E]; apply Z.leb_gt in E; lia.
    + split; [discriminate|]. intros (m & Hm & _). discriminate.
  - intros e. rewrite Hq. destruct (PyStr.py_int (custom_crf st)) as [n|].
    + destruct ((0 <=? n)%Z && (n <=? 51)%Z)%bool; [discriminate|].
      now intros [= <-].
    + now intros [= <-].
  - rewrite Hq. intros [H|[H|[]]]; rewrite <- H; reflexivity.
  - rewrite Hq. intros [H|[H|[H|[]]]]; rewrite <- H; discriminate.
  - intros vw old Hin Hdir Hout Hmk Hfiles. unfold validate_inputs.
    apply String.eqb_neq in Hin. apply String.eqb_neq in Hout.
    rewrite Hin, Hdir, Hout. cbn [orb negb].
    replace (if vw_output_exists vw then None else vw_makedirs vw)
      with (@None string) by (destruct Hmk as [->| ->]; now destruct (vw_output_exists vw)).
    destruct (find_video_files _ _); [congruence|reflexivity].
  - intros vw old Hrej Hacc. apply Hrej. eapply validate_inputs_accepts; eauto.
  - intros a vw w Hrej.
    destruct (snd (start_compression a st vw w)) eqn:E; auto.
    exfalso. apply Hrej. eapply validate_inputs_accepts.
    apply (start_compression_started a st vw w). congruence.
Qed.

Lemma custom_quality_validation_witness :
  let st := {| input_dir := "/in"; output_dir := "/out"; output_format := "mp4";
               quality_preset := "Custom"; custom_crf := "52";
               resolution := "Original" |} in
  quality_preset st = "Custom"
  /\ validate_quality st = Some CrfOutOfRange
  /\ forall a vw w, snd (start_compression a st vw w) = None.
Proof.
  intros st. split; [reflexivity|]. split; [reflexivity|].
  intros a vw w.
  apply (custom_quality_validation st eq_refl). discriminate.
Defined.

(** ** The command builder *)

Lemma drain_only_queues (duration : Q) (lines : list string) (e : event) :
  In e (drain duration lines) -> exists u, e = Queued u.
Proof.
  unfold drain. rewrite in_flat_map. intros (l & _ & H).
  unfold line_events in H.
  destruct (process_line duration (PyStr.strip l)); try contradiction.
  destruct H as [<-|[]]. eauto.
Qed.

(** The command passed to [Popen] is the built one with the two progress
    arguments inserted after the program name. *)
Lemma compress_video_popen (st : settings) (tw : task_world)
    (input_file output_file : string) (cmd : list string) :
  In (Popen cmd) (fst (compress_video st tw input_file output_file)) ->
  exists built,
    get_ffmpeg_command st input_file output_file = inr built
    /\ cmd = list_insert 2 "pipe:1" (list_insert 1 "-progress" built).
Proof.
  unfold compress_video, compress_failed.
  destruct (tw_probe tw) as [e|out].
  { cbn. intros [H|[H|[H|[]]]]; discriminate. }
  destruct (get_ffmpeg_command st input_file output_file) as [e|built].
  { cbn. intros [H|[H|[H|[]]]]; discriminate. }
  intros H. exists built. split; [reflexivity|].
  destruct (tw_encoder tw) as [e|lines rc err].
  { cbn in H. destruct H as [H|[H|[H|[H|[]]]]]; try discriminate. now injection H. }
  destruct (negb (rc =? 0)%Z); cbn [fst] in H;
    (destruct H as [H|[H|H]]; [discriminate| now injection H |]);
    apply in_app_or in H as [H|H];
    try (apply drain_only_queues in H as (u & Hu); discriminate);
    cbn in H; intuition discriminate.
Qed.

(** C9. For settings taken from the lists the form offers, the command
    builder returns, and the encoder is launched with, a vector of the shape
    ffmpeg -progress pipe:1 -i <input> -y [-vf scale=<W>x<H>] <codec args>
    -c:a aac -b:a 128k <output>; the vector depends on the settings, the
    source and the destination only, and the scale argument is there exactly
    when the resolution is not 'Original'. *)
Theorem command_builder_shape (st : settings) (input_file output_file : string)
    (Hres : In (resolution st) RESOLUTIONS)
    (Hfmt : In (output_format st) OUTPUT_FORMATS)
    (Hpre : In (quality_preset st) (map fst QUALITY_LEVELS)) :
  exists (scale codec : list string) (crf : string),
    get_ffmpeg_command st input_file output_file
    = inr (["ffmpeg"; "-i"; input_file; "-y"] ++ scale ++ codec
             ++ ["-c:a"; "aac"; "-b:a"; "128k"; output_file])
    /\ (forall tw cmd,
           In (Popen cmd) (fst (compress_video st tw input_file output_file)) ->
           cmd = ["ffmpeg"; "-progress"; "pipe:1"; "-i"; input_file; "-y"]
                   ++ scale ++ codec
                   ++ ["-c:a"; "aac"; "-b:a"; "128k"; output_file])
    /\ (scale = [] <-> resolution st = "Original")
    /\ (resolution st <> "Original" ->
        exists wh, In wh ["3840x2160"; "1920x1080"; "1280x720"; "854x480"]
                   /\ scale = ["-vf"; ("scale=" ++ wh)%string])
    /\ (codec = ["-c:v"; "libx264"; "-crf"; crf; "-preset"; "medium"]
        \/ codec = ["-c:v"; "libvpx-vp9"; "-crf"; crf; "-b:v"; "0"])
    /\ (crf = if String.eqb (quality_preset st) "Custom" then custom_crf st
              else match lookup (quality_preset st) QUALITY_LEVELS with
                   | Some v => v
                   | None => EmptyString
                   end)
    /\ In crf [custom_crf st; "18"; "23"; "28"].
Proof.
  set (crf := if String.eqb (quality_preset st) "Custom" then custom_crf st
              else match lookup (quality_preset st) QUALITY_LEVELS with
                   | Some v => v
                   | None => EmptyString
                   end).
  exists (scale_args (resolution st)), (codec_args (output_format st) crf), crf.
  assert (Hcmd : get_ffmpeg_command st input_file output_file
                 = inr (["ffmpeg"; "-i"; input_file; "-y"]
                          ++ scale_args (resolution st)
                          ++ codec_args (output_format st) crf
                          ++ ["-c:a"; "aac"; "-b:a"; "128k"; output_file])).
  { unfold get_ffmpeg_command, crf_setting, crf.
    cbn in Hpre. destruct Hpre as [H|[H|[H|[H|[]]]]]; rewrite <- H; reflexivity. }
  split; [exact Hcmd|].
  split.
  { intros tw cmd Hin. apply compress_video_popen in Hin as (built & Hb & ->).
    rewrite Hcmd in Hb. injection Hb as <-. reflexivity. }
  split.
  { cbn in Hres. destruct Hres as [H|[H|[H|[H|[H|[]]]]]]; rewrite <- H;
      (split; [discriminate || reflexivity | discriminate || reflexivity]). }
  split.
  { intros Hno. cbn in Hres.
    destruct Hres as [H|[H|[H|[H|[H|[]]]]]]; [congruence| | | |]; rewrite <- H.
    - exists "3840x2160". cbn. auto.
    - exists "1920x1080". cbn. auto.
    - exists "1280x720". cbn. auto 6.
    - exists "854x480". cbn. auto 6. }
  split.
  { cbn in Hfmt. destruct Hfmt as [H|[H|[H|[]]]]; rewrite <- H; cbn; auto. }
  split; [reflexivity|].
  unfold crf. cbn in Hpre.
  destruct Hpre as [H|[H|[H|[H|[]]]]]; rewrite <- H; cbn; auto.
Qed.

Lemma command_builder_shape_witness :
  let st := {| input_dir := "/in"; output_dir := "/out"; output_format := "webm";
               quality_preset := "Low (smaller file)"; custom_crf := "28";
               resolution := "720p (1280x720)" |} in
  In (resolution st) RESOLUTIONS
  /\ In (output_format st) OUTPUT_FORMATS
  /\ In (quality_preset st) (map fst QUALITY_LEVELS)
  /\ exists scale codec : list string,
       get_ffmpeg_command st "/in/a.mov" "/out/a.webm"
       = inr (["ffmpeg"; "-i"; "/in/a.mov"; "-y"] ++ scale ++ codec
                ++ ["-c:a"; "aac"; "-b:a"; "128k"; "/out/a.webm"])
       /\ (scale = [] <-> resolution st = "Original").
Proof.
  intros st.
  assert (H1 : In (resolution st) RESOLUTIONS) by (cbn; auto).
  assert (H2 : In (output_format st) OUTPUT_FORMATS) by (cbn; auto).
  assert (H3 : In (quality_preset st) (map fst QUALITY_LEVELS)) by (cbn; auto).
  split; [exact H1|]. split; [exact H2|]. split; [exact H3|].
  destruct (command_builder_shape st "/in/a.mov" "/out/a.webm" H1 H2 H3)
    as (scale & codec & crf & Hcmd & _ & Hscale & _).
  exists scale, codec. split; [exact Hcmd|exact Hscale].
Defined.

(** ** One task *)

Section Task.
Variable st : settings.

Lemma flat_map_drain {A} (g : event -> list A) (duration : Q) (lines : list string) :
  (forall u, g (Queued u) = []) -> flat_map g (drain duration lines) = [].
Proof.
  intros Hg. unfold drain. induction lines as [|l ls IH]; [reflexivity|].
  cbn [flat_map]. rewrite flat_map_app, IH, app_nil_r.
  unfold line_events. destruct (process_line duration (PyStr.strip l)); try reflexivity.
  cbn. now rewrite Hg.
Qed.

Lemma last_set_app (v : tkvar) (a b : list event) :
  last_set v (a ++ b)
  = match last_set v b with
    | Some t => Some t
    | None => last_set v a
    end.
Proof.
  induction a as [|e a IH]; simpl.
  - now destruct (last_set v b).
  - rewrite IH. now destruct (last_set v b).
Qed.

Lemma last_set_drain (v : tkvar) (duration : Q) (lines : list string) :
  last_set v (drain duration lines) = None.
Proof.
  unfold drain. induction lines as [|l ls IH]; [reflexivity|].
  cbn [flat_map]. rewrite last_set_app, IH.
  unfold line_events. now destruct (process_line duration (PyStr.strip l)).
Qed.

(** The result of [compress_video] is decided by the probe, the preset
    table and the encoder's exit code. *)
Lemma compress_video_result (tw : task_world) (input_file output_file : string) :
  snd (compress_video st tw input_file output_file) = task_succeeds st tw.
Proof.
  unfold compress_video, task_succeeds, get_ffmpeg_command.
  destruct (tw_probe tw); [reflexivity|].
  destruct (crf_setting st); [|reflexivity].
  destruct (tw_encoder tw) as [e|lines rc err]; [reflexivity|].
  now destruct (rc =? 0)%Z.
Qed.

(** Every call of [compress_video] makes one probe call, on its input. *)
Lemma compress_video_started (tw : task_world) (input_file output_file : string) :
  started_tasks (fst (compress_video st tw input_file output_file)) = [input_file].
Proof.
  unfold compress_video.
  destruct (tw_probe tw); [reflexivity|].
  destruct (get_ffmpeg_command st input_file output_file); [reflexivity|].
  destruct (tw_encoder tw) as [e|lines rc err]; [reflexivity|].
  destruct (negb (rc =? 0)%Z); cbn [fst]; unfold started_tasks;
    cbn [flat_map duration_cmd last app]; rewrite flat_map_app, flat_map_drain;
    reflexivity.
Qed.

Lemma compress_video_no_bar (tw : task_world) (input_file output_file : string) :
  completed_rounds (fst (compress_video st tw input_file output_file)) = 0.
Proof.
  unfold compress_video.
  destruct (tw_probe tw); [reflexivity|].
  destruct (get_ffmpeg_command st input_file output_file); [reflexivity|].
  destruct (tw_encoder tw) as [e|lines rc err]; [reflexivity|].
  destruct (negb (rc =? 0)%Z); cbn [fst]; unfold completed_rounds;
    cbn [flat_map app]; rewrite flat_map_app, flat_map_drain;
    reflexivity.
Qed.

Lemma compress_video_no_set (v : tkvar) (tw : task_world)
    (input_file output_file : string) :
  last_set v (fst (compress_video st tw input_file output_file)) = None.
Proof.
  unfold compress_video.
  destruct (tw_probe tw); [reflexivity|].
  destruct (get_ffmpeg_command st input_file output_file); [reflexivity|].
  destruct (tw_encoder tw) as [e|lines rc err]; [reflexivity|].
  destruct (negb (rc =? 0)%Z); cbn [fst last_set];
    rewrite last_set_app, last_set_drain; reflexivity.
Qed.

End Task.

(** ** The batch loop *)

Section Batch.
Variable st : settings.
Variable w : batch_world.
Variable total : nat.

Lemma destination_defined (input_file : string) :
  input_file <> EmptyString ->
  exists out, destination st (bw_cwd w) input_file = inr out.
Proof.
  intros Hne. unfold destination, PosixPath.relpath.
  destruct input_file; [congruence|].
  match goal with |- context [match ?l with [] => _ | _ :: _ => _ end] => destruct l end;
    eauto.
Qed.

(** What a round that raises nothing does to the state. *)
Lemma round_facts (i : nat) (input_file : string) (s : loop_state) :
  input_file <> EmptyString ->
  tw_makedirs (bw_task w i) = None ->
  exists s',
    round st w total i input_file s = inr s'
    /\ processed_files s'
       = processed_files s + (if task_succeeds st (bw_task w i) then 1 else 0)
    /\ failed_files s'
       = failed_files s + (if task_succeeds st (bw_task w i) then 0 else 1)
    /\ cancel_requested s' = (cancel_requested s || tw_cancel (bw_task w i))%bool
    /\ started_tasks (trace s') = started_tasks (trace s) ++ [input_file]
    /\ completed_rounds (trace s') = S (completed_rounds (trace s))
    /\ last_set time_remaining (trace s')
       = if 0 <? processed_files s' then Some (shown_estimate w total i (processed_files s'))
         else last_set time_remaining (trace s).
Proof.
  intros Hne Hmk. destruct (destination_defined input_file Hne) as (out & Hout).
  unfold round. rewrite Hout, Hmk.
  pose proof (compress_video_result st (bw_task w i) input_file out) as Hres.
  pose proof (compress_video_started st (bw_task w i) input_file out) as Hst.
  pose proof (compress_video_no_bar st (bw_task w i) input_file out) as Hbar.
  pose proof (compress_video_no_set st time_remaining (bw_task w i) input_file out)
    as Hset.
  destruct (compress_video st (bw_task w i) input_file out) as [evs result].
  cbn [fst snd] in *. subst result. eexists. split; [reflexivity|].
  cbn [processed_files failed_files cancel_requested trace].
  split; [destruct (task_succeeds st (bw_task w i)); lia|].
  split; [destruct (task_succeeds st (bw_task w i)); lia|].
  split; [reflexivity|].
  split.
  { unfold started_tasks in *. rewrite !flat_map_app, Hst.
    cbn [flat_map List.app]. unfold estimate_events.
    destruct (0 <? _); cbn; now rewrite ?app_nil_r. }
  split.
  { unfold completed_rounds in *. rewrite !flat_map_app, !length_app.
    apply length_zero_iff_nil in Hbar. rewrite Hbar.
    unfold estimate_events. destruct (0 <? _); cbn; lia. }
  rewrite !last_set_app. unfold estimate_events, shown_estimate.
  destruct (0 <? _); [reflexivity|].
  cbn [last_set tkvar_eqb]. now rewrite Hset.
Qed.

Lemma rounds_cancelled (i : nat) (files : list string) (s : loop_state) :
  cancel_requested s = true -> rounds st w total i files s = inr s.
Proof. intros H. destruct files; cbn; [reflexivity|now rewrite H]. Qed.

Lemma rounds_app (files rest : list string) :
  forall i s,
    rounds st w total i (files ++ rest) s
    = match rounds st w total i files s with
      | inl err => inl err
      | inr s' => rounds st w total (i + List.length files) rest s'
      end.
Proof.
  induction files as [|f files IH]; intros i s; cbn [rounds List.app List.length].
  - now rewrite Nat.add_0_r.
  - destruct (cancel_requested s) eqn:Hc.
    + now rewrite rounds_cancelled.
    + destruct (round st w total i f s) as [err|s']; [reflexivity|].
      rewrite IH. now rewrite Nat.add_succ_r.
Qed.

Lemma count_results_S (b : bool) (i n : nat) :
  count_results st w b i (S n)
  = (if Bool.eqb (task_succeeds st (bw_task w i)) b then 1 else 0)
    + count_results st w b (S i) n.
Proof.
  unfold count_results. cbn [seq filter].
  now destruct (Bool.eqb (task_succeeds st (bw_task w i)) b).
Qed.

(** Rounds during which nothing raises and Cancel is not pressed: every
    file is visited, in order. *)
Lemma rounds_all (files : list string) :
  forall i s,
    cancel_requested s = false ->
    (forall j, j < List.length files ->
               tw_cancel (bw_task w (i + j)) = false
               /\ tw_makedirs (bw_task w (i + j)) = None) ->
    Forall (fun f => f <> EmptyString) files ->
    exists s',
      rounds st w total i files s = inr s'
      /\ cancel_requested s' = false
      /\ processed_files s'
         = processed_files s + count_results st w true i (List.length files)
      /\ failed_files s'
         = failed_files s + count_results st w false i (List.length files)
      /\ started_tasks (trace s') = started_tasks (trace s) ++ files
      /\ completed_rounds (trace s') = completed_rounds (trace s) + List.length files.
Proof.
  induction files as [|f files IH]; intros i s Hc Hw Hne.
  - exists s. cbn. rewrite app_nil_r. unfold count_results. cbn.
    repeat split; auto; lia.
  - inversion Hne as [|? ? Hf Hrest]; subst.
    destruct (Hw 0 ltac:(cbn; lia)) as [Hc0 Hm0]. rewrite Nat.add_0_r in Hc0, Hm0.
    destruct (round_facts i f s Hf Hm0)
      as (s1 & Hr & Hp & Hfl & Hcn & Hst & Hcr & _).
    assert (Hc1 : cancel_requested s1 = false) by (rewrite Hcn, Hc, Hc0; reflexivity).
    destruct (IH (S i) s1 Hc1) as (s' & Hrs & Hc' & Hp' & Hf' & Hst' & Hcr'); auto.
    { intros j Hj. specialize (Hw (S j) ltac:(cbn; lia)).
      now rewrite Nat.add_succ_r in Hw. }
    exists s'. cbn [rounds]. rewrite Hc, Hr.
    split; [exact Hrs|]. split; [exact Hc'|].
    cbn [List.length]. rewrite !count_results_S.
    split; [rewrite Hp', Hp; destruct (task_succeeds st (bw_task w i)); cbn; lia|].
    split; [rewrite Hf', Hfl; destruct (task_succeeds st (bw_task w i)); cbn; lia|].
    split; [rewrite Hst', Hst, <- app_assoc; reflexivity|].
    rewrite Hcr', Hcr. lia.
Qed.

End Batch.

(** ** The whole batch *)

Lemma count_results_total (st : settings) (w : batch_world) (n : nat) :
  forall i, count_results st w true i n + count_results st w false i n = n.
Proof.
  induction n as [|n IH]; intros i; [reflexivity|].
  rewrite !count_results_S. specialize (IH (S i)).
  destruct (task_succeeds st (bw_task w i)); cbn; lia.
Qed.

(** The batch that leaves the loop without an exception. *)
Lemma process_video_files_finished (st : settings) (w : batch_world)
    (files : list string) (s : loop_state) :
  rounds st w (List.length files) 0 files (initial_state w) = inr s ->
  let r := process_video_files st w files in
  final_state r = (if cancel_requested s then Cancelled else Completed)
  /\ processed r = processed_files s
  /\ failed r = failed_files s
  /\ started_tasks (events r) = started_tasks (trace s)
  /\ completed_rounds (events r) = completed_rounds (trace s).
Proof.
  intros H. unfold process_video_files. rewrite H.
  destruct (cancel_requested s); cbn [final_state processed failed events];
    unfold started_tasks, completed_rounds; rewrite !flat_map_app; cbn;
    rewrite !app_nil_r; repeat split; reflexivity.
Qed.

(** C5. In a batch where nothing raises and Cancel is not pressed, every
    task is attempted, in list order, whatever the exit codes: the batch ends
    Completed, a task whose encoder exits non-zero is counted failed and
    nothing else is, and the counts add up to the number of tasks. *)
Theorem partial_failure_continues (st : settings) (w : batch_world)
    (files : list string)
    (Hcancel0 : bw_cancel0 w = false)
    (Hworld : forall i, i < List.length files ->
                        tw_cancel (bw_task w i) = false
                        /\ tw_makedirs (bw_task w i) = None)
    (Hfiles : Forall (fun f => f <> EmptyString) files) :
  let r := process_video_files st w files in
  final_state r = Completed
  /\ started_tasks (events r) = files
  /\ completed_rounds (events r) = List.length files
  /\ processed r = count_results st w true 0 (List.length files)
  /\ failed r = count_results st w false 0 (List.length files)
  /\ processed r + failed r = List.length files
  /\ (forall i lines returncode err,
         tw_encoder (bw_task w i) = Exited lines returncode err ->
         returncode <> 0%Z ->
         task_succeeds st (bw_task w i) = false).
Proof.
  destruct (rounds_all st w (List.length files) files 0 (initial_state w))
    as (s & Hr & Hc & Hp & Hf & Hst & Hcr); auto.
  destruct (process_video_files_finished st w files s Hr)
    as (R1 & R2 & R3 & R4 & R5).
  cbv zeta. rewrite R1, R2, R3, R4, R5, Hc, Hp, Hf, Hst, Hcr. cbn.
  repeat split; auto.
  - apply count_results_total.
  - intros i lines rc err He Hrc. unfold task_succeeds. rewrite He.
    destruct (tw_probe (bw_task w i)); [reflexivity|].
    destruct (crf_setting st); [|reflexivity].
    now apply Z.eqb_neq.
Qed.

Lemma partial_failure_continues_witness :
  let r := process_video_files example_settings example_world_failure example_files in
  bw_cancel0 example_world_failure = false
  /\ final_state r = Completed /\ processed r = 2 /\ failed r = 1
  /\ started_tasks (events r) = example_files.
Proof.
  assert (Hworld : forall i, i < List.length example_files ->
                             tw_cancel (bw_task example_world_failure i) = false
                             /\ tw_makedirs (bw_task example_world_failure i) = None).
  { intros i _. destruct i as [|[|i]]; split; reflexivity. }
  assert (Hfiles : Forall (fun f => f <> EmptyString) example_files).
  { repeat constructor; discriminate. }
  destruct (partial_failure_continues example_settings example_world_failure
              example_files eq_refl Hworld Hfiles)
    as (H1 & H2 & _ & H4 & H5 & _).
  cbv zeta. split; [reflexivity|]. split; [exact H1|].
  split; [rewrite H4; reflexivity|]. split; [rewrite H5; reflexivity|exact H2].
Defined.


(** C6. Cancel pressed while task [k] is in flight (and not before): the
    tasks up to [k] are started and run to the end of their round, task [k]
    included, no later task is started, and the batch ends Cancelled.  In
    general the loop starts nothing in a state where the flag is set. *)
Theorem cooperative_cancellation (st : settings) (w : batch_world)
    (files : list string) (k : nat)
    (Hk : k < List.length files)
    (Hcancel0 : bw_cancel0 w = false)
    (Hbefore : forall i, i < k -> tw_cancel (bw_task w i) = false)
    (Hduring : tw_cancel (bw_task w k) = true)
    (Hmakedirs : forall i, i <= k -> tw_makedirs (bw_task w i) = None)
    (Hfiles : Forall (fun f => f <> EmptyString) files) :
  let r := process_video_files st w files in
  final_state r = Cancelled
  /\ started_tasks (events r) = firstn (S k) files
  /\ completed_rounds (events r) = S k
  /\ processed r + failed r = S k
  /\ (forall total i rest s,
         cancel_requested s = true -> rounds st w total i rest s = inr s).
Proof.
  set (total := List.length files).
  destruct (nth_error files k) as [f|] eqn:Hf;
    [|apply nth_error_None in Hf; lia].
  apply nth_error_split in Hf as (pre & post & Hsplit & Hlen).
  assert (Hne : Forall (fun f => f <> EmptyString) pre /\ f <> EmptyString).
  { rewrite Hsplit in Hfiles. apply Forall_app in Hfiles as [Hpre Hpost].
    split; [exact Hpre|]. now inversion Hpost. }
  destruct Hne as [Hpre Hfne].
  destruct (rounds_all st w total pre 0 (initial_state w))
    as (s1 & Hr1 & Hc1 & Hp1 & Hf1 & Hst1 & Hcr1); auto.
  { intros j Hj. cbn. split; [apply Hbefore|apply Hmakedirs]; lia. }
  destruct (round_facts st w total k f s1 Hfne (Hmakedirs k (le_n k)))
    as (s2 & Hr2 & Hp2 & Hf2 & Hc2 & Hst2 & Hcr2 & _).
  assert (Hrounds : rounds st w total 0 files (initial_state w) = inr s2).
  { rewrite Hsplit. rewrite rounds_app, Hr1. cbn [Nat.add rounds].
    rewrite Hlen, Hc1, Hr2. apply rounds_cancelled.
    rewrite Hc2, Hduring. apply orb_true_r. }
  destruct (process_video_files_finished st w files s2 Hrounds)
    as (R1 & R2 & R3 & R4 & R5).
  cbv zeta. rewrite R1, R2, R3, R4, R5.
  assert (Hflag : cancel_requested s2 = true)
    by (rewrite Hc2, Hduring; apply orb_true_r).
  rewrite Hflag. split; [reflexivity|].
  split.
  { rewrite Hst2, Hst1. cbn [initial_state trace started_tasks flat_map List.app].
    rewrite Hsplit, <- Hlen.
    replace (S (List.length pre)) with (List.length (pre ++ [f]))
      by (rewrite length_app; cbn; lia).
    change (f :: post) with ([f] ++ post). rewrite app_assoc.
    now rewrite firstn_app, firstn_all, Nat.sub_diag, firstn_O, app_nil_r. }
  split.
  { rewrite Hcr2, Hcr1. cbn. lia. }
  split.
  { rewrite Hp2, Hf2, Hp1, Hf1. cbn [initial_state processed_files failed_files].
    pose proof (count_results_total st w (List.length pre) 0).
    destruct (task_succeeds st (bw_task w k)); lia. }
  intros total' i rest s. apply rounds_cancelled.
Qed.

Lemma cooperative_cancellation_witness :
  let r := process_video_files example_settings example_world_cancel example_files in
  1 < List.length example_files
  /\ tw_cancel (bw_task example_world_cancel 1) = true
  /\ final_state r = Cancelled
  /\ started_tasks (events r) = ["/in/a.mov"; "/in/b.mov"]
  /\ completed_rounds (events r) = 2.
Proof.
  assert (Hk : 1 < List.length example_files) by (cbn; lia).
  assert (Hbefore : forall i, i < 1 -> tw_cancel (bw_task example_world_cancel i) = false).
  { intros i Hi. destruct i as [|i]; [reflexivity|lia]. }
  assert (Hmk : forall i, i <= 1 -> tw_makedirs (bw_task example_world_cancel i) = None).
  { intros i _. destruct i as [|[|i]]; reflexivity. }
  assert (Hfiles : Forall (fun f => f <> EmptyString) example_files).
  { repeat constructor; discriminate. }
  destruct (cooperative_cancellation example_settings example_world_cancel
              example_files 1 Hk eq_refl Hbefore eq_refl Hmk Hfiles)
    as (H1 & H2 & H3 & _).
  cbv zeta. split; [exact Hk|]. split; [reflexivity|].
  split; [exact H1|]. split; [exact H2|exact H3].
Defined.

(** ** The duration probe *)

(** A probe call that raises ends [compress_video] at once: the encoder is
    not launched, the error is put in the status text, the task has failed,
    although the encoder would have exited with 0. *)
Lemma probe_failure_fails_task :
  let r := compress_video example_settings example_task_probe_raises
             "/in/a.mov" "/out/a.mp4" in
  (exists lines err, tw_encoder example_task_probe_raises = Exited lines 0 err)
  /\ launched (fst r) = []
  /\ snd r = false
  /\ In (Queued (ULabel status_var
                   "Error: Command ffprobe returned non-zero exit status 1."))
        (fst r).
Proof.
  cbv zeta. split; [eexists _, _; reflexivity|].
  split; [reflexivity|]. split; [reflexivity|].
  cbn. auto.
Qed.

(** C7, as the code has it.  A probe that runs but prints something [float]
    rejects gives the duration 0, and nothing of it shows: the encoder is
    launched, no percentage comes from the telemetry, and the result is the
    encoder's exit code.  A probe call that itself raises makes
    [compress_video] queue the status text "Error: ..." and return [False]
    without launching the encoder. *)
Theorem probe_outcomes (st : settings) (tw : task_world)
    (input_file output_file : string) :
  match tw_probe tw with
  | ProbeRaises e =>
      compress_video st tw input_file output_file
      = ([CheckOutput (duration_cmd input_file);
          Queued (ULabel status_var ("Error: " ++ str_exn e)%string);
          Print ("Error compressing " ++ input_file ++ ": " ++ str_exn e)%string],
         false)
  | ProbeOutput out =>
      (PyStr.py_float (PyStr.strip out) = None -> parse_duration out = 0%Q)
      /\ snd (compress_video st tw input_file output_file)
         = match crf_setting st, tw_encoder tw with
           | Some _, Exited _ returncode _ => (returncode =? 0)%Z
           | _, _ => false
           end
      /\ (forall built lines err,
             PyStr.py_float (PyStr.strip out) = None ->
             get_ffmpeg_command st input_file output_file = inr built ->
             tw_encoder tw = Exited lines 0 err ->
             compress_video st tw input_file output_file
             = ([CheckOutput (duration_cmd input_file);
                 Popen (list_insert 2 "pipe:1" (list_insert 1 "-progress" built));
                 Queued (UProgress file_progress (inject_Z 100))],
                true))
  end.
Proof.
  destruct (tw_probe tw) as [e|out] eqn:Hprobe.
  - unfold compress_video. now rewrite Hprobe.
  - split; [|split].
    + intros H. unfold parse_duration. now rewrite H.
    + rewrite compress_video_result. unfold task_succeeds. now rewrite Hprobe.
    + intros built lines err Hfloat Hcmd Henc.
      unfold compress_video. rewrite Hprobe, Hcmd, Henc. cbn [Z.eqb negb].
      unfold parse_duration. rewrite Hfloat.
      rewrite drain_unknown_duration by apply Qle_refl. reflexivity.
Qed.

(** ** The time estimate *)

(** A round that returns has found its destination and made its directory. *)
Lemma round_inr_inv (st : settings) (w : batch_world) (total i : nat)
    (input_file : string) (s s' : loop_state) :
  round st w total i input_file s = inr s' ->
  input_file <> EmptyString /\ tw_makedirs (bw_task w i) = None.
Proof.
  unfold round, destination, PosixPath.relpath.
  destruct input_file as [|c r]; [discriminate|].
  intros H. split; [discriminate|].
  destruct (tw_makedirs (bw_task w i)); [|reflexivity].
  match type of H with
  | context [match ?l with [] => _ | _ :: _ => _ end] => destruct l
  end; discriminate.
Qed.

(** Rounds that ran to the end without seeing the flag: each one counted its
    task, and no estimate was shown while nothing had succeeded. *)
Lemma rounds_inr_counts (st : settings) (w : batch_world) (total : nat)
    (files : list string) :
  forall i s s',
    rounds st w total i files s = inr s' ->
    cancel_requested s' = false ->
    processed_files s' + failed_files s'
    = processed_files s + failed_files s + List.length files
    /\ processed_files s <= processed_files s'
    /\ (processed_files s' = 0 ->
        last_set time_remaining (trace s') = last_set time_remaining (trace s)).
Proof.
  induction files as [|f files IH]; intros i s s' Hr Hc.
  - cbn in Hr. injection Hr as <-. cbn. repeat split; auto; lia.
  - cbn [rounds] in Hr. destruct (cancel_requested s) eqn:Hcs.
    { injection Hr as <-. congruence. }
    destruct (round st w total i f s) as [err|s1] eqn:Hround; [discriminate|].
    destruct (round_inr_inv _ _ _ _ _ _ _ Hround) as [Hne Hmk].
    destruct (round_facts st w total i f s Hne Hmk)
      as (s1' & Hr1 & Hp1 & Hf1 & _ & _ & _ & Hl1).
    rewrite Hround in Hr1. injection Hr1 as <-.
    destruct (IH (S i) s1 s' Hr Hc) as (Hsum & Hle & Hlast).
    cbn [List.length].
    split; [destruct (task_succeeds st (bw_task w i)); lia|].
    split; [lia|].
    intros Hz. rewrite (Hlast Hz), Hl1.
    assert (Hz1 : processed_files s1 = 0) by lia.
    now rewrite Hz1.
Qed.

(** The estimate of the code agrees with the specification's wording as
    long as no task has failed. *)
Lemma est_time_remaining_no_failure (elapsed : Q) (k total : nat) :
  S k <= total ->
  est_time_remaining elapsed (S k) total = spec_estimate elapsed (S k) (total - S k).
Proof.
  intros H. unfold est_time_remaining, spec_estimate.
  now rewrite Nat2Z.inj_sub.
Qed.

(** After the first task succeeded and the second failed, 20 seconds into a
    batch of three, the code shows 40 seconds: the failed task is counted
    among the remaining ones.  The specification's formula gives 20 seconds
    (one task completed, one not yet attempted), or 10 if the failed task
    counts as completed. *)
Lemma estimate_counts_failed_task_as_remaining :
  exists s1 s2,
    rounds example_settings example_world_failure 3 0 (firstn 1 example_files)
      (initial_state example_world_failure) = inr s1
    /\ round example_settings example_world_failure 3 1 "/in/b.mov" s1 = inr s2
    /\ processed_files s2 = 1 /\ failed_files s2 = 1
    /\ last_set time_remaining (trace s2) = Some "0:00:40"
    /\ last_set time_remaining (trace s2)
       <> Some (str_timedelta (py_trunc (spec_estimate (120 - 100)%Q 1 (3 - 2))))
    /\ last_set time_remaining (trace s2)
       <> Some (str_timedelta (py_trunc (spec_estimate (120 - 100)%Q 2 (3 - 2)))).
Proof.
  eexists _, _. split; [vm_compute; reflexivity|].
  split; [vm_compute; reflexivity|].
  split; [reflexivity|]. split; [reflexivity|].
  split; [vm_compute; reflexivity|].
  split; vm_compute; discriminate.
Qed.

(** C4, as the code has it.  After round [k] of a batch that has not been
    cancelled: when at least one task has succeeded so far, the text shown
    is the whole seconds of (elapsed / tasks succeeded) * (all tasks - tasks
    succeeded); when none has, nothing is shown; and when none has failed,
    this is (elapsed / tasks completed) * tasks not yet attempted. *)
Theorem time_estimate_after_round (st : settings) (w : batch_world)
    (files : list string) (k : nat) (input_file : string) (s s' : loop_state)
    (Hfile : nth_error files k = Some input_file)
    (Hbefore : rounds st w (List.length files) 0 (firstn k files) (initial_state w)
               = inr s)
    (Hflag : cancel_requested s = false)
    (Hround : round st w (List.length files) k input_file s = inr s') :
  let total := List.length files in
  let elapsed := (tw_clock (bw_task w k) - bw_start w)%Q in
  processed_files s' + failed_files s' = S k
  /\ (0 < processed_files s' ->
      last_set time_remaining (trace s')
      = Some (str_timedelta
                (py_trunc (est_time_remaining elapsed (processed_files s') total)))
      /\ (est_time_remaining elapsed (processed_files s') total
          == elapsed / inject_Z (Z.of_nat (processed_files s'))
             * (inject_Z (Z.of_nat total) - inject_Z (Z.of_nat (processed_files s'))))%Q)
  /\ (processed_files s' = 0 -> last_set time_remaining (trace s') = None)
  /\ (failed_files s' = 0 ->
      last_set time_remaining (trace s')
      = Some (str_timedelta (py_trunc (spec_estimate elapsed (S k) (total - S k))))).
Proof.
  intros total elapsed.
  assert (Hk : k < total) by (apply nth_error_Some; congruence).
  destruct (rounds_inr_counts st w total (firstn k files) 0 (initial_state w) s
              Hbefore Hflag) as (Hsum & _ & Hlast).
  rewrite firstn_length_le in Hsum by (unfold total in Hk; lia).
  cbn [initial_state processed_files failed_files trace last_set] in Hsum, Hlast.
  destruct (round_inr_inv _ _ _ _ _ _ _ Hround) as [Hne Hmk].
  destruct (round_facts st w total k input_file s Hne Hmk)
    as (s1 & Hr1 & Hp1 & Hf1 & _ & _ & _ & Hl1).
  fold total in Hround. rewrite Hround in Hr1. injection Hr1 as <-.
  assert (Hcount : processed_files s' + failed_files s' = S k)
    by (destruct (task_succeeds st (bw_task w k)); lia).
  split; [exact Hcount|].
  split; [|split].
  - intros Hpos. apply Nat.ltb_lt in Hpos. rewrite Hl1, Hpos.
    split; [reflexivity|].
    unfold est_time_remaining, Z.sub, Qminus.
    rewrite inject_Z_plus, inject_Z_opp. reflexivity.
  - intros Hz. rewrite Hl1, Hz. cbn [Nat.ltb Nat.leb]. apply Hlast. lia.
  - intros Hnf. rewrite Hl1.
    assert (Hp : processed_files s' = S k) by lia.
    rewrite Hp. cbn [Nat.ltb Nat.leb]. unfold shown_estimate.
    fold elapsed. now rewrite est_time_remaining_no_failure by lia.
Qed.

Lemma time_estimate_after_round_witness :
  exists s s',
    nth_error ["a.mov"; "b.mov"; "c.mov"; "d.mov"] 0 = Some "a.mov"
    /\ round example_settings example_world_failure 4 0 "a.mov" s = inr s'
    /\ last_set time_remaining (trace s') = Some "0:00:30".
Proof.
  eexists (initial_state example_world_failure), _.
  split; [reflexivity|].
  assert (Hround : round example_settings example_world_failure
                     (List.length ["a.mov"; "b.mov"; "c.mov"; "d.mov"]) 0 "a.mov"
                     (initial_state example_world_failure)
                   = inr (match round example_settings example_world_failure 4 0 "a.mov"
                                  (initial_state example_world_failure) with
                          | inr x => x
                          | inl _ => initial_state example_world_failure
                          end)).
  { vm_compute. reflexivity. }
  split; [exact Hround|].
  destruct (time_estimate_after_round example_settings example_world_failure
              ["a.mov"; "b.mov"; "c.mov"; "d.mov"] 0 "a.mov"
              (initial_state example_world_failure) _ eq_refl eq_refl eq_refl Hround)
    as (_ & _ & _ & Hshown).
  rewrite Hshown; [vm_compute; reflexivity|reflexivity].
Defined.

(** ** Destinations *)

Section Paths.
Import PyStr PosixPath.

Lemma startswith_sep (c : ascii) (r : string) :
  startswith (String c r) "/" = Ascii.eqb c "/".
Proof.
  unfold startswith. cbn [prefix].
  destruct (ascii_dec "/" c) as [<-|Hne].
  - now destruct r.
  - symmetry. apply Ascii.eqb_neq. congruence.
Qed.

Lemma split_no_sep (c : ascii) (s : string) :
  forall e, In e (split c s) ->
            all_chars (fun a => negb (Ascii.eqb a c)) e = true.
Proof.
  induction s as [|a r IH]; intros e He; cbn [split] in He.
  - destruct He as [<-|[]]. reflexivity.
  - destruct (Ascii.eqb a c) eqn:Ha.
    + destruct He as [<-|He]; [reflexivity|now apply IH].
    + destruct (split c r) as [|h t] eqn:Hs.
      * destruct He as [<-|[]]. cbn. now rewrite Ha.
      * destruct He as [<-|He].
        -- cbn. rewrite Ha. cbn. apply IH. now left.
        -- apply IH. now right.
Qed.

Lemma component_relative (s e : string) :
  In e (filter nonempty (split sep s)) -> relative e.
Proof.
  intros H. apply filter_In in H as [Hin Hne].
  apply split_no_sep in Hin. destruct e as [|c r]; [discriminate|].
  split; [discriminate|]. rewrite startswith_sep.
  cbn in Hin. apply andb_true_iff in Hin as [Hc _].
  now apply negb_true_iff in Hc.
Qed.

Lemma join_relative (a b : string) :
  relative a -> startswith b "/" = false -> relative (join a b).
Proof.
  intros [Ha Hs] Hb. unfold join. rewrite Hb.
  destruct a as [|c r]; [congruence|].
  rewrite startswith_sep in Hs.
  destruct (String.eqb (String c r) "" || ends_with_char (String c r) sep)%bool;
    (split; [discriminate|]); cbn [append]; now rewrite startswith_sep.
Qed.

Lemma join_all_relative (ps : list string) :
  forall a, relative a -> Forall relative ps -> relative (join_all a ps).
Proof.
  unfold join_all.
  induction ps as [|p ps IH]; intros a Ha Hps; [exact Ha|].
  inversion Hps as [|? ? Hp Hrest]; subst. cbn [fold_left].
  apply IH; [|exact Hrest]. apply join_relative; [exact Ha|apply Hp].
Qed.

(** [relpath] never returns an absolute path. *)
Lemma relpath_relative (cwd path start rel : string) :
  relpath cwd path start = Some rel -> relative rel.
Proof.
  unfold relpath. destruct path as [|c r]; [discriminate|].
  set (start_list := filter nonempty (split sep (abspath cwd start))).
  set (path_list := filter nonempty (split sep (abspath cwd (String c r)))).
  set (n := List.length start_list - common_len start_list path_list).
  set (i := common_len start_list path_list).
  assert (Hall : Forall relative (repeat ".." n ++ skipn i path_list)).
  { apply Forall_app. split.
    - apply Forall_forall. intros e He. apply repeat_spec in He. subst e.
      split; [discriminate|reflexivity].
    - apply Forall_forall. intros e He.
      apply (component_relative (abspath cwd (String c r))).
      fold path_list. rewrite <- (firstn_skipn i path_list).
      apply in_or_app. now right. }
  destruct (repeat ".." n ++ skipn i path_list) as [|h t].
  - intros [= <-]. split; [discriminate|reflexivity].
  - intros [= <-]. inversion Hall; subst. now apply join_all_relative.
Qed.

Lemma splitext_stem (p : string) :
  fst (splitext p) = p \/ exists d, fst (splitext p) = take d p.
Proof.
  unfold splitext. destruct (rfindZ sep p <? rfindZ "." p)%Z; [|now left].
  destruct (all_dots _); [now left|right]. eexists. reflexivity.
Qed.

Lemma stem_relative (p tail : string) :
  startswith p "/" = false ->
  startswith (fst (splitext p) ++ String "." tail) "/" = false.
Proof.
  intros Hp. destruct (splitext_stem p) as [->|(d & ->)].
  - destruct p as [|c r]; [reflexivity|].
    cbn [append]. now rewrite startswith_sep in *.
  - destruct d as [|d]; [reflexivity|]. destruct p as [|c r]; [reflexivity|].
    cbn [take append]. now rewrite startswith_sep in *.
Qed.

Lemma append_inj_l (a x y : string) : (a ++ x = a ++ y)%string -> x = y.
Proof. induction a as [|c a IH]; cbn; [auto|]. intros [= H]. auto. Qed.

Lemma list_of_append (a b : string) :
  list_ascii_of_string (a ++ b) = list_ascii_of_string a ++ list_ascii_of_string b.
Proof. induction a as [|c a IH]; cbn; [reflexivity|now rewrite IH]. Qed.

Lemma append_inj_r (x y c : string) : (x ++ c = y ++ c)%string -> x = y.
Proof.
  intros H. apply (f_equal list_ascii_of_string) in H.
  rewrite !list_of_append in H. apply app_inv_tail in H.
  apply (f_equal string_of_list_ascii) in H.
  now rewrite !string_of_list_ascii_of_string in H.
Qed.

(** Two relative paths get the same destination exactly when they agree up
    to their extension. *)
Lemma output_path_eq (st : settings) (r1 r2 : string) :
  startswith r1 "/" = false -> startswith r2 "/" = false ->
  (output_path st r1 = output_path st r2
   <-> fst (splitext r1) = fst (splitext r2)).
Proof.
  intros H1 H2. unfold output_path. split; [|now intros ->].
  unfold join. cbn [append].
  rewrite (stem_relative r1 (output_format st) H1).
  rewrite (stem_relative r2 (output_format st) H2).
  intros H.
  destruct (String.eqb (output_dir st) "" || ends_with_char (output_dir st) sep)%bool.
  - apply append_inj_l in H. now apply append_inj_r in H.
  - apply append_inj_l in H. injection H as H. now apply append_inj_r in H.
Qed.

End Paths.

Section DirsBeforeTasks.
Variable st : settings.
Variable cwd : string.

Lemma dirs_before_tasks_app (a b : list event) :
  forall made,
    dirs_before_tasks st cwd made a ->
    (forall made', incl made made' -> dirs_before_tasks st cwd made' b) ->
    dirs_before_tasks st cwd made (a ++ b).
Proof.
  induction a as [|e a IH]; intros made Ha Hb.
  - apply Hb. apply incl_refl.
  - cbn [List.app]. destruct e as [| | |path okd|cmd|cmd|]; cbn in Ha |- *;
      try (apply IH; assumption).
    + destruct okd.
      * apply IH; [exact Ha|]. intros made' Hincl. apply Hb.
        intros x Hx. apply Hincl. now right.
      * now apply IH.
    + destruct Ha as [H1 H2]. split; [exact H1|now apply IH].
    + destruct Ha as [H1 H2]. split; [exact H1|now apply IH].
Qed.

Lemma dirs_before_tasks_drain (duration : Q) (lines : list string) (made : list string) :
  dirs_before_tasks st cwd made (drain duration lines).
Proof.
  unfold drain. induction lines as [|l ls IH]; [exact I|].
  cbn [flat_map]. unfold line_events at 1.
  destruct (process_line duration (PyStr.strip l)); cbn; exact IH.
Qed.

Lemma last_launched (input_file output_file : string) (built : list string) :
  get_ffmpeg_command st input_file output_file = inr built ->
  last (list_insert 2 "pipe:1" (list_insert 1 "-progress" built)) EmptyString
  = output_file.
Proof.
  unfold get_ffmpeg_command. destruct (crf_setting st) as [crf|]; [|discriminate].
  intros [= <-]. cbn [list_insert firstn skipn List.app].
  change ["-c:a"; "aac"; "-b:a"; "128k"; output_file]
    with (["-c:a"; "aac"; "-b:a"; "128k"] ++ [output_file]).
  rewrite !app_assoc, !app_comm_cons. apply last_last.
Qed.

(** The events of one task are in order once its directory is made. *)
Lemma dirs_before_tasks_compress (tw : task_world) (input_file output_file : string)
    (made : list string) :
  destination st cwd input_file = inr output_file ->
  In (PosixPath.dirname output_file) made ->
  dirs_before_tasks st cwd made (fst (compress_video st tw input_file output_file)).
Proof.
  intros Hdest Hin. unfold compress_video.
  assert (Hprobe : exists out, destination st cwd
                                 (last (duration_cmd input_file) EmptyString) = inr out
                               /\ In (PosixPath.dirname out) made)
    by (exists output_file; split; assumption).
  destruct (tw_probe tw); [cbn; auto|].
  destruct (get_ffmpeg_command st input_file output_file) as [e|built] eqn:Hcmd;
    [cbn; auto|].
  pose proof (last_launched input_file output_file built Hcmd) as Hlast.
  destruct (tw_encoder tw) as [e|lines rc err].
  { cbn [fst dirs_before_tasks compress_failed]. rewrite Hlast. auto. }
  destruct (negb (rc =? 0)%Z); cbn [fst dirs_before_tasks]; rewrite Hlast;
    (split; [exact Hprobe|]); (split; [exact Hin|]);
    (apply dirs_before_tasks_app; [apply dirs_before_tasks_drain|]);
    intros made' _; exact I.
Qed.

End DirsBeforeTasks.

Lemma dirs_before_tasks_round (st : settings) (w : batch_world) (total i : nat)
    (input_file : string) (s : loop_state) :
  dirs_before_tasks st (bw_cwd w) [] (trace s) ->
  match round st w total i input_file s with
  | inl (_, s') | inr s' => dirs_before_tasks st (bw_cwd w) [] (trace s')
  end.
Proof.
  intros Hs. unfold round.
  destruct (destination st (bw_cwd w) input_file) as [e|out] eqn:Hdest; [exact Hs|].
  destruct (tw_makedirs (bw_task w i)).
  { cbn [trace]. apply dirs_before_tasks_app; [exact Hs|]. intros; exact I. }
  pose proof (dirs_before_tasks_compress st (bw_cwd w) (bw_task w i) input_file out)
    as Hc.
  destruct (compress_video st (bw_task w i) input_file out) as [evs result].
  cbn [trace fst] in *.
  apply dirs_before_tasks_app; [exact Hs|]. intros made _.
  cbn [List.app dirs_before_tasks].
  apply dirs_before_tasks_app; [apply Hc; [exact Hdest|now left]|].
  intros made' _. unfold estimate_events. now destruct (0 <? _).
Qed.

Lemma dirs_before_tasks_rounds (st : settings) (w : batch_world) (total : nat)
    (files : list string) :
  forall i s,
    dirs_before_tasks st (bw_cwd w) [] (trace s) ->
    match rounds st w total i files s with
    | inl (_, s') | inr s' => dirs_before_tasks st (bw_cwd w) [] (trace s')
    end.
Proof.
  induction files as [|f files IH]; intros i s Hs; cbn [rounds]; [exact Hs|].
  destruct (cancel_requested s); [exact Hs|].
  pose proof (dirs_before_tasks_round st w total i f s Hs) as Hr.
  destruct (round st w total i f s) as [[e s']|s']; [exact Hr|].
  now apply IH.
Qed.

(** Two sources that differ in nothing but their extension get the same
    destination. *)
Lemma same_stem_same_destination :
  find_video_files "/in" [File "clip.mov"; File "clip.mp4"]
  = ["/in/clip.mov"; "/in/clip.mp4"]
  /\ "/in/clip.mov" <> "/in/clip.mp4"
  /\ destination example_settings "/home/user" "/in/clip.mov" = inr "/out/clip.mp4"
  /\ destination example_settings "/home/user" "/in/clip.mp4" = inr "/out/clip.mp4".
Proof.
  split; [reflexivity|]. split; [discriminate|]. split; reflexivity.
Qed.

(** C8, as the code has it.  In every batch each probe call and each encoder
    launch comes after the successful making of the directory of its
    destination; and two sources have the same destination exactly when
    their paths relative to the input directory agree up to the extension. *)
Theorem destinations_made_and_distinct (st : settings) (w : batch_world)
    (files : list string) :
  dirs_before_tasks st (bw_cwd w) [] (events (process_video_files st w files))
  /\ (forall f1 f2 r1 r2,
         PosixPath.relpath (bw_cwd w) f1 (input_dir st) = Some r1 ->
         PosixPath.relpath (bw_cwd w) f2 (input_dir st) = Some r2 ->
         destination st (bw_cwd w) f1 = inr (output_path st r1)
         /\ destination st (bw_cwd w) f2 = inr (output_path st r2)
         /\ (output_path st r1 = output_path st r2
             <-> fst (PosixPath.splitext r1) = fst (PosixPath.splitext r2))).
Proof.
  split.
  - unfold process_video_files.
    pose proof (dirs_before_tasks_rounds st w (List.length files) files 0
                  (initial_state w) I) as H.
    destruct (rounds st w (List.length files) 0 files (initial_state w))
      as [[e s]|s].
    + cbn [events]. apply dirs_before_tasks_app; [exact H|]. intros; exact I.
    + destruct (cancel_requested s); cbn [events];
        (apply dirs_before_tasks_app; [exact H|]); intros; exact I.
  - intros f1 f2 r1 r2 H1 H2. unfold destination. rewrite H1, H2.
    split; [reflexivity|]. split; [reflexivity|].
    apply output_path_eq.
    + now apply relpath_relative in H1 as [_ ?].
    + now apply relpath_relative in H2 as [_ ?].
Qed.

(** ** File discovery *)

Section Sorting.

Lemma leb_not_gt (a b : string) : str_le a b <-> String.compare a b <> Gt.
Proof.
  unfold str_le, String.leb. destruct (String.compare a b); split; congruence.
Qed.

Lemma str_le_trans (a : string) :
  forall b c, str_le a b -> str_le b c -> str_le a c.
Proof.
  induction a as [|x a IH]; intros [|y b] [|z c]; rewrite !leb_not_gt;
    cbn [String.compare]; try congruence.
  unfold Ascii.compare.
  destruct (N.compare_spec (N_of_ascii x) (N_of_ascii y)) as [Exy|Exy|Exy];
    destruct (N.compare_spec (N_of_ascii y) (N_of_ascii z)) as [Eyz|Eyz|Eyz];
    try congruence; intros Hab Hbc.
  - rewrite Exy, Eyz, N.compare_refl. apply leb_not_gt.
    apply (IH b c); now apply leb_not_gt.
  - rewrite Exy. apply N.compare_lt_iff in Eyz. now rewrite Eyz.
  - rewrite <- Eyz. apply N.compare_lt_iff in Exy. now rewrite Exy.
  - assert (H : (N_of_ascii x < N_of_ascii z)%N) by lia.
    apply N.compare_lt_iff in H. now rewrite H.
Qed.

Lemma str_le_total (a b : string) : str_le a b \/ str_le b a.
Proof. apply String.leb_total. Qed.

Lemma insert_sorted_perm (x : string) (l : list string) :
  Permutation (insert_sorted x l) (x :: l).
Proof.
  induction l as [|y l IH]; cbn; [reflexivity|].
  destruct (String.leb x y); [reflexivity|].
  rewrite IH. apply perm_swap.
Qed.

Lemma sorted_perm (l : list string) : Permutation (sorted l) l.
Proof.
  induction l as [|x l IH]; cbn; [reflexivity|].
  rewrite insert_sorted_perm. now constructor.
Qed.

Lemma insert_sorted_sorted (x : string) (l : list string) :
  StronglySorted str_le l -> StronglySorted str_le (insert_sorted x l).
Proof.
  induction l as [|y l IH]; intros Hl; cbn.
  - repeat constructor.
  - inversion Hl as [|? ? Hs Hall]; subst.
    destruct (String.leb x y) eqn:Hxy.
    + constructor; [exact Hl|]. constructor; [exact Hxy|].
      eapply Forall_impl; [|exact Hall]. intros z Hz.
      now apply (str_le_trans x y z).
    + constructor; [now apply IH|].
      assert (Hyx : str_le y x).
      { destruct (str_le_total x y) as [H|H]; [|exact H].
        unfold str_le in H. congruence. }
      eapply Permutation_Forall; [symmetry; apply insert_sorted_perm|].
      now constructor.
Qed.

Lemma sorted_sorted (l : list string) : StronglySorted str_le (sorted l).
Proof.
  induction l as [|x l IH]; cbn; [constructor|].
  now apply insert_sorted_sorted.
Qed.

End Sorting.

Section Walk.

Lemma file_names_spec (children : list node) (name : string) :
  In name (file_names children) <-> In (File name) children.
Proof.
  unfold file_names. rewrite in_flat_map. split.
  - intros ([n|d sub] & Hin & H); [|contradiction].
    destruct H as [<-|[]]. exact Hin.
  - intros H. exists (File name). split; [exact H|now left].
Qed.

(** [os.walk] goes down into a directory as it goes through a tree. *)
Lemma walk_node_dir (parent d : string) (sub : list node) :
  walk_node parent (Dir d sub) = walk (PosixPath.join parent d) sub.
Proof. reflexivity. Qed.

Lemma node_size_in (n : node) (children : list node) :
  In n children -> node_size n <= list_sum (map node_size children).
Proof.
  induction children as [|m ms IH]; [contradiction|].
  intros [->|H]; unfold list_sum in *; cbn [map fold_right]; [lia|].
  specialize (IH H). lia.
Qed.

Lemma walk_sound (bound : nat) :
  forall top children root files name,
    list_sum (map node_size children) < bound ->
    In (root, files) (walk top children) -> In name files ->
    file_under top children root name.
Proof.
  induction bound as [|bound IH]; intros top children root files name Hb Hin Hname;
    [lia|].
  destruct Hin as [Heq|Hin].
  - injection Heq as <- <-. apply file_here. now apply file_names_spec.
  - apply in_flat_map in Hin as ([n|d sub] & Hn & Hin); [contradiction|].
    rewrite walk_node_dir in Hin.
    eapply file_below; [exact Hn|].
    eapply IH; [|exact Hin|exact Hname].
    pose proof (node_size_in _ _ Hn) as Hs. cbn [node_size] in Hs. lia.
Qed.

Lemma walk_complete (top : string) (children : list node) (root name : string) :
  file_under top children root name ->
  exists files, In (root, files) (walk top children) /\ In name files.
Proof.
  induction 1 as [top children name Hin|top children d sub root name Hin _ IH].
  - exists (file_names children). split; [now left|now apply file_names_spec].
  - destruct IH as (files & Hw & Hname). exists files. split; [|exact Hname].
    right. apply in_flat_map. exists (Dir d sub). split; [exact Hin|exact Hw].
Qed.

Lemma str_in_spec (s : string) (l : list string) : str_in s l = true <-> In s l.
Proof.
  unfold str_in. rewrite existsb_exists. split.
  - intros (x & Hx & He). apply String.eqb_eq in He. now subst.
  - intros H. exists s. split; [exact H|apply String.eqb_refl].
Qed.

Lemma collect_spec (triples : list (string * list string)) (p : string) :
  In p (collect_video_files triples)
  <-> exists root files name,
        In (root, files) triples /\ In name files
        /\ is_video_name name = true /\ p = PosixPath.join root name.
Proof.
  unfold collect_video_files. rewrite in_flat_map. split.
  - intros ([root files] & Ht & Hp). apply in_map_iff in Hp as (name & <- & Hf).
    apply filter_In in Hf as [Hname Hv]. now exists root, files, name.
  - intros (root & files & name & Ht & Hname & Hv & ->).
    exists (root, files). split; [exact Ht|].
    apply in_map. now apply filter_In.
Qed.

End Walk.

(** C3. [find_video_files] returns, in ascending order, exactly the paths of
    the plain files of the tree whose lower-cased extension is in
    [VIDEO_EXTENSIONS]; and an input that is missing or not a directory is
    rejected by [validate_inputs] as an invalid directory before the search
    is made. *)
Theorem file_discovery (directory : string) (children : list node) :
  let found := find_video_files directory children in
  StronglySorted str_le found
  /\ Permutation found (collect_video_files (walk directory children))
  /\ (forall p,
         In p found
         <-> exists root name,
               file_under directory children root name
               /\ In (PyStr.lower (snd (PosixPath.splitext name))) VIDEO_EXTENSIONS
               /\ p = PosixPath.join root name)
  /\ (forall st vw old,
         vw_input vw = Missing \/ vw_input vw = IsFile ->
         validate_inputs st vw old = (Some BadInputDir, old)
         /\ classify BadInputDir = InvalidDirectory)
  /\ (forall st vw old,
         input_dir st = directory -> directory <> EmptyString ->
         vw_input vw = IsDir children ->
         output_dir st <> EmptyString ->
         vw_output_exists vw = true \/ vw_makedirs vw = None ->
         snd (validate_inputs st vw old) = found).
Proof.
  cbv zeta. unfold find_video_files.
  split; [apply sorted_sorted|]. split; [apply sorted_perm|]. split.
  - intros p. split.
    + intros Hp. apply (Permutation_in _ (sorted_perm _)) in Hp.
      apply collect_spec in Hp as (root & files & name & Ht & Hn & Hv & ->).
      exists root, name. split; [|split; [|reflexivity]].
      * eapply walk_sound; [apply Nat.lt_succ_diag_r|exact Ht|exact Hn].
      * now apply str_in_spec.
    + intros (root & name & Hu & Hv & ->).
      apply (Permutation_in _ (Permutation_sym (sorted_perm _))).
      apply collect_spec. apply walk_complete in Hu as (files & Ht & Hn).
      exists root, files, name. repeat split; auto. now apply str_in_spec.
  - split.
    + intros st vw old Hno. split; [|reflexivity].
      unfold validate_inputs.
      replace (isdir (vw_input vw)) with false
        by (destruct Hno as [-> | ->]; reflexivity).
      cbn. now rewrite orb_true_r.
    + intros st vw old Hin Hne Hdir Hout Hmk. unfold validate_inputs.
      rewrite Hin, Hdir. apply String.eqb_neq in Hne, Hout.
      rewrite Hne, Hout. cbn [isdir negb orb listing].
      replace (if vw_output_exists vw then None else vw_makedirs vw)
        with (@None string)
        by (destruct Hmk as [-> | ->]; now destruct (vw_output_exists vw)).
      unfold find_video_files.
      now destruct (sorted (collect_video_files (walk directory children))).
Qed.

(** * Further properties *)

(** ** Telemetry and the report of one task *)

Lemma process_line_estimate_bound (duration : Q) (line : string) (t p : Q) :
  process_line duration line = Estimate t p -> (p <= inject_Z 100)%Q.
Proof.
  unfold process_line.
  destruct (PyStr.startswith line "out_time_ms="); [|discriminate].
  destruct (nth_error _ 1); [|discriminate].
  destruct (PyStr.py_float _); [|discriminate].
  destruct (Qltb 0 duration); [|discriminate].
  destruct (py_div _ duration); [discriminate|].
  intros [= _ <-]. apply py_min_le_l.
Qed.

(** X1. Whatever the encoder prints and whatever the duration is, each line
    read leads to at most one update of the per-file bar, and no value sent
    is above 100. *)
Theorem telemetry_updates_bounded (duration : Q) (lines : list string) :
  List.length (drain duration lines) <= List.length lines
  /\ Forall (fun e => exists p, e = Queued (UProgress file_progress p)
                                /\ (p <= inject_Z 100)%Q)
       (drain duration lines).
Proof.
  unfold drain. induction lines as [|l ls [IHlen IHall]]; [split; [apply le_n|constructor]|].
  cbn [flat_map]. rewrite length_app. unfold line_events at 1 3.
  destruct (process_line duration (PyStr.strip l)) as [| | |t p] eqn:E;
    cbn [List.length List.app]; (split; [lia|]); try exact IHall.
  constructor; [|exact IHall]. exists p. split; [reflexivity|].
  eapply process_line_estimate_bound, E.
Qed.

Lemma error_labels_drain (duration : Q) (lines : list string) :
  error_labels (drain duration lines) = [].
Proof.
  unfold error_labels, drain. induction lines as [|l ls IH]; [reflexivity|].
  cbn [flat_map]. rewrite flat_map_app, IH, app_nil_r.
  unfold line_events. now destruct (process_line duration (PyStr.strip l)).
Qed.

Lemma launched_drain (duration : Q) (lines : list string) :
  launched (drain duration lines) = [].
Proof. apply flat_map_drain. reflexivity. Qed.

(** X2. A task says what went wrong exactly when it fails: a successful call
    of [compress_video] launches the encoder once, queues no status text
    and ends by putting the per-file bar at 100; a failed call queues exactly
    one status text, which begins with "Error", and launches the encoder at
    most once.  Either way the probe is called once, on the input. *)
Theorem task_reporting (st : settings) (tw : task_world)
    (input_file output_file : string) :
  let evs := fst (compress_video st tw input_file output_file) in
  let result := snd (compress_video st tw input_file output_file) in
  started_tasks evs = [input_file]
  /\ (result = true ->
      error_labels evs = []
      /\ List.length (launched evs) = 1
      /\ last evs (Print EmptyString) = Queued (UProgress file_progress (inject_Z 100)))
  /\ (result = false ->
      List.length (launched evs) <= 1
      /\ exists text, error_labels evs = [text]
                      /\ PyStr.startswith text "Error" = true).
Proof.
  cbv zeta. split; [apply compress_video_started|].
  unfold compress_video, compress_failed.
  destruct (tw_probe tw) as [e|out].
  { cbn. split; [discriminate|]. intros _. split; [lia|]. eexists. split; reflexivity. }
  destruct (get_ffmpeg_command st input_file output_file) as [e|built].
  { cbn. split; [discriminate|]. intros _. split; [lia|]. eexists. split; reflexivity. }
  destruct (tw_encoder tw) as [e|lines rc err].
  { cbn. split; [discriminate|]. intros _. split; [lia|]. eexists. split; reflexivity. }
  destruct (negb (rc =? 0)%Z); cbn [fst snd]; (split; [|]); try discriminate; intros _.
  - unfold launched, error_labels. cbn [flat_map List.app].
    rewrite !flat_map_app. fold (launched (drain (parse_duration out) lines)).
    fold (error_labels (drain (parse_duration out) lines)).
    rewrite launched_drain, error_labels_drain. cbn.
    split; [lia|]. eexists. split; reflexivity.
  - unfold launched, error_labels. cbn [flat_map List.app].
    rewrite !flat_map_app. fold (launched (drain (parse_duration out) lines)).
    fold (error_labels (drain (parse_duration out) lines)).
    rewrite launched_drain, error_labels_drain. cbn [flat_map List.app List.length].
    split; [reflexivity|]. split; [reflexivity|].
    rewrite !app_comm_cons. apply last_last.
Qed.

(** ** The batch in every world *)

Lemma round_events_drain (duration : Q) (lines : list string) :
  forallb round_event (drain duration lines) = true.
Proof.
  unfold drain. induction lines as [|l ls IH]; [reflexivity|].
  cbn [flat_map]. rewrite forallb_app, IH, andb_true_r.
  unfold line_events. now destruct (process_line duration (PyStr.strip l)).
Qed.

Lemma round_events_compress (st : settings) (tw : task_world)
    (input_file output_file : string) :
  forallb round_event (fst (compress_video st tw input_file output_file)) = true.
Proof.
  unfold compress_video.
  destruct (tw_probe tw); [reflexivity|].
  destruct (get_ffmpeg_command st input_file output_file); [reflexivity|].
  destruct (tw_encoder tw) as [e|lines rc err]; [reflexivity|].
  destruct (negb (rc =? 0)%Z); cbn [fst forallb round_event andb];
    rewrite forallb_app, round_events_drain; reflexivity.
Qed.

(** What a round that raises leaves behind. *)
Lemma round_inl_facts (st : settings) (w : batch_world) (total i : nat)
    (input_file : string) (s s1 : loop_state) (e : exn) :
  round st w total i input_file s = inl (e, s1) ->
  processed_files s1 = processed_files s
  /\ failed_files s1 = failed_files s
  /\ ((input_file = EmptyString /\ trace s1 = trace s)
      \/ exists msg dir,
           tw_makedirs (bw_task w i) = Some msg /\ e = Raise OSError msg
           /\ trace s1 = trace s ++ [Makedirs dir false]).
Proof.
  unfold round, destination, PosixPath.relpath.
  destruct input_file as [|c r].
  { intros [= <- <-]. repeat split. now left. }
  match goal with
  | |- context [match ?l with [] => _ | _ :: _ => _ end] => destruct l
  end.
  all: destruct (tw_makedirs (bw_task w i)) as [msg|] eqn:Hmk.
  all: try (intros [= <- <-]; cbn; repeat split; right; eexists _, _;
            repeat split; reflexivity).
  all: destruct (compress_video _ _ _ _); discriminate.
Qed.

(** The events a loop adds are events of rounds. *)
Lemma rounds_trace (st : settings) (w : batch_world) (total : nat)
    (files : list string) :
  forall i s,
  exists s' seg,
    (rounds st w total i files s = inr s'
     \/ exists e, rounds st w total i files s = inl (e, s'))
    /\ trace s' = trace s ++ seg
    /\ forallb round_event seg = true.
Proof.
  induction files as [|f files IH]; intros i s; cbn [rounds].
  - exists s, []. rewrite app_nil_r. auto.
  - destruct (cancel_requested s).
    { exists s, []. rewrite app_nil_r. auto. }
    destruct (round st w total i f s) as [[e s1]|s1] eqn:Hround.
    + exists s1. apply round_inl_facts in Hround as (_ & _ & [[_ Ht]|(msg & dir & _ & _ & Ht)]).
      * exists []. rewrite app_nil_r. eauto.
      * exists [Makedirs dir false]. eauto.
    + destruct (IH (S i) s1) as (s' & seg & Hres & Ht & Hseg).
      exists s'. unfold round in Hround.
      destruct (destination st (bw_cwd w) f) as [e|out]; [discriminate|].
      destruct (tw_makedirs (bw_task w i)); [discriminate|].
      pose proof (round_events_compress st (bw_task w i) f out) as Hc.
      destruct (compress_video st (bw_task w i) f out) as [evs result].
      injection Hround as <-. cbn [trace fst] in *.
      eexists. split; [exact Hres|]. split.
      * rewrite Ht, <- app_assoc. reflexivity.
      * rewrite forallb_app, Hseg, andb_true_r.
        cbn [forallb round_event andb]. rewrite forallb_app, Hc.
        cbn [forallb round_event andb]. unfold estimate_events.
        now destruct (0 <? _).
Qed.

(** The tasks started by a loop are the first files of its list, each one
    counted once. *)
Lemma rounds_prefix (st : settings) (w : batch_world) (total : nat)
    (files : list string) :
  forall i s,
  exists s' k,
    (rounds st w total i files s = inr s'
     \/ exists e, rounds st w total i files s = inl (e, s'))
    /\ k <= List.length files
    /\ started_tasks (trace s') = started_tasks (trace s) ++ firstn k files
    /\ processed_files s' + failed_files s' = processed_files s + failed_files s + k
    /\ completed_rounds (trace s') = completed_rounds (trace s) + k.
Proof.
  induction files as [|f files IH]; intros i s; cbn [rounds].
  - exists s, 0. cbn. rewrite app_nil_r. repeat split; auto; lia.
  - destruct (cancel_requested s).
    { exists s, 0. cbn. rewrite app_nil_r. repeat split; auto; lia. }
    destruct (round st w total i f s) as [[e s1]|s1] eqn:Hround.
    + exists s1, 0. cbn [firstn List.length].
      apply round_inl_facts in Hround as (Hp & Hf & Ht).
      split; [right; eauto|]. split; [lia|].
      assert (Hst : started_tasks (trace s1) = started_tasks (trace s)
                    /\ completed_rounds (trace s1) = completed_rounds (trace s)).
      { destruct Ht as [[_ ->]|(msg & dir & _ & _ & ->)]; [auto|].
        unfold started_tasks, completed_rounds. rewrite !flat_map_app. cbn.
        now rewrite !app_nil_r. }
      destruct Hst as [-> ->]. rewrite app_nil_r. repeat split; lia.
    + destruct (round_inr_inv _ _ _ _ _ _ _ Hround) as [Hne Hmk].
      destruct (round_facts st w total i f s Hne Hmk)
        as (s1' & Hr1 & Hp1 & Hf1 & _ & Hst1 & Hcr1 & _).
      rewrite Hround in Hr1. injection Hr1 as <-.
      destruct (IH (S i) s1) as (s' & k & Hres & Hk & Hst & Hsum & Hcr).
      exists s', (S k). split; [exact Hres|]. cbn [List.length firstn].
      split; [lia|]. split; [rewrite Hst, Hst1, <- app_assoc; reflexivity|].
      split; [destruct (task_succeeds st (bw_task w i)); lia|lia].
Qed.

(** How [process_video_files] ends after its loop. *)
Lemma process_video_files_events (st : settings) (w : batch_world)
    (files : list string) :
  let r := process_video_files st w files in
  exists s tail,
    events r = trace s ++ tail
    /\ (rounds st w (List.length files) 0 files (initial_state w) = inr s
     /\ final_state r = (if cancel_requested s then Cancelled else Completed)
     /\ queued_messages tail = []
     \/ exists e,
          rounds st w (List.length files) 0 files (initial_state w) = inl (e, s)
          /\ final_state r = Failed
          /\ queued_messages tail
             = [("Error", "An error occurred during compression: " ++ str_exn e)%string]
          /\ error_labels tail = [("Error: " ++ str_exn e)%string])
    /\ processed r = processed_files s /\ failed r = failed_files s
    /\ started_tasks tail = [] /\ completed_rounds tail = 0
    /\ overall_values tail = []
    /\ ui_state_updates tail = [false]
    /\ last tail (Print EmptyString) = Queued (UUiState false).
Proof.
  cbv zeta. unfold process_video_files.
  destruct (rounds st w (List.length files) 0 files (initial_state w))
    as [[e s]|s] eqn:Hr.
  - exists s. eexists. split; [reflexivity|].
    split; [right; exists e; repeat split; reflexivity|].
    repeat split; reflexivity.
  - exists s. destruct (cancel_requested s);
      (eexists; split; [reflexivity|]);
      (split; [left; repeat split; reflexivity|]);
      repeat split; reflexivity.
Qed.

Lemma last_app_nonempty {A} (a b : list A) (d : A) :
  b <> [] -> last (a ++ b) d = last b d.
Proof.
  intros Hb. induction a as [|x a IH]; [reflexivity|].
  cbn [List.app]. rewrite <- IH.
  destruct (a ++ b) eqn:E; [|reflexivity].
  apply app_eq_nil in E as [_ E]. contradiction.
Qed.

Lemma round_events_no_end (seg : list event) :
  forallb round_event seg = true ->
  ui_state_updates seg = [] /\ queued_messages seg = [].
Proof.
  unfold ui_state_updates, queued_messages.
  induction seg as [|e seg IH]; [auto|]. cbn [forallb flat_map].
  intros H. apply andb_true_iff in H as [He Hs]. destruct (IH Hs) as [-> ->].
  destruct e as [| |[| | |]| | | |]; try discriminate He; auto.
Qed.

(** X3. In every world (failures, exceptions, cancellation) the tasks a
    batch starts are the first k files of its list, in order and each once,
    and k is the number of tasks counted as processed or failed and the
    number of rounds that ran to their end. *)
Theorem tasks_run_in_list_order (st : settings) (w : batch_world)
    (files : list string) :
  let r := process_video_files st w files in
  exists k,
    k <= List.length files
    /\ started_tasks (events r) = firstn k files
    /\ processed r + failed r = k
    /\ completed_rounds (events r) = k.
Proof.
  cbv zeta.
  destruct (process_video_files_events st w files)
    as (s & tail & Hev & Hres & Hp & Hf & Hst & Hcr & _).
  destruct (rounds_prefix st w (List.length files) files 0 (initial_state w))
    as (s' & k & Hres' & Hk & Hst' & Hsum & Hcr').
  assert (s' = s).
  { destruct Hres as [(H & _)|(e & H & _)]; destruct Hres' as [H'|(e' & H')];
      rewrite H in H'; congruence. }
  subst s'. exists k. split; [exact Hk|].
  rewrite Hev, Hp, Hf. unfold started_tasks, completed_rounds in *.
  rewrite !flat_map_app, length_app, Hst, app_nil_r.
  apply length_zero_iff_nil in Hcr. rewrite Hcr.
  cbn in Hst', Hsum, Hcr'. cbn [List.length].
  split; [exact Hst'|]. split; lia.
Qed.

(** X4. However a batch ends, the worker hands the window back exactly once
    and as its last act: the queue gets one [ui_state] item, [False], and it
    is the last event.  An error dialog is queued only when the batch ends
    Failed, and then exactly one. *)
Theorem window_released_once (st : settings) (w : batch_world)
    (files : list string) :
  let r := process_video_files st w files in
  ui_state_updates (events r) = [false]
  /\ last (events r) (Print EmptyString) = Queued (UUiState false)
  /\ (final_state r <> Failed -> queued_messages (events r) = [])
  /\ (final_state r = Failed ->
      exists message, queued_messages (events r) = [("Error", message)]).
Proof.
  cbv zeta.
  destruct (process_video_files_events st w files)
    as (s & tail & Hev & Hres & _ & _ & _ & _ & _ & Hui & Hlast).
  destruct (rounds_trace st w (List.length files) files 0 (initial_state w))
    as (s' & seg & Hres' & Ht & Hseg).
  assert (s' = s).
  { destruct Hres as [(H & _)|(e & H & _)]; destruct Hres' as [H'|(e' & H')];
      rewrite H in H'; congruence. }
  subst s'. cbn [initial_state trace List.app] in Ht.
  destruct (round_events_no_end seg Hseg) as [Hu Hm].
  rewrite Hev, Ht. unfold ui_state_updates, queued_messages in *.
  rewrite !flat_map_app, Hu, Hm, Hui. cbn [List.app].
  split; [reflexivity|]. split.
  { destruct tail as [|t tail]; [discriminate|].
    rewrite last_app_nonempty; [exact Hlast|discriminate]. }
  destruct Hres as [(_ & Hfin & Hq)|(e & _ & Hfin & Hq & _)]; rewrite Hfin, Hq.
  - split; [reflexivity|]. destruct (cancel_requested s); discriminate.
  - split; [congruence|]. intros _. eexists. reflexivity.
Qed.

(** ** A batch that cannot make a directory *)

Lemma round_makedirs_fails (st : settings) (w : batch_world) (total i : nat)
    (input_file msg : string) (s : loop_state) :
  input_file <> EmptyString ->
  tw_makedirs (bw_task w i) = Some msg ->
  exists s1 dir,
    round st w total i input_file s = inl (Raise OSError msg, s1)
    /\ processed_files s1 = processed_files s
    /\ failed_files s1 = failed_files s
    /\ trace s1 = trace s ++ [Makedirs dir false].
Proof.
  intros Hne Hmk. destruct (destination_defined st w input_file Hne) as (out & Hout).
  unfold round. rewrite Hout, Hmk. eexists _, _. repeat split.
Qed.

(** X5. When [os.makedirs] raises for the file of round [k] (nothing having
    raised and Cancel not having been pressed before), the batch ends
    Failed: the k earlier tasks were run and stay counted, the task of round
    [k] and all later ones are never started, and the error text goes both
    to the status line and into one error dialog. *)
Theorem makedirs_failure_aborts (st : settings) (w : batch_world)
    (files : list string) (k : nat) (msg : string)
    (Hk : k < List.length files)
    (Hcancel0 : bw_cancel0 w = false)
    (Hbefore : forall i, i < k ->
                         tw_cancel (bw_task w i) = false
                         /\ tw_makedirs (bw_task w i) = None)
    (Hfails : tw_makedirs (bw_task w k) = Some msg)
    (Hfiles : Forall (fun f => f <> EmptyString) files) :
  let r := process_video_files st w files in
  final_state r = Failed
  /\ started_tasks (events r) = firstn k files
  /\ processed r + failed r = k
  /\ queued_messages (events r)
     = [("Error", "An error occurred during compression: " ++ msg)%string]
  /\ In (Queued (ULabel status_var ("Error: " ++ msg)%string)) (events r).
Proof.
  set (total := List.length files).
  destruct (nth_error files k) as [f|] eqn:Hf;
    [|apply nth_error_None in Hf; lia].
  apply nth_error_split in Hf as (pre & post & Hsplit & Hlen).
  assert (Hne : Forall (fun f => f <> EmptyString) pre /\ f <> EmptyString).
  { rewrite Hsplit in Hfiles. apply Forall_app in Hfiles as [Hpre Hpost].
    split; [exact Hpre|]. now inversion Hpost. }
  destruct Hne as [Hpre Hfne].
  destruct (rounds_all st w total pre 0 (initial_state w))
    as (s1 & Hr1 & Hc1 & Hp1 & Hf1 & Hst1 & _); auto.
  { intros j Hj. cbn. apply Hbefore. lia. }
  destruct (rounds_trace st w total pre 0 (initial_state w))
    as (s1' & seg & Hres & Ht & Hseg).
  assert (s1' = s1) by (destruct Hres as [H|(e & H)]; rewrite Hr1 in H; congruence).
  subst s1'. cbn [initial_state trace List.app] in Ht.
  destruct (round_events_no_end seg Hseg) as [_ Hm].
  destruct (round_makedirs_fails st w total k f msg s1 Hfne Hfails)
    as (s2 & dir & Hr2 & Hp2 & Hf2 & Ht2).
  assert (Hrounds : rounds st w total 0 files (initial_state w)
                    = inl (Raise OSError msg, s2)).
  { rewrite Hsplit. rewrite rounds_app, Hr1. cbn [Nat.add rounds].
    now rewrite Hlen, Hc1, Hr2. }
  cbv zeta. unfold process_video_files. fold total. rewrite Hrounds.
  cbn [final_state processed failed events str_exn].
  split; [reflexivity|]. split.
  { unfold started_tasks in *. rewrite Ht2, !flat_map_app, Hst1. cbn.
    rewrite !app_nil_r, Hsplit, <- Hlen.
    now rewrite firstn_app, firstn_all, Nat.sub_diag, firstn_O, app_nil_r. }
  split.
  { rewrite Hp2, Hf2, Hp1, Hf1. cbn [initial_state processed_files failed_files].
    pose proof (count_results_total st w (List.length pre) 0). lia. }
  split.
  { unfold queued_messages in *. rewrite Ht2, Ht, !flat_map_app, Hm. reflexivity. }
  apply in_or_app. right. now left.
Qed.

Lemma makedirs_failure_aborts_witness :
  let r := process_video_files example_settings example_world_makedirs example_files in
  tw_makedirs (bw_task example_world_makedirs 2) = Some "Permission denied"
  /\ final_state r = Failed
  /\ started_tasks (events r) = ["/in/a.mov"; "/in/b.mov"]
  /\ processed r + failed r = 2.
Proof.
  assert (Hk : 2 < List.length example_files) by (cbn; lia).
  assert (Hbefore : forall i, i < 2 ->
                              tw_cancel (bw_task example_world_makedirs i) = false
                              /\ tw_makedirs (bw_task example_world_makedirs i) = None).
  { intros i Hi. destruct i as [|[|i]]; [split; reflexivity..|lia]. }
  assert (Hfiles : Forall (fun f => f <> EmptyString) example_files).
  { repeat constructor; discriminate. }
  destruct (makedirs_failure_aborts example_settings example_world_makedirs
              example_files 2 "Permission denied" Hk eq_refl Hbefore eq_refl Hfiles)
    as (H1 & H2 & H3 & _).
  cbv zeta. split; [reflexivity|]. split; [exact H1|]. split; [exact H2|exact H3].
Defined.

(** ** Bounds on what the bars and the estimate show *)

Section Bounds.
Variable st : settings.
Variable w : batch_world.
Variable total : nat.

Lemma ratio_in_range (p : nat) :
  p <= total -> 0 < total ->
  bar_in_range (inject_Z (Z.of_nat p) / inject_Z (Z.of_nat total) * inject_Z 100)%Q.
Proof.
  intros Hp Ht.
  assert (Htq : (0 < inject_Z (Z.of_nat total))%Q)
    by (rewrite <- (Zlt_Qlt 0); lia).
  assert (H0 : (0 <= inject_Z (Z.of_nat p) / inject_Z (Z.of_nat total))%Q).
  { apply Qle_shift_div_l; [exact Htq|]. rewrite Qmult_0_l.
    rewrite <- (Zle_Qle 0). lia. }
  assert (H1 : (inject_Z (Z.of_nat p) / inject_Z (Z.of_nat total) <= 1)%Q).
  { apply Qle_shift_div_r; [exact Htq|]. rewrite Qmult_1_l.
    rewrite <- Zle_Qle. lia. }
  split.
  - apply Qmult_le_0_compat; [exact H0|discriminate].
  - setoid_replace (inject_Z 100) with (1 * inject_Z 100)%Q at 2 by ring.
    apply Qmult_le_compat_r; [exact H1|discriminate].
Qed.

Lemma py_trunc_nonneg (x : Q) : (0 <= x)%Q -> (0 <= py_trunc x)%Z.
Proof.
  intros H. unfold py_trunc.
  assert (Hb : Qle_bool 0 x = true) by now apply Qle_bool_iff.
  rewrite Hb. change 0%Z with (Qfloor 0). now apply Qfloor_resp_le.
Qed.

Lemma est_time_remaining_nonneg (elapsed : Q) (p : nat) :
  (0 <= elapsed)%Q -> 0 < p -> p <= total ->
  (0 <= est_time_remaining elapsed p total)%Q.
Proof.
  intros He Hp Hpt. unfold est_time_remaining.
  apply Qmult_le_0_compat.
  - apply Qle_shift_div_l.
    + rewrite <- (Zlt_Qlt 0). lia.
    + now rewrite Qmult_0_l.
  - rewrite <- (Zle_Qle 0). lia.
Qed.

Lemma time_texts_compress (tw : task_world) (input_file output_file : string) :
  time_texts (fst (compress_video st tw input_file output_file)) = [].
Proof.
  unfold compress_video.
  destruct (tw_probe tw); [reflexivity|].
  destruct (get_ffmpeg_command st input_file output_file); [reflexivity|].
  destruct (tw_encoder tw) as [e|lines rc err]; [reflexivity|].
  destruct (negb (rc =? 0)%Z); cbn [fst]; unfold time_texts;
    cbn [flat_map List.app]; rewrite flat_map_app, flat_map_drain;
    reflexivity.
Qed.

(** What one round adds to the two displays. *)
Lemma round_displays (i : nat) (input_file : string) (s s1 : loop_state) :
  round st w total i input_file s = inr s1 ->
  processed_files s1 <= S (processed_files s)
  /\ processed_files s <= processed_files s1
  /\ overall_values (trace s1)
     = overall_values (trace s)
       ++ [(inject_Z (Z.of_nat (processed_files s1)) / inject_Z (Z.of_nat total)
            * inject_Z 100)%Q]
  /\ time_texts (trace s1)
     = time_texts (trace s)
       ++ (if 0 <? processed_files s1
           then [shown_estimate w total i (processed_files s1)] else []).
Proof.
  unfold round.
  destruct (destination st (bw_cwd w) input_file) as [e|out]; [discriminate|].
  destruct (tw_makedirs (bw_task w i)); [discriminate|].
  pose proof (compress_video_no_bar st (bw_task w i) input_file out) as Hbar.
  pose proof (round_events_compress st (bw_task w i) input_file out) as Hev.
  pose proof (time_texts_compress (bw_task w i) input_file out) as Htime.
  destruct (compress_video st (bw_task w i) input_file out) as [evs result].
  cbn [fst] in *. intros [= <-].
  cbn [processed_files trace].
  split; [destruct result; lia|]. split; [destruct result; lia|].
  unfold overall_values, time_texts, completed_rounds in *.
  apply length_zero_iff_nil in Hbar.
  rewrite !flat_map_app. cbn [flat_map List.app].
  rewrite !flat_map_app, Hbar, Htime. cbn [flat_map List.app].
  unfold estimate_events, shown_estimate.
  destruct (0 <? _); cbn [flat_map List.app]; rewrite ?app_nil_r; split; reflexivity.
Qed.

Lemma rounds_bars (files : list string) :
  forall i s,
    processed_files s <= i ->
    i + List.length files <= total ->
    Forall bar_in_range (overall_values (trace s)) ->
    forall s',
      (rounds st w total i files s = inr s'
       \/ exists e, rounds st w total i files s = inl (e, s')) ->
      Forall bar_in_range (overall_values (trace s')).
Proof.
  induction files as [|f files IH]; intros i s Hp Hi Hs s' Hres; cbn [rounds] in Hres.
  - destruct Hres as [H|(e & H)]; [|discriminate]. now injection H as <-.
  - destruct (cancel_requested s).
    { destruct Hres as [H|(e & H)]; [|discriminate]. now injection H as <-. }
    cbn [List.length] in Hi.
    destruct (round st w total i f s) as [[e1 s1]|s1] eqn:Hround.
    + destruct Hres as [H|(e & H)]; [discriminate|]. injection H as _ <-.
      apply round_inl_facts in Hround as (_ & _ & [[_ ->]|(msg & dir & _ & _ & ->)]);
        [exact Hs|].
      unfold overall_values in *. rewrite flat_map_app. cbn. now rewrite app_nil_r.
    + apply round_displays in Hround as (Hle & _ & Hov & _).
      apply (IH (S i) s1); [lia|lia| |exact Hres].
      rewrite Hov. apply Forall_app. split; [exact Hs|].
      constructor; [|constructor]. apply ratio_in_range; lia.
Qed.

Lemma rounds_estimates (files : list string) :
  (forall j, (bw_start w <= tw_clock (bw_task w j))%Q) ->
  forall i s,
    processed_files s <= i ->
    i + List.length files <= total ->
    Forall estimate_text (time_texts (trace s)) ->
    forall s',
      (rounds st w total i files s = inr s'
       \/ exists e, rounds st w total i files s = inl (e, s')) ->
      Forall estimate_text (time_texts (trace s')).
Proof.
  intros Hclock.
  induction files as [|f files IH]; intros i s Hp Hi Hs s' Hres; cbn [rounds] in Hres.
  - destruct Hres as [H|(e & H)]; [|discriminate]. now injection H as <-.
  - destruct (cancel_requested s).
    { destruct Hres as [H|(e & H)]; [|discriminate]. now injection H as <-. }
    cbn [List.length] in Hi.
    destruct (round st w total i f s) as [[e1 s1]|s1] eqn:Hround.
    + destruct Hres as [H|(e & H)]; [discriminate|]. injection H as _ <-.
      apply round_inl_facts in Hround as (_ & _ & [[_ ->]|(msg & dir & _ & _ & ->)]);
        [exact Hs|].
      unfold time_texts in *. rewrite flat_map_app. cbn. now rewrite app_nil_r.
    + apply round_displays in Hround as (Hle & _ & _ & Htm).
      apply (IH (S i) s1); [lia|lia| |exact Hres].
      rewrite Htm. apply Forall_app. split; [exact Hs|].
      destruct (0 <? processed_files s1) eqn:Hpos; [|constructor].
      apply Nat.ltb_lt in Hpos. constructor; [|constructor].
      eexists. split; [|reflexivity]. apply py_trunc_nonneg.
      apply est_time_remaining_nonneg; [|exact Hpos|lia].
      unfold Qminus. rewrite <- Qle_minus_iff. apply Hclock.
Qed.

End Bounds.

(** X6. The overall progress bar only ever gets values between 0 and 100,
    in every world: the count of processed files never exceeds the number
    of files. *)
Theorem overall_bar_in_range (st : settings) (w : batch_world)
    (files : list string) :
  Forall bar_in_range (overall_values (events (process_video_files st w files))).
Proof.
  destruct (process_video_files_events st w files)
    as (s & tail & Hev & Hres & _ & _ & _ & _ & Hov & _).
  rewrite Hev. unfold overall_values in *. rewrite flat_map_app, Hov, app_nil_r.
  apply (rounds_bars st w (List.length files) files 0 (initial_state w)).
  - cbn. lia.
  - lia.
  - constructor.
  - destruct Hres as [(H & _)|(e & H & _)]; [now left|right; eauto].
Qed.

(** X7. As long as the clock does not run backwards, the time-remaining
    label never shows a negative time: every text written to it is the
    closing "00:00:00" or [str(timedelta(seconds=n))] for some n >= 0. *)
Theorem estimate_never_negative (st : settings) (w : batch_world)
    (files : list string)
    (Hclock : forall i, (bw_start w <= tw_clock (bw_task w i))%Q) :
  Forall (fun t => t = "00:00:00" \/ estimate_text t)
    (time_texts (events (process_video_files st w files))).
Proof.
  destruct (process_video_files_events st w files)
    as (s & tail & Hev & Hres & _).
  assert (Hs : Forall estimate_text (time_texts (trace s))).
  { apply (rounds_estimates st w (List.length files) files Hclock 0 (initial_state w)).
    - cbn. lia.
    - lia.
    - constructor.
    - destruct Hres as [(H & _)|(e & H & _)]; [now left|right; eauto]. }
  assert (Htail : Forall (fun t => t = "00:00:00") (time_texts tail)).
  { unfold process_video_files in Hev.
    destruct Hres as [(H & _)|(e & H & _)]; rewrite H in Hev.
    - destruct (cancel_requested s); cbn [events] in Hev;
        apply app_inv_head in Hev; subst tail; repeat constructor.
    - cbn [events] in Hev. apply app_inv_head in Hev. subst tail. constructor. }
  rewrite Hev. unfold time_texts in *. rewrite flat_map_app. apply Forall_app. split.
  - eapply Forall_impl; [|exact Hs]. intros t Ht. now right.
  - eapply Forall_impl; [|exact Htail]. intros t Ht. now left.
Qed.

Lemma estimate_never_negative_witness :
  (forall i, (bw_start example_world_failure
              <= tw_clock (bw_task example_world_failure i))%Q)
  /\ Forall (fun t => t = "00:00:00" \/ estimate_text t)
       (time_texts (events (process_video_files example_settings
                              example_world_failure example_files))).
Proof.
  assert (Hclock : forall i, (bw_start example_world_failure
                              <= tw_clock (bw_task example_world_failure i))%Q).
  { intros i. destruct i as [|[|i]]; discriminate. }
  split; [exact Hclock|].
  exact (estimate_never_negative example_settings example_world_failure
           example_files Hclock).
Defined.


(** ** The batch that [start_compression] starts *)

Lemma join_nonempty (a b : string) :
  a <> EmptyString -> PosixPath.join a b <> EmptyString.
Proof.
  intros Ha. unfold PosixPath.join.
  destruct (PyStr.startswith b "/") eqn:Hb.
  - destruct b; [discriminate|discriminate].
  - destruct a as [|c r]; [congruence|].
    destruct (String.eqb (String c r) "" || PyStr.ends_with_char (String c r) PosixPath.sep)%bool;
      discriminate.
Qed.

Lemma file_under_root (top : string) (children : list node) (root name : string) :
  file_under top children root name -> top <> EmptyString -> root <> EmptyString.
Proof.
  induction 1 as [|top children d sub root name _ _ IH]; intros Htop; [exact Htop|].
  apply IH. now apply join_nonempty.
Qed.

(** No path found under a named directory is the empty string, so
    [relpath] does not raise on it. *)
Lemma find_video_files_nonempty (directory : string) (children : list node) :
  directory <> EmptyString ->
  Forall (fun f => f <> EmptyString) (find_video_files directory children).
Proof.
  intros Hd. apply Forall_forall. intros p Hp. unfold find_video_files in Hp.
  apply (Permutation_in _ (sorted_perm _)) in Hp.
  apply collect_spec in Hp as (root & files & name & Ht & Hn & _ & ->).
  apply join_nonempty. eapply file_under_root; [|exact Hd].
  eapply walk_sound; [apply Nat.lt_succ_diag_r|exact Ht|exact Hn].
Qed.

(** Only [os.makedirs] can make the loop raise on paths that are not empty. *)
Lemma rounds_never_raise (st : settings) (w : batch_world) (total : nat)
    (files : list string) :
  (forall i, tw_makedirs (bw_task w i) = None) ->
  Forall (fun f => f <> EmptyString) files ->
  forall i s, exists s', rounds st w total i files s = inr s'.
Proof.
  intros Hmk. induction 1 as [|f files Hf _ IH]; intros i s; cbn [rounds]; [eauto|].
  destruct (cancel_requested s); [eauto|].
  destruct (round_facts st w total i f s Hf (Hmk i)) as (s1 & -> & _).
  apply IH.
Qed.

(** X8. A batch is started only from an idle window and after a full
    validation: the input directory is a directory, both directory fields
    are set, the quality passes, and the batch runs on the sorted list
    [find_video_files] returned, which is not empty and holds no empty path.
    Such a batch can end Failed only because [os.makedirs] raised. *)
Theorem started_batch (a : application) (st : settings) (vw : validation_world)
    (w : batch_world) (r : batch_result)
    (Hstarted : snd (start_compression a st vw w) = Some r) :
  is_processing a = false
  /\ input_dir st <> EmptyString /\ output_dir st <> EmptyString
  /\ validate_quality st = None
  /\ exists children,
       vw_input vw = IsDir children
       /\ find_video_files (input_dir st) children <> []
       /\ Forall (fun f => f <> EmptyString) (find_video_files (input_dir st) children)
       /\ video_files (fst (fst (start_compression a st vw w)))
          = find_video_files (input_dir st) children
       /\ r = process_video_files st w (find_video_files (input_dir st) children)
       /\ ((forall i, tw_makedirs (bw_task w i) = None) -> final_state r <> Failed).
Proof.
  unfold start_compression in *.
  destruct (is_processing a); [discriminate|]. split; [reflexivity|].
  unfold validate_inputs in *.
  destruct (String.eqb (input_dir st) "") eqn:Hin; [discriminate|].
  destruct (vw_input vw) as [| |children];
    [cbn in Hstarted; discriminate..|].
  cbn [isdir negb orb listing] in *.
  destruct (String.eqb (output_dir st) "") eqn:Hout; [discriminate|].
  apply String.eqb_neq in Hin, Hout.
  destruct (if vw_output_exists vw then None else vw_makedirs vw); [discriminate|].
  pose proof (find_video_files_nonempty (input_dir st) children Hin) as Hne.
  destruct (find_video_files (input_dir st) children) as [|f files] eqn:Hfiles;
    [discriminate|].
  destruct (validate_quality st); [discriminate|].
  cbn [fst snd video_files] in *. injection Hstarted as <-.
  split; [exact Hin|]. split; [exact Hout|]. split; [reflexivity|].
  exists children. split; [reflexivity|]. rewrite Hfiles.
  split; [discriminate|].
  split; [exact Hne|]. split; [reflexivity|]. split; [reflexivity|].
  intros Hmk. unfold process_video_files.
  destruct (rounds_never_raise st w (List.length (f :: files)) (f :: files) Hmk Hne
              0 (initial_state w)) as (s' & ->).
  destruct (cancel_requested s'); discriminate.
Qed.

Lemma started_batch_witness :
  let a := {| is_processing := false; video_files := [] |} in
  exists r,
    snd (start_compression a example_settings example_validation_world
           example_world_failure) = Some r
    /\ video_files (fst (fst (start_compression a example_settings
                                example_validation_world example_world_failure)))
       = ["/in/a.mov"]
    /\ final_state r <> Failed.
Proof.
  intros a.
  assert (Hs : snd (start_compression a example_settings example_validation_world
                      example_world_failure)
               = Some (process_video_files example_settings example_world_failure
                         ["/in/a.mov"])) by reflexivity.
  eexists. split; [exact Hs|].
  destruct (started_batch a example_settings example_validation_world
              example_world_failure _ Hs)
    as (_ & _ & _ & _ & children & Hdir & _ & _ & Hvf & _ & Hfin).
  injection Hdir as <-. split; [exact Hvf|].
  apply Hfin. intros i. destruct i as [|[|i]]; reflexivity.
Defined.

(** ** The quality box, the scale argument and the destination *)

(** X9. Picking a named preset disables the CRF entry and copies the
    preset's value into it, so the entry shows the CRF the command will
    carry; picking 'Custom' afterwards enables the entry and leaves the value
    there, and without any typing the validation passes and the command is
    the one of the named preset. *)
Theorem preset_then_custom (st : settings) (preset : string)
    (input_file output_file : string)
    (Hnamed : In preset ["High (larger file)"; "Medium"; "Low (smaller file)"]) :
  let '(entry1, st1) := select_quality preset st in
  let '(entry2, st2) := select_quality "Custom" st1 in
  entry1 = DISABLED
  /\ lookup preset QUALITY_LEVELS = Some (custom_crf st1)
  /\ crf_setting st1 = Some (custom_crf st1)
  /\ entry2 = NORMAL
  /\ custom_crf st2 = custom_crf st1
  /\ validate_quality st2 = None
  /\ get_ffmpeg_command st2 input_file output_file
     = get_ffmpeg_command st1 input_file output_file.
Proof.
  cbn in Hnamed. destruct Hnamed as [H|[H|[H|[]]]]; subst preset;
    cbn; repeat split; reflexivity.
Qed.

Lemma preset_then_custom_witness :
  In "Low (smaller file)" ["High (larger file)"; "Medium"; "Low (smaller file)"]
  /\ custom_crf (snd (select_quality "Custom"
                        (snd (select_quality "Low (smaller file)" example_settings))))
     = "28".
Proof.
  assert (H : In "Low (smaller file)"
                ["High (larger file)"; "Medium"; "Low (smaller file)"])
    by (cbn; auto).
  split; [exact H|].
  pose proof (preset_then_custom example_settings "Low (smaller file)" "a" "b" H) as P.
  destruct (select_quality "Low (smaller file)" example_settings) as [e1 s1] eqn:E1.
  cbn [snd].
  destruct (select_quality "Custom" s1) as [e2 s2] eqn:E2.
  destruct P as (_ & Hl & _ & _ & Hc & _).
  cbn [snd]. rewrite Hc. cbn in Hl. now injection Hl as <-.
Defined.

Section ScaleArgument.
Import PyStr.

Lemma string_append_assoc (a b c : string) :
  (a ++ (b ++ c) = (a ++ b) ++ c)%string.
Proof. induction a as [|x a IH]; cbn; [reflexivity|now rewrite IH]. Qed.

Lemma span_digits_spec (s : string) :
  forall a b, span_digits s = (a, b) -> s = (a ++ b)%string /\ all_chars is_digit a = true.
Proof.
  induction s as [|c r IH]; intros a b H; cbn in H.
  - injection H as <- <-. auto.
  - destruct (is_digit c) eqn:Hc.
    + destruct (span_digits r) as [a' b'] eqn:E. injection H as <- <-.
      destruct (IH a' b' eq_refl) as [-> Ha]. cbn. now rewrite Hc.
    + injection H as <- <-. auto.
Qed.

Lemma match_dims_here_spec (s m : string) :
  match_dims_here s = Some m ->
  exists wd ht post,
    m = (wd ++ String "x" ht)%string /\ s = (m ++ post)%string
    /\ wd <> EmptyString /\ ht <> EmptyString
    /\ all_chars is_digit wd = true /\ all_chars is_digit ht = true.
Proof.
  unfold match_dims_here.
  destruct (span_digits s) as [wd rest] eqn:E1.
  apply span_digits_spec in E1 as [-> Hw].
  destruct wd as [|c0 wd']; [discriminate|].
  destruct rest as [|c r]; [discriminate|].
  destruct (Ascii.eqb c "x") eqn:Hx; [|discriminate].
  apply Ascii.eqb_eq in Hx. subst c.
  destruct (span_digits r) as [ht post] eqn:E2.
  apply span_digits_spec in E2 as [-> Hh].
  destruct ht as [|c1 ht']; [discriminate|].
  intros [= <-]. exists (String c0 wd'), (String c1 ht'), post.
  repeat split; try discriminate; auto.
  change (String c0 wd' ++ String "x" (String c1 ht' ++ post))%string
    with (String c0 wd' ++ (String "x" (String c1 ht') ++ post))%string.
  apply string_append_assoc.
Qed.

Lemma re_search_dims_spec (s : string) :
  forall m, re_search_dims s = Some m ->
  exists pre wd ht post,
    m = (wd ++ String "x" ht)%string /\ s = (pre ++ m ++ post)%string
    /\ wd <> EmptyString /\ ht <> EmptyString
    /\ all_chars is_digit wd = true /\ all_chars is_digit ht = true.
Proof.
  induction s as [|c r IH]; intros m H.
  - cbn in H. discriminate.
  - cbn [re_search_dims] in H.
    destruct (match_dims_here (String c r)) as [m'|] eqn:E.
    + injection H as <-.
      apply match_dims_here_spec in E as (wd & ht & post & Hm & Hs & Hrest).
      exists EmptyString, wd, ht, post. cbn [append]. repeat split; tauto.
    + destruct (IH m H) as (pre & wd & ht & post & Hm & Hs & Hrest).
      exists (String c pre), wd, ht, post. cbn [append]. rewrite <- Hs.
      repeat split; tauto.
Qed.

(** X10. Whatever the resolution field holds, the scale argument is either
    absent or [-vf scale=<W>x<H>] where W and H are non-empty runs of digits
    standing in the field's text: nothing else of the text reaches the
    command line. *)
Theorem scale_argument_shape (res : string) :
  scale_args res = []
  \/ exists pre wd ht post,
       res = (pre ++ (wd ++ String "x" ht) ++ post)%string
       /\ wd <> EmptyString /\ ht <> EmptyString
       /\ all_chars is_digit wd = true /\ all_chars is_digit ht = true
       /\ scale_args res = ["-vf"; ("scale=" ++ wd ++ String "x" ht)%string].
Proof.
  unfold scale_args. destruct (negb (String.eqb res "Original")); [|now left].
  destruct (re_search_dims res) as [m|] eqn:E; [|now left].
  right. apply re_search_dims_spec in E as (pre & wd & ht & post & -> & Hs & Hrest).
  exists pre, wd, ht, post. repeat split; tauto.
Qed.

End ScaleArgument.

Section DestinationShape.
Import PyStr PosixPath.

Lemma take_drop (n : nat) (s : string) : (take n s ++ drop n s)%string = s.
Proof.
  revert s. induction n as [|n IH]; intros [|c r]; cbn; try reflexivity.
  now rewrite IH.
Qed.

(** [splitext] cuts its argument in two. *)
Lemma splitext_concat (p : string) :
  (fst (splitext p) ++ snd (splitext p))%string = p.
Proof.
  unfold splitext. destruct (rfindZ sep p <? rfindZ "." p)%Z.
  - destruct (all_dots _); cbn [fst snd].
    + clear. induction p as [|c r IH]; cbn; [reflexivity|now rewrite IH].
    + apply take_drop.
  - cbn [fst snd]. clear. induction p as [|c r IH]; cbn; [reflexivity|now rewrite IH].
Qed.

(** X11. The destination of a source file is the output directory, a slash
    unless the directory is empty or already ends with one, the source's
    path relative to the input directory without its extension, a dot and
    the output format. *)
Theorem destination_shape (st : settings) (cwd input_file out : string)
    (Hdest : destination st cwd input_file = inr out) :
  exists rel stem ext,
    relpath cwd input_file (input_dir st) = Some rel
    /\ relative rel
    /\ splitext rel = (stem, ext) /\ rel = (stem ++ ext)%string
    /\ out = (output_dir st
              ++ (if String.eqb (output_dir st) "" || ends_with_char (output_dir st) sep
                  then "" else "/")
              ++ stem ++ "." ++ output_format st)%string.
Proof.
  unfold destination in Hdest.
  destruct (relpath cwd input_file (input_dir st)) as [rel|] eqn:Hrel; [|discriminate].
  injection Hdest as <-.
  pose proof (relpath_relative _ _ _ _ Hrel) as Hr.
  exists rel, (fst (splitext rel)), (snd (splitext rel)).
  split; [reflexivity|]. split; [exact Hr|].
  split; [now destruct (splitext rel)|].
  split; [symmetry; apply splitext_concat|].
  unfold output_path, join. destruct Hr as [_ Hr].
  cbn [append]. rewrite (stem_relative rel (output_format st) Hr).
  now destruct (String.eqb (output_dir st) "" || ends_with_char (output_dir st) sep)%bool.
Qed.

Lemma destination_shape_witness :
  destination example_settings "/home/user" "/in/s/c.mkv" = inr "/out/s/c.mp4"
  /\ exists rel stem ext,
       PosixPath.relpath "/home/user" "/in/s/c.mkv" "/in" = Some rel
       /\ rel = (stem ++ ext)%string
       /\ "/out/s/c.mp4" = ("/out" ++ "/" ++ stem ++ ".mp4")%string.
Proof.
  assert (H : destination example_settings "/home/user" "/in/s/c.mkv"
              = inr "/out/s/c.mp4") by reflexivity.
  split; [exact H|].
  destruct (destination_shape example_settings "/home/user" "/in/s/c.mkv"
              "/out/s/c.mp4" H) as (rel & stem & ext & Hrel & _ & _ & Hcat & Hout).
  exists rel, stem, ext. split; [exact Hrel|]. split; [exact Hcat|exact Hout].
Defined.

End DestinationShape.


(** ** The window after a batch *)

Lemma check_update_queue_app (q1 q2 : list update) (u : window) :
  check_update_queue (q1 ++ q2) u = check_update_queue q2 (check_update_queue q1 u).
Proof. unfold check_update_queue. apply fold_left_app. Qed.

Lemma check_update_queue_dialogs (q : list update) :
  forall u, win_dialogs (check_update_queue q u) = win_dialogs u ++ messages_of q.
Proof.
  unfold check_update_queue, messages_of.
  induction q as [|x q IH]; intros u; cbn [fold_left flat_map].
  - now rewrite app_nil_r.
  - rewrite IH. destruct x as [v t|b x|title message|[|]]; cbn [apply_update];
      try (cbn; reflexivity).
    cbn [showerror win_dialogs]. now rewrite <- app_assoc.
Qed.

(** A queued item stays last in the queue until the timer fires. *)
Lemma play_snoc_queued (x : update) (tr : list event) :
  forall polls u q,
  exists u' q', play (tr ++ [Queued x]) polls u q = (u', q' ++ [x]).
Proof.
  induction tr as [|e tr IH]; intros polls u q.
  - cbn. eauto.
  - cbn [List.app play]. destruct e; apply IH.
Qed.

(** No queued dialog is lost, and none is shown that was not queued. *)
Lemma play_dialogs (tr : list event) :
  forall polls u q,
    win_dialogs (check_update_queue (snd (play tr polls u q)) (fst (play tr polls u q)))
    = win_dialogs (check_update_queue q u) ++ queued_messages tr.
Proof.
  unfold queued_messages.
  induction tr as [|e tr IH]; intros polls u q; cbn [play flat_map snd fst].
  - now rewrite app_nil_r.
  - assert (Hpoll : win_dialogs
                      (check_update_queue (if hd false polls then [] else q)
                         (if hd false polls then check_update_queue q u else u))
                    = win_dialogs (check_update_queue q u))
      by now destruct (hd false polls).
    destruct e as [v t|b x|x| | | |]; rewrite IH; cbn [List.app];
      rewrite ?app_nil_r.
    + rewrite <- Hpoll, !check_update_queue_dialogs. reflexivity.
    + rewrite <- Hpoll, !check_update_queue_dialogs. reflexivity.
    + rewrite check_update_queue_app. unfold check_update_queue at 1.
      cbn [fold_left].
      destruct x as [v t|b x|title message|[|]];
        cbn [apply_update set_var set_bar showerror update_ui_state negb
               win_dialogs List.app];
        rewrite Hpoll, <- ?app_assoc; reflexivity.
    + now rewrite <- Hpoll.
    + now rewrite <- Hpoll.
    + now rewrite <- Hpoll.
    + now rewrite <- Hpoll.
Qed.

(** X12. Whenever the timer fires during a batch, once the worker has ended
    and the queue has been emptied the window is back in its idle state:
    status "Ready", both bars at 0, "0/0 files processed", "--:--:--", Start
    enabled and Cancel disabled, whatever the batch did (so the closing
    status text of the batch does not stay); and the error dialogs shown are
    exactly the queued ones, in order. *)
Theorem window_reset_after_batch (st : settings) (w : batch_world)
    (files : list string) (polls : list bool) (u : window) :
  let u' := window_after (events (process_video_files st w files)) polls u in
  win_status u' = "Ready"
  /\ win_current_file u' = "No file processing"
  /\ win_progress_text u' = "0/0 files processed"
  /\ win_time_remaining u' = "--:--:--"
  /\ win_file_progress u' = 0%Q /\ win_overall_progress u' = 0%Q
  /\ win_start_button u' = NORMAL /\ win_cancel_button u' = DISABLED
  /\ win_dialogs u'
     = win_dialogs u ++ queued_messages (events (process_video_files st w files)).
Proof.
  cbv zeta.
  destruct (process_video_files_events st w files)
    as (s & tail & Hev & _ & _ & _ & _ & _ & _ & Hui & Hlast).
  assert (Htail : tail <> []) by (intros ->; discriminate).
  rewrite (app_removelast_last (Print EmptyString) Htail), Hlast, app_assoc in Hev.
  unfold window_after.
  pose proof (play_dialogs (events (process_video_files st w files)) polls u [])
    as Hdlg.
  destruct (play_snoc_queued (UUiState false) (trace s ++ removelast tail) polls u [])
    as (u1 & q1 & Hplay).
  rewrite <- Hev in Hplay. rewrite Hplay in *. cbn [fst snd] in Hdlg.
  split; [|split; [|split; [|split; [|split; [|split; [|split; [|split]]]]]]];
    try (rewrite check_update_queue_app; reflexivity).
  exact Hdlg.
Qed.

(** ** The directory dialogs *)

Section Browse.
Import PyStr PosixPath.

Lemma rfind_absent (c : ascii) (s : string) :
  all_chars (fun a => negb (Ascii.eqb a c)) s = true -> rfind c s = None.
Proof.
  induction s as [|a r IH]; cbn; [reflexivity|].
  intros H. apply andb_true_iff in H as [Ha Hr]. rewrite (IH Hr).
  apply negb_true_iff in Ha. now rewrite Ha.
Qed.

Lemma rfind_last (c : ascii) (a name : string) :
  all_chars (fun x => negb (Ascii.eqb x c)) name = true ->
  rfind c (a ++ String c name) = Some (String.length a).
Proof.
  intros Hn. induction a as [|x a IH]; cbn [append rfind String.length].
  - rewrite (rfind_absent c name Hn). now rewrite Ascii.eqb_refl.
  - now rewrite IH.
Qed.

Lemma take_app_length (a b : string) (k : nat) :
  take (String.length a + k) (a ++ b) = (a ++ take k b)%string.
Proof. induction a as [|x a IH]; cbn; [reflexivity|now rewrite IH]. Qed.

Lemma drop_app_length (a b : string) (k : nat) :
  drop (String.length a + k) (a ++ b) = drop k b.
Proof. induction a as [|x a IH]; cbn; [reflexivity|exact IH]. Qed.

Lemma rstrip_sep_keeps (s : string) :
  ends_with_char s sep = false -> rstrip_sep s = s.
Proof.
  induction s as [|a r IH]; [reflexivity|].
  cbn [ends_with_char rstrip_sep]. destruct r as [|b r'].
  - intros H. cbn. now rewrite H.
  - intros H. rewrite (IH H). reflexivity.
Qed.

Lemma rstrip_sep_snoc (s : string) :
  rstrip_sep (s ++ String sep EmptyString) = rstrip_sep s.
Proof.
  induction s as [|a r IH]; [reflexivity|].
  cbn [append rstrip_sep]. now rewrite IH.
Qed.

Lemma all_sep_end (s : string) :
  all_sep s = true -> s = EmptyString \/ ends_with_char s sep = true.
Proof.
  induction s as [|a r IH]; [now left|].
  cbn [all_sep]. intros H. apply andb_true_iff in H as [Ha Hr]. right.
  destruct (IH Hr) as [->|He]; [exact Ha|].
  destruct r; [discriminate|exact He].
Qed.

Lemma all_sep_app (a b : string) : all_sep (a ++ b) = (all_sep a && all_sep b)%bool.
Proof.
  induction a as [|x a IH]; cbn; [reflexivity|].
  now rewrite IH, andb_assoc.
Qed.

(** [dirname] and [basename] of a path whose last slash follows a parent
    that does not itself end with a slash. *)
Lemma dirname_basename (parent name : string) :
  no_sep name = true -> ends_with_char parent sep = false ->
  dirname (parent ++ String sep name)
  = (if String.eqb parent "" then "/" else parent)
  /\ basename (parent ++ String sep name) = name.
Proof.
  intros Hn Hp. unfold dirname, basename, rfindZ.
  rewrite (rfind_last sep parent name Hn).
  replace (Z.to_nat (Z.of_nat (String.length parent) + 1))
    with (String.length parent + 1) by lia.
  rewrite take_app_length, drop_app_length. cbn [take drop]. split; [|reflexivity].
  destruct parent as [|c r]; [reflexivity|].
  replace (negb (String.eqb (String c r ++ String sep "") "")) with true by reflexivity.
  rewrite all_sep_app.
  destruct (all_sep (String c r)) eqn:Ha.
  - apply all_sep_end in Ha as [Ha|Ha]; [discriminate|congruence].
  - cbn [andb negb]. rewrite rstrip_sep_snoc. now apply rstrip_sep_keeps.
Qed.

Lemma no_sep_relative (name tail : string) :
  no_sep name = true -> startswith tail "/" = false ->
  startswith (name ++ tail) "/" = false.
Proof.
  intros Hn Ht. destruct name as [|c r]; [exact Ht|].
  cbn [append]. rewrite startswith_sep. cbn in Hn.
  apply andb_true_iff in Hn as [Hc _]. now apply negb_true_iff.
Qed.

(** X13. [browse_input_dir] leaves everything as it is when the dialog is
    dismissed, and never replaces an output directory already chosen.  With
    the output field empty it proposes the chosen directory with
    "_compressed" appended, a sibling of the input directory: this holds for
    a directory without any slash and for one whose last slash follows a
    parent not ending with a slash. *)
Theorem browse_input_suggestion (st : settings) :
  browse_input_dir "" st = st
  /\ (forall directory,
         directory <> EmptyString -> output_dir st <> EmptyString ->
         browse_input_dir directory st = set_input_dir directory st)
  /\ (forall name,
         name <> EmptyString -> no_sep name = true -> output_dir st = EmptyString ->
         browse_input_dir name st
         = set_output_dir (name ++ "_compressed")%string (set_input_dir name st))
  /\ (forall parent name,
         no_sep name = true -> ends_with_char parent sep = false ->
         output_dir st = EmptyString ->
         browse_input_dir (parent ++ String sep name) st
         = set_output_dir ((parent ++ String sep name) ++ "_compressed")%string
             (set_input_dir (parent ++ String sep name) st)).
Proof.
  split; [reflexivity|]. split; [|split].
  - intros directory Hd Ho. unfold browse_input_dir.
    apply String.eqb_neq in Hd, Ho. rewrite Hd. cbn [set_input_dir output_dir].
    now rewrite Ho.
  - intros name Hne Hn Ho. unfold browse_input_dir.
    apply String.eqb_neq in Hne. rewrite Hne. cbn [set_input_dir output_dir].
    rewrite Ho. cbn [String.eqb]. f_equal.
    unfold dirname, basename, rfindZ. rewrite (rfind_absent sep name Hn).
    cbn [Z.add Z.to_nat Pos.to_nat take drop].
    replace (drop (Z.to_nat (-1 + 1)) name) with name by (now destruct name).
    replace (take (Z.to_nat (-1 + 1)) name) with EmptyString by (now destruct name).
    cbn. unfold join.
    rewrite (no_sep_relative name "_compressed" Hn eq_refl). reflexivity.
  - intros parent name Hn Hp Ho. unfold browse_input_dir.
    replace (String.eqb (parent ++ String sep name) "") with false
      by (now destruct parent).
    cbn [set_input_dir output_dir]. rewrite Ho. cbn [String.eqb]. f_equal.
    destruct (dirname_basename parent name Hn Hp) as [-> ->].
    unfold join. rewrite (no_sep_relative name "_compressed" Hn eq_refl).
    destruct parent as [|c r].
    + reflexivity.
    + replace (String.eqb (String c r) "") with false by reflexivity.
      rewrite Hp. cbn [orb String.eqb].
      rewrite <- !string_append_assoc. reflexivity.
Qed.

End Browse.

(** ** Centring the window *)

(** X14. For a window no larger than the screen, [center_window] places it
    wholly on the screen and centred to within one pixel, in each
    direction: the offset is not negative, offset plus size does not pass
    the screen's size, and the two margins differ by at most one. *)
Theorem center_window_on_screen (screen size : Z)
    (Hsize : (0 <= size <= screen)%Z) :
  (0 <= center_offset screen size
   /\ center_offset screen size + size <= screen
   /\ -1 <= (screen - (center_offset screen size + size))
            - center_offset screen size <= 1)%Z
  /\ forall height screenheight,
       center_window size height screen screenheight
       = (PyStr.str_of_Z size ++ "x" ++ PyStr.str_of_Z height
            ++ "+" ++ PyStr.str_of_Z (center_offset screen size)
            ++ "+" ++ PyStr.str_of_Z (center_offset screenheight height))%string.
Proof.
  split; [|reflexivity]. unfold center_offset. Z.div_mod_to_equations. lia.
Qed.

Lemma center_window_on_screen_witness :
  (0 <= 800 <= 1921)%Z
  /\ center_offset 1921 800 = 560%Z
  /\ (center_offset 1921 800 + 800 <= 1921)%Z
  /\ center_window 800 600 1921 1080 = "800x600+560+240".
Proof.
  assert (H : (0 <= 800 <= 1921)%Z) by lia.
  destruct (center_window_on_screen 1921 800 H) as ((_ & Hfit & _) & Hgeo).
  split; [exact H|]. split; [reflexivity|]. split; [exact Hfit|].
  rewrite Hgeo. reflexivity.
Defined.

(** ** The order of a directory listing *)

Lemma Permutation_filter_string (p : string -> bool) (l l' : list string) :
  Permutation l l' -> Permutation (filter p l) (filter p l').
Proof.
  induction 1 as [|x l l' _ IH|x y l|l l' l'' _ IH1 _ IH2]; cbn.
  - constructor.
  - destruct (p x); [now constructor|exact IH].
  - destruct (p x), (p y); try reflexivity. apply perm_swap.
  - now transitivity (filter p l').
Qed.

(** A sorted list is determined by its elements. *)
Lemma sorted_unique (a : list string) :
  forall b, StronglySorted str_le a -> StronglySorted str_le b ->
            Permutation a b -> a = b.
Proof.
  induction a as [|x a IH]; intros b Ha Hb Hp.
  - apply Permutation_nil in Hp. now subst.
  - destruct b as [|y b].
    { symmetry in Hp. apply Permutation_nil in Hp. discriminate. }
    inversion Ha as [|? ? Ha' Hxa]; subst. inversion Hb as [|? ? Hb' Hyb]; subst.
    assert (Hxy : x = y).
    { assert (Hy : In y (x :: a))
        by (apply (Permutation_in _ (Permutation_sym Hp)); now left).
      assert (Hx : In x (y :: b)) by (apply (Permutation_in _ Hp); now left).
      destruct Hy as [Hy|Hy]; [exact Hy|]. destruct Hx as [Hx|Hx]; [now symmetry|].
      rewrite Forall_forall in Hxa, Hyb.
      apply String.leb_antisym; [apply (Hxa y Hy)|apply (Hyb x Hx)]. }
    subst y. f_equal. apply IH; auto. eapply Permutation_cons_inv, Hp.
Qed.

Lemma sorted_of_permutation (l l' : list string) :
  Permutation l l' -> sorted l = sorted l'.
Proof.
  intros Hp. apply sorted_unique; try apply sorted_sorted.
  rewrite (sorted_perm l), (sorted_perm l'). exact Hp.
Qed.

(** X15. The list [find_video_files] returns does not depend on the order in
    which the entries of the input directory are listed. *)
Theorem discovery_ignores_listing_order (directory : string)
    (children children' : list node)
    (Hperm : Permutation children children') :
  find_video_files directory children = find_video_files directory children'.
Proof.
  unfold find_video_files. apply sorted_of_permutation.
  unfold walk, collect_video_files. cbn [flat_map].
  apply Permutation_app.
  - apply Permutation_map, Permutation_filter_string.
    unfold file_names. now apply Permutation_flat_map.
  - apply Permutation_flat_map. now apply Permutation_flat_map.
Qed.

Lemma discovery_ignores_listing_order_witness :
  Permutation [File "b.mov"; Dir "s" [File "a.mp4"]; File "a.mkv"]
              [File "a.mkv"; File "b.mov"; Dir "s" [File "a.mp4"]]
  /\ find_video_files "/in" [File "b.mov"; Dir "s" [File "a.mp4"]; File "a.mkv"]
     = find_video_files "/in" [File "a.mkv"; File "b.mov"; Dir "s" [File "a.mp4"]].
Proof.
  assert (H : Permutation [File "b.mov"; Dir "s" [File "a.mp4"]; File "a.mkv"]
                          [File "a.mkv"; File "b.mov"; Dir "s" [File "a.mp4"]]).
  { apply Permutation_sym.
    apply (Permutation_cons_app [File "b.mov"; Dir "s" [File "a.mp4"]] []).
    rewrite app_nil_r. apply Permutation_refl. }
  split; [exact H|]. exact (discovery_ignores_listing_order "/in" _ _ H).
Defined.

(** ** Start-up *)

(** X16. [check_ffmpeg] is called in [__init__] before any widget exists,
    and its handler asks for [self.start_button]: when ffmpeg or ffprobe is
    missing the constructor shows the "FFmpeg Not Found" dialog and then
    fails with an [AttributeError], so no window with a disabled Start button
    ever comes up; ffprobe is tried only if ffmpeg was found.  When both
    tools are found the window comes up idle, with the preset 'Medium', the
    CRF entry disabled and holding "23", and settings whose quality passes
    validation.  Called once the button exists, [check_ffmpeg] does disable
    it. *)
Theorem startup_outcomes (t : tools) :
  (ffmpeg_found t && ffprobe_found t = false ->
   init t = StartupFails [ffmpeg_not_found_dialog])
  /\ (ffmpeg_found t && ffprobe_found t = true ->
      exists st,
        init t = StartupDone st (initial_window []) DISABLED
        /\ quality_preset st = "Medium" /\ custom_crf st = "23"
        /\ output_format st = "mp4" /\ resolution st = "Original"
        /\ validate_quality st = None)
  /\ (forall st u entry, init t = StartupDone st u entry -> win_start_button u = NORMAL)
  /\ (forall b, ffmpeg_found t && ffprobe_found t = false ->
                check_ffmpeg t (Some b)
                = ([ffmpeg_not_found_dialog], CheckReturns false (Some DISABLED)))
  /\ List.length (version_checks t) = (if ffmpeg_found t then 2 else 1).
Proof.
  unfold init, check_ffmpeg, version_checks.
  destruct (ffmpeg_found t), (ffprobe_found t); cbn;
    (split; [intros H; try discriminate H; reflexivity|]);
    (split; [intros H; try discriminate H; eexists; repeat split; reflexivity|]);
    (split; [intros st u entry H; try discriminate H; now injection H as <- <- <-|]);
    (split; [intros b H; try discriminate H; reflexivity|]); reflexivity.
Qed.

(** ** The command builder on any settings *)

Lemma crf_setting_none (st : settings) :
  crf_setting st = None <-> ~ In (quality_preset st) (map fst QUALITY_LEVELS).
Proof.
  unfold crf_setting. cbn [lookup QUALITY_LEVELS map fst In].
  destruct (String.eqb (quality_preset st) "Custom") eqn:Hc.
  { apply String.eqb_eq in Hc. split; [discriminate|]. intros H. exfalso. auto 6. }
  destruct (String.eqb (quality_preset st) "High (larger file)") eqn:H1;
    [apply String.eqb_eq in H1; split; [discriminate|intros H; exfalso; auto]|].
  destruct (String.eqb (quality_preset st) "Medium") eqn:H2;
    [apply String.eqb_eq in H2; split; [discriminate|intros H; exfalso; auto]|].
  destruct (String.eqb (quality_preset st) "Low (smaller file)") eqn:H3;
    [apply String.eqb_eq in H3; split; [discriminate|intros H; exfalso; auto]|].
  apply String.eqb_neq in Hc, H1, H2, H3.
  split; [|reflexivity]. intros _ [H|[H|[H|[H|[]]]]]; congruence.
Qed.

(** X17. On any settings [get_ffmpeg_command] raises exactly when the preset
    name is not a key of [QUALITY_LEVELS], and then a [KeyError]; otherwise
    its vector begins with ffmpeg -i <input> -y and ends with -c:a aac -b:a
    128k <output>, the input and the output being single arguments exactly as
    given, with at most eight arguments in between; and what [Popen] receives
    is that vector with -progress pipe:1 after the program name. *)
Theorem command_builder_total (st : settings) (input_file output_file : string) :
  (~ In (quality_preset st) (map fst QUALITY_LEVELS) ->
   exists msg, get_ffmpeg_command st input_file output_file = inl (Raise KeyError msg))
  /\ (In (quality_preset st) (map fst QUALITY_LEVELS) ->
      exists middle,
        List.length middle <= 8
        /\ get_ffmpeg_command st input_file output_file
           = inr (["ffmpeg"; "-i"; input_file; "-y"] ++ middle
                    ++ ["-c:a"; "aac"; "-b:a"; "128k"; output_file])
        /\ forall tw cmd,
             In (Popen cmd) (fst (compress_video st tw input_file output_file)) ->
             cmd = ["ffmpeg"; "-progress"; "pipe:1"; "-i"; input_file; "-y"]
                     ++ middle ++ ["-c:a"; "aac"; "-b:a"; "128k"; output_file]).
Proof.
  unfold get_ffmpeg_command. split.
  - intros H. apply crf_setting_none in H. rewrite H. eauto.
  - intros Hin. destruct (crf_setting st) as [crf|] eqn:Hcrf;
      [|apply crf_setting_none in Hcrf; contradiction].
    exists (scale_args (resolution st) ++ codec_args (output_format st) crf).
    split.
    { rewrite length_app. unfold scale_args, codec_args.
      destruct (negb (String.eqb (resolution st) "Original"));
        [destruct (re_search_dims (resolution st))|];
        destruct (String.eqb (output_format st) "mp4");
        try destruct (String.eqb (output_format st) "webm");
        try destruct (String.eqb (output_format st) "mkv"); cbn; lia. }
    split.
    { now rewrite <- !app_assoc. }
    intros tw cmd Hpopen. apply compress_video_popen in Hpopen as (built & Hb & ->).
    unfold get_ffmpeg_command in Hb. rewrite Hcrf in Hb. injection Hb as <-.
    cbn [list_insert firstn skipn List.app]. now rewrite <- !app_assoc.
Qed.

(** ** A preset name that is not in the table *)

Lemma compress_video_unknown_preset (st : settings) (tw : task_world)
    (input_file output_file : string) :
  crf_setting st = None ->
  exists e,
    compress_video st tw input_file output_file
    = (CheckOutput (duration_cmd input_file) :: compress_failed input_file e, false).
Proof.
  intros Hcrf. unfold compress_video, get_ffmpeg_command. rewrite Hcrf.
  destruct (tw_probe tw); eauto.
Qed.

Lemma rounds_unknown_preset (st : settings) (w : batch_world) (total : nat)
    (files : list string) :
  crf_setting st = None ->
  forall i s,
    cancel_requested s = false ->
    processed_files s = 0 ->
    (forall j, j < List.length files ->
               tw_cancel (bw_task w (i + j)) = false
               /\ tw_makedirs (bw_task w (i + j)) = None) ->
    Forall (fun f => f <> EmptyString) files ->
    exists s',
      rounds st w total i files s = inr s'
      /\ cancel_requested s' = false
      /\ processed_files s' = 0
      /\ failed_files s' = failed_files s + List.length files
      /\ launched (trace s') = launched (trace s)
      /\ time_texts (trace s') = time_texts (trace s)
      /\ started_tasks (trace s') = started_tasks (trace s) ++ files
      /\ List.length (error_labels (trace s'))
         = List.length (error_labels (trace s)) + List.length files.
Proof.
  intros Hcrf. induction files as [|f files IH]; intros i s Hc Hp Hw Hne.
  - exists s. cbn. rewrite app_nil_r. repeat split; auto; lia.
  - inversion Hne as [|? ? Hf Hrest]; subst.
    destruct (Hw 0 ltac:(cbn; lia)) as [Hc0 Hm0]. rewrite Nat.add_0_r in Hc0, Hm0.
    destruct (destination_defined st w f Hf) as (out & Hout).
    destruct (compress_video_unknown_preset st (bw_task w i) f out Hcrf) as (e & Hcv).
    cbn [rounds]. rewrite Hc. unfold round. rewrite Hout, Hm0, Hcv, Hp.
    unfold estimate_events. cbn [Nat.ltb Nat.leb].
    match goal with |- context [rounds _ _ _ _ _ ?s1] =>
      destruct (IH (S i) s1) as (s' & Hr & Hc' & Hp' & Hf' & Hl & Ht & Hst & Hel) end;
      cbn [cancel_requested processed_files failed_files trace] in *.
    { now rewrite Hc, Hc0. }
    { reflexivity. }
    { intros j Hj. specialize (Hw (S j) ltac:(cbn; lia)).
      now rewrite Nat.add_succ_r in Hw. }
    { exact Hrest. }
    exists s'. split; [exact Hr|]. split; [exact Hc'|]. split; [exact Hp'|].
    cbn [List.length]. split; [lia|].
    unfold launched, time_texts, started_tasks, error_labels, compress_failed in *.
    rewrite Hl, Ht, Hst, Hel. rewrite !flat_map_app, ?length_app.
    cbn [flat_map List.app duration_cmd last List.length]. rewrite !app_nil_r.
    split; [reflexivity|]. split; [reflexivity|].
    split; [now rewrite <- app_assoc|]. cbn. lia.
Qed.

(** X18. With a preset name that is not a key of [QUALITY_LEVELS] (and no
    [os.makedirs] failure and no Cancel), the batch still visits every file
    and ends Completed, but every task fails after its probe: nothing is
    processed, the failures are as many as the files, the encoder is never
    launched, each task queues one status text, and no time estimate is
    shown before the final "00:00:00". *)
Theorem unknown_preset_fails_every_task (st : settings) (w : batch_world)
    (files : list string)
    (Hpreset : ~ In (quality_preset st) (map fst QUALITY_LEVELS))
    (Hcancel0 : bw_cancel0 w = false)
    (Hworld : forall j, j < List.length files ->
                        tw_cancel (bw_task w j) = false
                        /\ tw_makedirs (bw_task w j) = None)
    (Hfiles : Forall (fun f => f <> EmptyString) files) :
  let r := process_video_files st w files in
  final_state r = Completed
  /\ processed r = 0
  /\ failed r = List.length files
  /\ started_tasks (events r) = files
  /\ launched (events r) = []
  /\ List.length (error_labels (events r)) = List.length files
  /\ time_texts (events r) = ["00:00:00"].
Proof.
  cbv zeta. apply crf_setting_none in Hpreset.
  destruct (rounds_unknown_preset st w (List.length files) files Hpreset 0 (initial_state w))
    as (s & Hr & Hc & Hp & Hf & Hl & Ht & Hst & Hel); auto.
  unfold process_video_files. rewrite Hr, Hc.
  cbn [final_state processed failed events].
  cbn [initial_state trace failed_files] in Hf, Hl, Ht, Hst, Hel.
  split; [reflexivity|]. split; [exact Hp|]. split; [exact Hf|].
  unfold launched, time_texts, started_tasks, error_labels in *.
  rewrite !flat_map_app, Hl, Ht, Hst, length_app, Hel.
  cbn. rewrite app_nil_r. repeat split; lia.
Qed.

Lemma unknown_preset_fails_every_task_witness :
  let r := process_video_files example_settings_unknown_preset example_world_failure
             example_files in
  final_state r = Completed
  /\ processed r = 0
  /\ failed r = 3
  /\ started_tasks (events r) = example_files
  /\ launched (events r) = []
  /\ List.length (error_labels (events r)) = 3
  /\ time_texts (events r) = ["00:00:00"].
Proof.
  apply (unknown_preset_fails_every_task example_settings_unknown_preset
           example_world_failure example_files).
  - cbn. intros [H|[H|[H|[H|[]]]]]; discriminate H.
  - reflexivity.
  - intros j Hj. destruct j as [|[|j]]; split; reflexivity.
  - repeat constructor; discriminate.
Defined.

(** ** The primitives on sample inputs *)

Example ex_int_0 : PyStr.py_int "0" = Some 0%Z. Proof. reflexivity. Qed.
Example ex_int_ws : PyStr.py_int " +1_2 " = Some 12%Z. Proof. reflexivity. Qed.
Example ex_int_neg : PyStr.py_int "-1" = Some (-1)%Z. Proof. reflexivity. Qed.
Example ex_int_abc : PyStr.py_int "abc" = None. Proof. reflexivity. Qed.
Example ex_int_bad : PyStr.py_int "1__2" = None. Proof. reflexivity. Qed.
Example ex_float_1 : option_map Qred (PyStr.py_float "12.50") = Some (25 # 2)%Q. Proof. reflexivity. Qed.
Example ex_float_2 : option_map Qred (PyStr.py_float "-5e-1") = Some (- 1 # 2)%Q. Proof. reflexivity. Qed.
Example ex_float_3 : PyStr.py_float "N/A" = None. Proof. reflexivity. Qed.
Example ex_float_4 : PyStr.py_float "." = None. Proof. reflexivity. Qed.
Example ex_split : PyStr.split "=" "a=b=c" = ["a"; "b"; "c"]. Proof. reflexivity. Qed.
Example ex_strip : PyStr.strip "  a b
" = "a b". Proof. reflexivity. Qed.
Example ex_str : PyStr.str_of_Z (-120) = "-120". Proof. reflexivity. Qed.

Example ex_splitext : PosixPath.splitext "a/b.c/.hidden.MP4" = ("a/b.c/.hidden", ".MP4"). Proof. reflexivity. Qed.
Example ex_splitext2 : PosixPath.splitext "a/b.c/..mp4" = ("a/b.c/..mp4", ""). Proof. reflexivity. Qed.
Example ex_dirname : PosixPath.dirname "/out/sub/a.mp4" = "/out/sub". Proof. reflexivity. Qed.
Example ex_dirname2 : PosixPath.dirname "//a" = "//". Proof. reflexivity. Qed.
Example ex_norm : PosixPath.normpath "/a/./b/../c//d/" = "/a/c/d". Proof. reflexivity. Qed.
Example ex_norm2 : PosixPath.normpath "../a/../../b" = "../../b". Proof. reflexivity. Qed.
Example ex_rel : PosixPath.relpath "/home/u" "/in/sub/a.mov" "/in/" = Some "sub/a.mov". Proof. reflexivity. Qed.
Example ex_rel2 : PosixPath.relpath "/home/u" "vids/a.mov" "vids" = Some "a.mov". Proof. reflexivity. Qed.
Example ex_find :
  find_video_files "/in" [File "b.MOV"; Dir "s" [File "a.mp4"; File "n.txt"]; File "a.mkv"; File ".mp4"]
  = ["/in/a.mkv"; "/in/b.MOV"; "/in/s/a.mp4"]. Proof. reflexivity. Qed.
